(** * TimeChecker: schedule windows, clock-drift countdown and workstation lock

    A shallow embedding of [script.py] (class [TimeChecker]).

    - Pure data (times of day, [strftime]/[strptime] for the format
      ["%H:%M"], [datetime] comparison and subtraction) is translated to
      total functions.
    - The methods are translated to programs over a small set of events
      ([prog]): every call that leaves the Python object (clock, NTP, Tk,
      the OS lock, [time.sleep], the logger, [Thread.start]) is one event.
      Python exceptions are a constructor of [prog]; [try]/[except] and
      [with suppress(Exception)] are the combinator [try_catch].
    - [interp] runs one thread in a [World]: the answers of the outside, as
      functions of the virtual time that [time.sleep] advances.
    - [Threads.step] runs the main thread and the threads it starts
      interleaved, one event at a time.

    The definitions come first: the embedding of the source, then the
    notions the statements are written with; the lemmas and the theorems
    follow. *)

From Stdlib Require Import ZArith QArith Qabs List Bool Ascii String Lia.
Import ListNotations.

Local Open Scope string_scope.
Local Open Scope list_scope.
Local Open Scope Z_scope.

(* ================================================================= *)
(** ** Times of day and datetimes *)

Module Time.

(** A naive [datetime.datetime].  [ordinal] is [date.toordinal ()] of the
    (year, month, day) part: it orders dates as the triple does, and
    subtraction of datetimes only uses the difference of ordinals. *)
Record datetime : Type := mkDatetime {
  ordinal : Z;
  hour : Z;
  minute : Z;
  second : Z;
  microsecond : Z
}.

(** [date (1900, 1, 1).toordinal ()], the date [strptime] fills in when the
    format has no date directive. *)
Definition ordinal_1900 : Z := 693596.

(** Comparison of datetimes: Python compares the field tuples. *)
Definition lex (c1 c2 : comparison) : comparison :=
  match c1 with Eq => c2 | _ => c1 end.

Definition dt_compare (a b : datetime) : comparison :=
  lex (ordinal a ?= ordinal b)
   (lex (hour a ?= hour b)
     (lex (minute a ?= minute b)
       (lex (second a ?= second b) (microsecond a ?= microsecond b)))).

Definition dt_leb (a b : datetime) : bool :=
  match dt_compare a b with Gt => false | _ => true end.

Definition dt_geb (a b : datetime) : bool := dt_leb b a.

(** [a - b] as a [timedelta], kept as its total number of microseconds. *)
Definition timedelta : Type := Z.

Definition seconds_of_day (d : datetime) : Z :=
  second d + minute d * 60 + hour d * 3600.

Definition dt_sub (a b : datetime) : timedelta :=
  ((ordinal a - ordinal b) * 86400 + (seconds_of_day a - seconds_of_day b))
    * 1000000
  + (microsecond a - microsecond b).

(** [timedelta.total_seconds ()].  The source computes in binary floating
    point: [total_seconds] is the correctly rounded quotient of two
    integers, and the division by 60 is rounded once more.  Rounding is
    monotone and 300 and 5 are floating-point numbers, so a difference of
    at most 300 s gives at most 5.0; a difference of 300.000001 s or more
    gives more than 5.0, one microsecond being far above the spacing of
    the doubles near 300 and near 5.  The comparisons with 5 below thus
    come out as on the exact quotients, which the model keeps. *)
Definition total_seconds (td : timedelta) : Q := td # 1000000.

(** [abs ((network_time - local_time).total_seconds () / 60)] *)
Definition time_diff (network_time local_time : datetime) : Q :=
  Qabs (total_seconds (dt_sub network_time local_time) / 60).

(** [time_diff <= 5] and [time_diff > 5] *)
Definition diff_le_5 (d : Q) : bool := Qle_bool d 5.
Definition diff_gt_5 (d : Q) : bool := negb (Qle_bool d 5).

(* ----------------------------------------------------------------- *)
(** *** ["%H:%M"] *)

Definition is_digit (c : ascii) : bool :=
  ((48 <=? N_of_ascii c) && (N_of_ascii c <=? 57))%N.

Definition digit_value (c : ascii) : Z := Z.of_N (N_of_ascii c - 48).

Definition digit_char (d : Z) : ascii := ascii_of_N (48 + Z.to_N d).

(** ["%02d"] on a number below 100. *)
Definition two_digits (n : Z) (rest : string) : string :=
  String (digit_char (n / 10)) (String (digit_char (n mod 10)) rest).

(** [d.strftime ("%H:%M")] *)
Definition strftime_HM (d : datetime) : string :=
  two_digits (hour d) (String ":" (two_digits (minute d) "")).

(** The minute field of [strptime]: the regular expression
    [[0-5]\d|\d], alternatives tried in this order, after which no input
    may remain ("unconverted data remains"). *)
Definition parse_minute (s : string) : option Z :=
  match s with
  | String d1 (String d2 "") =>
      if is_digit d1 && is_digit d2 && (digit_value d1 <=? 5)
      then Some (digit_value d1 * 10 + digit_value d2)
      else None
  | String d1 "" => if is_digit d1 then Some (digit_value d1) else None
  | _ => None
  end.

(** The hour field: [2[0-3]|[0-1]\d|\d], then a colon.  A two-digit
    alternative is taken when it matches and is followed by the colon; the
    one-digit alternative needs the colon as second character. *)
Definition two_digit_hour (c1 c2 : ascii) : bool :=
  is_digit c1 && is_digit c2 &&
  (((digit_value c1 =? 2) && (digit_value c2 <=? 3)) || (digit_value c1 <=? 1)).

(** [datetime.strptime (s, "%H:%M")]; [None] stands for [ValueError]. *)
Definition strptime_HM (s : string) : option datetime :=
  match s with
  | String c1 (String c2 rest) =>
      if Ascii.eqb c2 ":" then
        if is_digit c1 then
          match parse_minute rest with
          | Some m => Some (mkDatetime ordinal_1900 (digit_value c1) m 0 0)
          | None => None
          end
        else None
      else
        match rest with
        | String c3 rest' =>
            if Ascii.eqb c3 ":" && two_digit_hour c1 c2 then
              match parse_minute rest' with
              | Some m =>
                  Some (mkDatetime ordinal_1900
                          (digit_value c1 * 10 + digit_value c2) m 0 0)
              | None => None
              end
            else None
        | _ => None
        end
  | _ => None
  end.

End Time.
Import Time.

(* ================================================================= *)
(** ** Programs over events *)

(** The exception classes the source tells apart: [except Exception] does
    not catch [KeyboardInterrupt] and [SystemExit]. *)
Inductive exn : Type :=
| KeyboardInterrupt
| SystemExit (code : Z)
| Exception (msg : string).

(** The [reason] argument of [show_countdown_warning]: the two strings the
    source passes. *)
Inductive reason : Type := TimeSync | PeriodLock.

(** The targets given to [Thread]. *)
Inductive task : Type :=
| ShowCountdownWarning (remaining_minutes : Z) (r : reason)
| TimeLockCountdown
| CountdownCheck.

(** The calls into Tk made by [safe_tk_operation] and its operations. *)
Inductive tk_call : Type :=
| TkTk
| TkWithdraw
| TkShowWarning (remaining_minutes : Z) (r : reason)
| TkShowInfo
| TkDestroy.

Inductive level : Type := DEBUG | INFO | WARNING | ERROR.

(** One constructor for each message the modelled methods log, with the
    values the message is formatted from. *)
Inductive log_msg : Type :=
| MsgInLockWindow (current_time_str start_time end_time : string)
| MsgLockCheckError (e : string)
| MsgTraceback
| MsgTkFailed (attempt max_retries : Z) (e : string)
| MsgTkAllFailed
| MsgNtpOk (server : string)
| MsgNtpFailed (server : string) (e : string)
| MsgLocking
| MsgLockFailed (e : string)
| MsgScheduleCountdownStart
| MsgScheduleCountdownError (e : string)
| MsgSampleLocal (local_time : datetime)
| MsgSampleNetwork (network_time : datetime)
| MsgSampleDiff (diff : Q)
| MsgResynced
| MsgRemaining (remaining : Q)
| MsgCountdownError (e : string)
| MsgNoNetworkTime
| MsgLocal (local_time : datetime)
| MsgNetwork (network_time : datetime)
| MsgDiff (diff : Q)
| MsgCheckError (e : string)
| MsgStarted
| MsgKeyboardInterrupt
| MsgMainLoopError (e : string).

(** The events, indexed by the type of their answer.  A call that can
    raise answers with the message of the exception (always of class
    [Exception]: [ntplib], socket, Tk and ctypes errors all are).
    [NtpRequest server timeout] stands for the three statements
    [NTPClient ()], [request (server, timeout=timeout)] and
    [datetime.fromtimestamp (response.tx_time)]: it answers the converted
    time, or the exception of whichever statement raised.  [time.sleep] is
    where an exception raised by a signal handler surfaces, so its answer
    is an exception of any class. *)
Inductive event : Type -> Type :=
| DatetimeNow : event datetime
| StopIsSet : event bool
| GetWarningActive : event bool
| SetWarningActive (b : bool) : event unit
| NtpRequest (server : string) (timeout : Z) : event (string + datetime)
| LockWorkStation : event (option string)
| Tk (c : tk_call) : event (option string)
| Sleep (secs : Z) : event (option exn)
| Log (l : level) (m : log_msg) : event unit
| ThreadStart (t : task) : event unit.

(** A program: returns, raises, performs an event and goes on with its
    answer, or has used up the bound on the unrolling of a [while] loop. *)
Inductive prog (A : Type) : Type :=
| Ret (a : A)
| Raise (e : exn)
| Vis {X : Type} (ev : event X) (k : X -> prog A)
| Fuel.

Arguments Ret {A} a.
Arguments Raise {A} e.
Arguments Vis {A X} ev k.
Arguments Fuel {A}.

Fixpoint bind {A B : Type} (p : prog A) (f : A -> prog B) : prog B :=
  match p with
  | Ret a => f a
  | Raise e => Raise e
  | Vis ev k => Vis ev (fun x => bind (k x) f)
  | Fuel => Fuel
  end.

Notation "x <- p ;; q" := (bind p (fun x => q))
  (at level 61, p at next level, right associativity).
Notation "p ;; q" := (bind p (fun _ => q))
  (at level 61, right associativity).

Definition trigger {X : Type} (ev : event X) : prog X := Vis ev Ret.

(** A call that raises [Exception] with the answered message. *)
Definition raising (ev : event (option string)) : prog unit :=
  r <- trigger ev ;;
  match r with Some msg => Raise (Exception msg) | None => Ret tt end.

(** [try: p except ...: h]: [h e] is the body of the clause that matches
    [e], [None] when no clause does. *)
Fixpoint try_catch {A : Type} (p : prog A) (h : exn -> option (prog A))
  : prog A :=
  match p with
  | Ret a => Ret a
  | Raise e => match h e with Some q => q | None => Raise e end
  | Vis ev k => Vis ev (fun x => try_catch (k x) h)
  | Fuel => Fuel
  end.

(** [except Exception as e: h e] *)
Definition except_Exception {A : Type} (h : string -> prog A)
  : exn -> option (prog A) :=
  fun e => match e with Exception msg => Some (h msg) | _ => None end.

(** The body of a [for] loop inside a function: it falls through to the
    next iteration or executes [return a]. *)
Inductive flow (A : Type) : Type :=
| Next
| Return (a : A).

Arguments Next {A}.
Arguments Return {A} a.

(** [for x in xs: body x] followed by [after]. *)
Fixpoint for_each {X A : Type} (xs : list X) (body : X -> prog (flow A))
  (after : prog A) : prog A :=
  match xs with
  | [] => after
  | x :: xs' =>
      r <- body x ;;
      match r with
      | Return a => Ret a
      | Next => for_each xs' body after
      end
  end.

(** [with suppress(Exception): p], where [p] may [return]. *)
Definition suppress_Exception {A : Type} (p : prog (flow A)) : prog (flow A) :=
  try_catch p (except_Exception (fun _ => Ret Next)).

Definition logger (l : level) (m : log_msg) : prog unit := trigger (Log l m).

(** [time.sleep (secs)] *)
Definition sleep (secs : Z) : prog unit :=
  r <- trigger (Sleep secs) ;;
  match r with Some e => Raise e | None => Ret tt end.

(** [range (n)] *)
Definition range (n : nat) : list Z := map Z.of_nat (seq 0 n).

(* ================================================================= *)
(** ** The class [TimeChecker] *)

(** The attributes set once in [__init__]; [warning_active] is mutable and
    lives in the state, [stop_event] is read through [StopIsSet]. *)
Record TimeChecker : Type := mkTimeChecker {
  ntp_servers : list string;
  lock_times : list (string * string)
}.

(** The instance [__init__] builds. *)
Definition init : TimeChecker := {|
  ntp_servers :=
    ["pool.ntp.org"; "time.windows.com"; "time.apple.com"; "time.google.com"];
  lock_times :=
    [("11:00", "13:00"); ("17:00", "19:00"); ("21:00", "23:59");
     ("00:00", "07:00")]
|}.

(** [datetime.strptime (s, "%H:%M")] as a statement. *)
Definition strptime (s : string) : prog datetime :=
  match strptime_HM s with
  | Some d => Ret d
  | None => Raise (Exception "ValueError")
  end.

(** The body of the loop of [is_time_to_lock], lines 96-109. *)
Definition check_window (current_time_str : string)
  (w : string * string) : prog (flow bool) :=
  let '(start_time, end_time) := w in
  current <- strptime current_time_str ;;
  start <- strptime start_time ;;
  end_ <- strptime end_time ;;
  if String.ltb end_time start_time then
    if dt_geb current start || dt_leb current end_ then
      logger INFO (MsgInLockWindow current_time_str start_time end_time) ;;
      Ret (Return true)
    else Ret Next
  else
    if dt_leb start current && dt_leb current end_ then
      logger INFO (MsgInLockWindow current_time_str start_time end_time) ;;
      Ret (Return true)
    else Ret Next.

(** The [try] block of [is_time_to_lock], lines 92-111. *)
Definition is_time_to_lock_try (self : TimeChecker) : prog bool :=
  current_time <- trigger DatetimeNow ;;
  let current_time_str := strftime_HM current_time in
  for_each (lock_times self) (check_window current_time_str) (Ret false).

Definition is_time_to_lock (self : TimeChecker) : prog bool :=
  try_catch (is_time_to_lock_try self)
    (except_Exception (fun e =>
       logger ERROR (MsgLockCheckError e) ;;
       logger ERROR MsgTraceback ;;
       Ret false)).

(** One attempt of [safe_tk_operation], lines 122-126. *)
Definition tk_attempt (operation : tk_call) : prog unit :=
  raising (Tk TkTk) ;;
  raising (Tk TkWithdraw) ;;
  raising (Tk operation) ;;
  raising (Tk TkDestroy).

(** The body of the loop of [safe_tk_operation], lines 121-131. *)
Definition safe_tk_try (operation : tk_call) (max_retries : nat)
  (attempt : Z) : prog (flow bool) :=
  try_catch (tk_attempt operation ;; Ret (Return true))
    (except_Exception (fun e =>
       logger ERROR (MsgTkFailed (attempt + 1) (Z.of_nat max_retries) e) ;;
       (if attempt =? Z.of_nat max_retries - 1
        then logger ERROR MsgTkAllFailed else Ret tt) ;;
       sleep 1 ;;
       Ret Next)).

(** [safe_tk_operation]; the value returned is whether the operation was
    carried out (the source returns its result, or [None]). *)
Definition safe_tk_operation (operation : tk_call) : prog bool :=
  let max_retries := 3%nat in
  for_each (range max_retries) (safe_tk_try operation max_retries)
    (Ret false).

(** The body of the loop of [get_network_time], lines 137-144.  The
    DEBUG line is logged once the whole block has succeeded (the source
    logs it between the request and the conversion). *)
Definition try_server (server : string) : prog (flow (option datetime)) :=
  try_catch
    (response <- trigger (NtpRequest server 5) ;;
     match response with
     | inl e => Raise (Exception e)
     | inr tx_time =>
         logger DEBUG (MsgNtpOk server) ;;
         Ret (Return (Some tx_time))
     end)
    (except_Exception (fun e =>
       logger WARNING (MsgNtpFailed server e) ;;
       Ret Next)).

Definition get_network_time (self : TimeChecker) : prog (option datetime) :=
  for_each (ntp_servers self) try_server (Ret None).

Definition lock_windows : prog unit :=
  try_catch
    (logger INFO MsgLocking ;;
     raising LockWorkStation ;;
     trigger (SetWarningActive false))
    (except_Exception (fun e =>
       logger ERROR (MsgLockFailed e) ;;
       logger ERROR MsgTraceback)).

Definition show_countdown_warning (remaining_minutes : Z) (r : reason)
  : prog unit :=
  safe_tk_operation (TkShowWarning remaining_minutes r) ;; Ret tt.

Definition show_normal_message : prog unit :=
  safe_tk_operation TkShowInfo ;; Ret tt.

Definition time_lock_countdown : prog unit :=
  try_catch
    (logger INFO MsgScheduleCountdownStart ;;
     sleep 60 ;;
     stopped <- trigger StopIsSet ;;
     if negb stopped then lock_windows else Ret tt)
    (except_Exception (fun e =>
       logger ERROR (MsgScheduleCountdownError e) ;;
       logger ERROR MsgTraceback)).

(** The [with suppress(Exception)] block of [countdown_check],
    lines 200-214. *)
Definition resync_sample (self : TimeChecker) : prog (flow unit) :=
  suppress_Exception
    (network_time <- get_network_time self ;;
     match network_time with
     | Some network_time =>
         local_time <- trigger DatetimeNow ;;
         let time_diff := time_diff network_time local_time in
         logger INFO (MsgSampleLocal local_time) ;;
         logger INFO (MsgSampleNetwork network_time) ;;
         logger INFO (MsgSampleDiff time_diff) ;;
         if diff_le_5 time_diff then
           logger INFO MsgResynced ;;
           trigger (SetWarningActive false) ;;
           show_normal_message ;;
           Ret (Return tt)
         else Ret Next
     | None => Ret Next
     end).

(** The body of the loop of [countdown_check], lines 197-218. *)
Definition countdown_sample (self : TimeChecker) (i : Z) : prog (flow unit) :=
  stopped <- trigger StopIsSet ;;
  if stopped then Ret (Return tt)
  else
    r <- resync_sample self ;;
    match r with
    | Return tt => Ret (Return tt)
    | Next =>
        let remaining := (5 - (inject_Z (i + 1) * 10 / 60))%Q in
        logger INFO (MsgRemaining remaining) ;;
        sleep 10 ;;
        Ret Next
    end.

Definition countdown_check (self : TimeChecker) : prog unit :=
  try_catch
    (let total_checks := 30%nat in
     for_each (range total_checks) (countdown_sample self)
       (stopped <- trigger StopIsSet ;;
        if negb stopped then lock_windows else Ret tt))
    (except_Exception (fun e =>
       logger ERROR (MsgCountdownError e) ;;
       logger ERROR MsgTraceback)).

(** The four statements that enter a warning cycle (lines 233-236,
    246-249 and 259-262).  The attribute [countdown_thread] they also set
    is read by [cleanup] only and is not modelled. *)
Definition start_warning (remaining_minutes : Z) (r : reason)
  (countdown : task) : prog unit :=
  trigger (SetWarningActive true) ;;
  trigger (ThreadStart (ShowCountdownWarning remaining_minutes r)) ;;
  trigger (ThreadStart countdown).

(** How the [try] block of a cycle of [check_time] ends: with [continue],
    or at its end, before [time.sleep (300)]. *)
Inductive cycle_end : Type := Continue | FallThrough.

(** The [try] block of the loop of [check_time], lines 230-262. *)
Definition check_time_try (self : TimeChecker) : prog cycle_end :=
  in_window <- is_time_to_lock self ;;
  if in_window then
    warning_active <- trigger GetWarningActive ;;
    (if negb warning_active
     then start_warning 1 PeriodLock TimeLockCountdown
     else Ret tt) ;;
    sleep 60 ;;
    Ret Continue
  else
    network_time <- get_network_time self ;;
    match network_time with
    | None =>
        logger WARNING MsgNoNetworkTime ;;
        warning_active <- trigger GetWarningActive ;;
        (if negb warning_active
         then start_warning 5 TimeSync CountdownCheck
         else Ret tt) ;;
        Ret FallThrough
    | Some network_time =>
        local_time <- trigger DatetimeNow ;;
        let time_diff := time_diff network_time local_time in
        logger INFO (MsgLocal local_time) ;;
        logger INFO (MsgNetwork network_time) ;;
        logger INFO (MsgDiff time_diff) ;;
        (if diff_gt_5 time_diff then
           warning_active <- trigger GetWarningActive ;;
           if negb warning_active
           then start_warning 5 TimeSync CountdownCheck
           else Ret tt
         else Ret tt) ;;
        Ret FallThrough
    end.

(** One turn of the loop of [check_time], lines 229-269. *)
Definition check_time_cycle (self : TimeChecker) : prog unit :=
  r <- try_catch (check_time_try self)
         (except_Exception (fun e =>
            logger ERROR (MsgCheckError e) ;;
            logger ERROR MsgTraceback ;;
            Ret FallThrough)) ;;
  match r with
  | Continue => Ret tt
  | FallThrough => sleep 300
  end.

(** [check_time]: the [while] loop, unrolled at most [fuel] times. *)
Fixpoint check_time (self : TimeChecker) (fuel : nat) : prog unit :=
  match fuel with
  | O => Fuel
  | S fuel' =>
      stopped <- trigger StopIsSet ;;
      if negb stopped
      then check_time_cycle self ;; check_time self fuel'
      else Ret tt
  end.

(** The two [except] clauses of [run], lines 277-284. *)
Definition run_handlers : exn -> option (prog unit) :=
  fun e =>
    match e with
    | KeyboardInterrupt => Some (logger INFO MsgKeyboardInterrupt)
    | Exception msg =>
        Some (logger ERROR (MsgMainLoopError msg) ;;
              logger ERROR MsgTraceback ;;
              sleep 10)
    | SystemExit _ => None
    end.

(** The [while True] loop of [run], unrolled at most [fuel] times; each
    call of [check_time] may take [cycles] turns. *)
Fixpoint run_loop (self : TimeChecker) (cycles fuel : nat) : prog unit :=
  match fuel with
  | O => Fuel
  | S fuel' =>
      try_catch (check_time self cycles) run_handlers ;;
      run_loop self cycles fuel'
  end.

Definition run (self : TimeChecker) (cycles fuel : nat) : prog unit :=
  logger INFO MsgStarted ;;
  run_loop self cycles fuel.

(** The thread body of each [Thread] target. *)
Definition task_body (self : TimeChecker) (t : task) : prog unit :=
  match t with
  | ShowCountdownWarning remaining_minutes r =>
      show_countdown_warning remaining_minutes r
  | TimeLockCountdown => time_lock_countdown
  | CountdownCheck => countdown_check self
  end.

(* ================================================================= *)
(** ** Running a program in a world *)

(** [interp] runs one thread on its own.  The world gives what the
    outside answers, as functions of the virtual time in seconds: the time
    at which the thread starts plus its completed sleeps.  The stop signal
    is set from outside the methods modelled here ([cleanup]), so it is
    read from the world; the warning flag is part of the state, and only
    the running thread writes it. *)
Record World : Type := mkWorld {
  local_clock : Z -> datetime;                    (* [datetime.now ()] *)
  ntp_reply : Z -> string -> string + datetime;   (* see [NtpRequest] *)
  stop_event : Z -> bool;                         (* [stop_event.is_set ()] *)
  lock_workstation : Z -> option string;          (* the OS lock call *)
  tk_reply : Z -> tk_call -> option string;
  sleep_interrupt : Z -> Z -> option exn          (* main thread only *)
}.

(** What a run leaves to be observed, in order. *)
Inductive obs : Type :=
| ONtp (at_ : Z) (server : string) (timeout : Z)
| OLock (at_ : Z)
| OTk (at_ : Z) (c : tk_call)
| OSleep (at_ : Z) (secs : Z)
| OLog (l : level) (m : log_msg)
| OStart (at_ : Z) (t : task).

Record State : Type := mkState {
  clock : Z;
  warning_active : bool;
  main_thread : bool;
  trace : list obs
}.

Definition emit (o : obs) (s : State) : State :=
  mkState (clock s) (warning_active s) (main_thread s) (trace s ++ [o]).

Definition set_warning_active (b : bool) (s : State) : State :=
  mkState (clock s) b (main_thread s) (trace s).

Definition advance (secs : Z) (s : State) : State :=
  mkState (clock s + secs) (warning_active s) (main_thread s) (trace s).

(** Python runs signal handlers in the main thread only: a sleep in
    another thread always completes. *)
Definition handle (w : World) {X : Type} (ev : event X) (s : State)
  : X * State :=
  match ev in event X return X * State with
  | DatetimeNow => (local_clock w (clock s), s)
  | StopIsSet => (stop_event w (clock s), s)
  | GetWarningActive => (warning_active s, s)
  | SetWarningActive b => (tt, set_warning_active b s)
  | NtpRequest server timeout =>
      (ntp_reply w (clock s) server, emit (ONtp (clock s) server timeout) s)
  | LockWorkStation => (lock_workstation w (clock s), emit (OLock (clock s)) s)
  | Tk c => (tk_reply w (clock s) c, emit (OTk (clock s) c) s)
  | Sleep secs =>
      let s' := emit (OSleep (clock s) secs) s in
      match (if main_thread s then sleep_interrupt w (clock s) secs else None)
      with
      | Some e => (Some e, s')
      | None => (None, advance secs s')
      end
  | Log l m => (tt, emit (OLog l m) s)
  | ThreadStart t => (tt, emit (OStart (clock s) t) s)
  end.

Inductive outcome (A : Type) : Type :=
| Returned (a : A)
| Raised (e : exn)
| OutOfFuel.

Arguments Returned {A} a.
Arguments Raised {A} e.
Arguments OutOfFuel {A}.

Fixpoint interp (w : World) {A : Type} (p : prog A) (s : State)
  : outcome A * State :=
  match p with
  | Ret a => (Returned a, s)
  | Raise e => (Raised e, s)
  | Vis ev k => let '(x, s') := handle w ev s in interp w (k x) s'
  | Fuel => (OutOfFuel, s)
  end.

(* ================================================================= *)
(** ** The threads together *)

(** The main thread and the threads it has started run interleaved, one
    event at a time; they share the warning flag.  The outside may answer
    an event in any way, except that a sleep outside the main thread is
    not interrupted. *)

Module Threads.

Record Pool : Type := mkPool {
  flag : bool;                  (* [self.warning_active] *)
  main : prog unit;             (* what the main thread has left to do *)
  threads : list (prog unit)    (* the same for each started thread *)
}.

(** The answers a thread can get, the flag apart. *)
Definition possible (in_main : bool) {X : Type} (ev : event X) : X -> Prop :=
  match ev in event X return X -> Prop with
  | Sleep _ => fun x => in_main = false -> x = None
  | _ => fun _ => True
  end.

(** The answers it can get when the flag is [b]. *)
Definition allowed (in_main b : bool) {X : Type} (ev : event X) : X -> Prop :=
  match ev in event X return X -> Prop with
  | GetWarningActive => fun x => x = b
  | Sleep _ => fun x => in_main = false -> x = None
  | _ => fun _ => True
  end.

(** The flag after an event, and the threads it starts. *)
Definition flag_after (b : bool) {X : Type} (ev : event X) : bool :=
  match ev with
  | SetWarningActive b' => b'
  | _ => b
  end.

Definition started_by {X : Type} (ev : event X) : list task :=
  match ev with
  | ThreadStart t => [t]
  | _ => []
  end.

Section Steps.

Variable self : TimeChecker.

Inductive step : Pool -> Pool -> Prop :=
| step_main (b : bool) {X : Type} (ev : event X) (k : X -> prog unit)
    (x : X) (ths : list (prog unit)) :
    allowed true b ev x ->
    step (mkPool b (Vis ev k) ths)
         (mkPool (flag_after b ev) (k x)
                 (ths ++ map (task_body self) (started_by ev)))
| step_thread (b : bool) (m : prog unit) {X : Type} (ev : event X)
    (k : X -> prog unit) (x : X) (before after : list (prog unit)) :
    allowed false b ev x ->
    step (mkPool b m (before ++ Vis ev k :: after))
         (mkPool (flag_after b ev) m
                 (before ++ k x :: after ++
                  map (task_body self) (started_by ev))).

Inductive reachable (start : Pool) : Pool -> Prop :=
| reachable_start : reachable start start
| reachable_step (p q : Pool) :
    reachable start p -> step p q -> reachable start q.

(** The process at its start: the main thread about to execute [run], no
    warning active, no other thread. *)
Definition boot (cycles fuel : nat) : Pool :=
  mkPool false (run self cycles fuel) [].

End Steps.

(** A thread is still counting down when some sequence of answers leads
    it to call the OS lock or to write the warning flag. *)
Inductive counting_down : prog unit -> Prop :=
| counting_lock (k : option string -> prog unit) :
    counting_down (Vis LockWorkStation k)
| counting_flag (b : bool) (k : unit -> prog unit) :
    counting_down (Vis (SetWarningActive b) k)
| counting_later {X : Type} (ev : event X) (k : X -> prog unit) (x : X) :
    possible false ev x -> counting_down (k x) -> counting_down (Vis ev k).

(* ----------------------------------------------------------------- *)
(** *** What each thread may do next *)

(** The main thread does not know the flag ([Unknown]), has read it
    [False] ([SawFalse]), or has set it and not yet started the countdown
    ([Armed]).  A started thread may still lock and reset the flag
    ([Pending]) or does neither any more ([Spent]). *)
Inductive phase : Type := Unknown | SawFalse | Armed | Pending | Spent.

Definition main_phase (ph : phase) : Prop :=
  ph = Unknown \/ ph = SawFalse \/ ph = Armed.

Definition thread_phase (ph : phase) : Prop := ph = Pending \/ ph = Spent.

(** The phase after an event, [None] when the phase does not allow the
    event. *)
Definition next_phase (ph : phase) {X : Type} (ev : event X)
  : X -> option phase :=
  match ev in event X return X -> option phase with
  | GetWarningActive => fun x =>
      match ph with
      | Unknown | SawFalse | Armed => Some (if x then Unknown else SawFalse)
      | _ => None
      end
  | SetWarningActive b => fun _ =>
      match ph, b with
      | SawFalse, true => Some Armed
      | Pending, false => Some Spent
      | _, _ => None
      end
  | ThreadStart t => fun _ =>
      match t with
      | ShowCountdownWarning _ _ => Some ph
      | _ => match ph with Armed => Some Unknown | _ => None end
      end
  | LockWorkStation => fun _ =>
      match ph with Pending => Some Pending | _ => None end
  | _ => fun _ => Some ph
  end.

(** [p], started in phase [ph], only performs events its phase allows,
    and ends in a phase that satisfies [Q] (when it returns) or [QE]
    (when it raises). *)
Fixpoint follows (in_main : bool) {A : Type} (p : prog A) (ph : phase)
  (Q : A -> phase -> Prop) (QE : exn -> phase -> Prop) : Prop :=
  match p with
  | Ret a => Q a ph
  | Raise e => QE e ph
  | Vis ev k =>
      forall x, possible in_main ev x ->
        exists ph', next_phase ph ev x = Some ph' /\
                    follows in_main (k x) ph' Q QE
  | Fuel => True
  end.

Definition conforms (in_main : bool) (ph : phase) (p : prog unit) : Prop :=
  follows in_main p ph (fun _ _ => True) (fun _ _ => True).

(* ----------------------------------------------------------------- *)
(** *** Programs that leave the phase alone, and the invariant *)

Definition harmless_event {X : Type} (ev : event X) : Prop :=
  match ev with
  | GetWarningActive | SetWarningActive _ | LockWorkStation | ThreadStart _ =>
      False
  | _ => True
  end.

(** Classes of exceptions. *)
Definition never : exn -> Prop := fun _ => False.

Definition is_Exception : exn -> Prop := fun e => exists msg, e = Exception msg.

Definition any : exn -> Prop := fun _ => True.

(** [p] performs harmless events only and raises exceptions in [E]
    only. *)
Definition neutral (in_main : bool) (E : exn -> Prop) {A : Type}
  (p : prog A) : Prop :=
  forall ph,
    follows in_main p ph (fun _ ph' => ph' = ph) (fun e ph' => ph' = ph /\ E e).

Definition phase_eq_dec (a b : phase) : {a = b} + {a <> b}.
Proof. decide equality. Defined.

Definition pending (phs : list phase) : nat :=
  count_occ phase_eq_dec phs Pending.

Definition phase_of_task (t : task) : phase :=
  match t with ShowCountdownWarning _ _ => Spent | _ => Pending end.

Definition thread_ok (ph : phase) (p : prog unit) : Prop :=
  thread_phase ph /\ conforms false ph p.

(** Phases can be given to the threads so that each thread conforms to
    its phase, at most one started thread is pending, and a pending
    thread finds the flag [True] and the main thread outside the entry
    into a warning cycle. *)
Definition invariant (P : Pool) : Prop :=
  exists mph phs,
    main_phase mph /\ conforms true mph (main P) /\
    Forall2 thread_ok phs (threads P) /\
    (pending phs <= 1)%nat /\
    (In Pending phs -> flag P = true /\ mph = Unknown) /\
    (mph = Armed -> flag P = true).

End Threads.

(* ================================================================= *)
(** ** Notions the statements use *)

(** ["HH:MM"] for an hour and a minute. *)
Definition hhmm (hm : Z * Z) : string :=
  two_digits (fst hm) (String ":" (two_digits (snd hm) "")).

Definition valid_hm (hm : Z * Z) : Prop :=
  0 <= fst hm < 24 /\ 0 <= snd hm < 60.

(** Minutes since midnight. *)
Definition minutes (hm : Z * Z) : Z := fst hm * 60 + snd hm.

Definition hm_of (d : datetime) : Z * Z := (hour d, minute d).

(** [tr] appended to the trace. *)
Definition emits (tr : list obs) (s : State) : State :=
  mkState (clock s) (warning_active s) (main_thread s) (trace s ++ tr).

(** The times of the calls of the OS lock, and the threads started. *)
Fixpoint lock_calls (tr : list obs) : list Z :=
  match tr with
  | [] => []
  | OLock at_ :: tr' => at_ :: lock_calls tr'
  | _ :: tr' => lock_calls tr'
  end.

Fixpoint starts (tr : list obs) : list task :=
  match tr with
  | [] => []
  | OStart _ t :: tr' => t :: starts tr'
  | _ :: tr' => starts tr'
  end.

(** The sleeps of a trace: when, and for how long. *)
Fixpoint sleeps (tr : list obs) : list (Z * Z) :=
  match tr with
  | [] => []
  | OSleep at_ secs :: tr' => (at_, secs) :: sleeps tr'
  | _ :: tr' => sleeps tr'
  end.

(** [st'] comes after [st] by steps that neither lock, nor start a
    thread, nor write the warning flag. *)
Definition quiet (st st' : State) : Prop :=
  warning_active st' = warning_active st /\
  main_thread st' = main_thread st /\
  exists tr,
    trace st' = trace st ++ tr /\ lock_calls tr = [] /\ starts tr = [].

(** A window of the specification: start and end as (hour, minute). *)
Definition window : Type := ((Z * Z) * (Z * Z))%type.

Definition valid_window (win : window) : Prop :=
  valid_hm (fst win) /\ valid_hm (snd win).

(** The configuration strings of a window, in the form ["HH:MM"]. *)
Definition window_strings (win : window) : string * string :=
  (hhmm (fst win), hhmm (snd win)).

(** The specification of "inside": between the bounds, both included, when
    the start is not after the end; from the start on or up to the end
    when the window wraps around midnight. *)
Definition inside (t : Z * Z) (win : window) : bool :=
  let '(s, e) := win in
  if minutes s <=? minutes e
  then (minutes s <=? minutes t) && (minutes t <=? minutes e)
  else (minutes s <=? minutes t) || (minutes t <=? minutes e).

(** The line the evaluator logs when it returns [True] for a window. *)
Definition match_log (t : Z * Z) (win : window) : obs :=
  OLog INFO (MsgInLockWindow (hhmm t) (hhmm (fst win)) (hhmm (snd win))).

(** The trace of an attempt of [safe_tk_operation] in which no call into
    Tk fails. *)
Definition shown (now : Z) (operation : tk_call) : list obs :=
  [OTk now TkTk; OTk now TkWithdraw; OTk now operation; OTk now TkDestroy].

(** The state after the statements that enter a warning cycle. *)
Definition started (remaining_minutes : Z) (r : reason) (countdown : task)
  (st : State) : State :=
  emits [OStart (clock st) (ShowCountdownWarning remaining_minutes r);
         OStart (clock st) countdown]
    (set_warning_active true st).

(** Five minutes, in microseconds. *)
Definition five_minutes : Z := 5 * 60 * 1000000.

Section Notions.

Variable w : World.
Variable self : TimeChecker.

(** The answer of the first server of the list that answers at time
    [now]. *)
Fixpoint first_reply (now : Z) (servers : list string) : option datetime :=
  match servers with
  | [] => None
  | server :: servers' =>
      match ntp_reply w now server with
      | inr tx_time => Some tx_time
      | inl _ => first_reply now servers'
      end
  end.

(** What a failed and a successful query leave in the trace. *)
Definition failed_query (now : Z) (server : string) : list obs :=
  [ONtp now server 5;
   OLog WARNING
     (MsgNtpFailed server
        match ntp_reply w now server with inl e => e | inr _ => "" end)].

Definition answered_query (now : Z) (server : string) : list obs :=
  [ONtp now server 5; OLog DEBUG (MsgNtpOk server)].

(** The trace of [get_network_time]: queries up to the first answer. *)
Fixpoint queries (now : Z) (servers : list string) : list obs :=
  match servers with
  | [] => []
  | server :: servers' =>
      match ntp_reply w now server with
      | inr _ => answered_query now server
      | inl _ => failed_query now server ++ queries now servers'
      end
  end.

Definition fails (now : Z) (server : string) : Prop :=
  exists e, ntp_reply w now server = inl e.

(** The state [lock_windows] ends in. *)
Definition locked (st : State) : State :=
  let now := clock st in
  match lock_workstation w now with
  | None =>
      set_warning_active false (emits [OLog INFO MsgLocking; OLock now] st)
  | Some e =>
      emits [OLog INFO MsgLocking; OLock now;
             OLog ERROR (MsgLockFailed e); OLog ERROR MsgTraceback] st
  end.

Definition tk_works (now : Z) : Prop := forall c, tk_reply w now c = None.

(** The drift sample the countdown takes at time [now]: the first answer
    of the servers, if any, against the local clock. *)
Definition drift_at (now : Z) : option Q :=
  match first_reply now (ntp_servers self) with
  | Some network_time => Some (time_diff network_time (local_clock w now))
  | None => None
  end.

(** The sample does not cancel: the servers are unavailable or the
    difference exceeds 5 minutes. *)
Definition out_of_sync (now : Z) : bool :=
  match drift_at now with
  | Some d => diff_gt_5 d
  | None => true
  end.

(** What a sample logs after its queries when a server answered. *)
Definition sample_logs (now : Z) : list obs :=
  match first_reply now (ntp_servers self) with
  | Some network_time =>
      [OLog INFO (MsgSampleLocal (local_clock w now));
       OLog INFO (MsgSampleNetwork network_time);
       OLog INFO (MsgSampleDiff (time_diff network_time (local_clock w now)))]
  | None => []
  end.

(** The trace of turn [i] of the countdown at time [now] when the sample
    is bad. *)
Definition bad_sample_trace (now i : Z) : list obs :=
  queries now (ntp_servers self) ++ sample_logs now ++
  [OLog INFO (MsgRemaining (5 - (inject_Z (i + 1) * 10 / 60))%Q);
   OSleep now 10].

(** The trace of the turns [turns] of the countdown, started at [now], when
    every sample is bad. *)
Fixpoint bad_samples_trace (now : Z) (turns : list Z) : list obs :=
  match turns with
  | [] => []
  | i :: turns' => bad_sample_trace now i ++ bad_samples_trace (now + 10) turns'
  end.

(** What a drift check logs after its queries. *)
Definition check_logs (now : Z) : list obs :=
  match first_reply now (ntp_servers self) with
  | Some network_time =>
      [OLog INFO (MsgLocal (local_clock w now));
       OLog INFO (MsgNetwork network_time);
       OLog INFO (MsgDiff (time_diff network_time (local_clock w now)))]
  | None => [OLog WARNING MsgNoNetworkTime]
  end.

(** The state a cycle reaches at the end of its [try] block when the
    schedule evaluator has answered [False] in state [st1]. *)
Definition drift_checked (st1 : State) : State :=
  let now := clock st1 in
  let st2 := emits (queries now (ntp_servers self) ++ check_logs now) st1 in
  if out_of_sync now && negb (warning_active st1)
  then started 5 TimeSync CountdownCheck st2
  else st2.

End Notions.

(* ================================================================= *)
(** ** Worlds and states the theorems are applied to *)

(** The windows configured in [__init__], as hours and minutes. *)
Definition init_windows : list window :=
  [((11, 0), (13, 0)); ((17, 0), (19, 0)); ((21, 0), (23, 59));
   ((0, 0), (7, 0))].

(** The local clock reads [h]:[m]; no server answers; nothing else
    fails and the stop signal is never set. *)
Definition clock_at (h m : Z) : World :=
  mkWorld (fun _ => mkDatetime 739000 h m 17 250000)
    (fun _ _ => inl "timed out") (fun _ => false) (fun _ => None)
    (fun _ _ => None) (fun _ _ => None).

(** The first two configured servers time out, the third answers. *)
Definition third_server_answers : World :=
  mkWorld (fun _ => mkDatetime 739000 14 30 0 0)
    (fun _ server =>
       if String.eqb server "time.apple.com"
       then inr (mkDatetime 739000 14 31 0 0)
       else inl "timed out")
    (fun _ => false) (fun _ => None) (fun _ _ => None) (fun _ _ => None).

(** No server answers, and nothing else fails. *)
Definition sources_down : World := clock_at 14 30.

(** The state of a thread started while the warning is active. *)
Definition thread_start : State := mkState 0 true false [].

(** The state of the main thread before a warning. *)
Definition main_idle : State := mkState 0 false true [].

(** The servers answer, with the local time, from second 20 on. *)
Definition sources_back_at_20 : World :=
  mkWorld (fun _ => mkDatetime 739000 14 30 0 0)
    (fun now _ =>
       if now <? 20 then inl "timed out"
       else inr (mkDatetime 739000 14 30 0 0))
    (fun _ => false) (fun _ => None) (fun _ _ => None) (fun _ _ => None).

(** The first server answers 10 minutes ahead of the local clock. *)
Definition ten_minutes_ahead : World :=
  mkWorld (fun _ => mkDatetime 739000 14 30 0 0)
    (fun _ _ => inr (mkDatetime 739000 14 40 0 0))
    (fun _ => false) (fun _ => None) (fun _ _ => None) (fun _ _ => None).

(** The first sleep of 300 seconds is interrupted by an exception of
    class [Exception]. *)
Definition interrupted_once : World :=
  mkWorld (fun _ => mkDatetime 739000 14 30 0 0)
    (fun _ _ => inr (mkDatetime 739000 14 30 0 0))
    (fun _ => false) (fun _ => None) (fun _ _ => None)
    (fun now secs =>
       if (now =? 0) && (secs =? 300) then Some (Exception "interrupted")
       else None).

(** On this platform the OS lock call raises. *)
Definition lock_raises : World :=
  mkWorld (fun _ => mkDatetime 739000 21 30 0 0)
    (fun _ _ => inr (mkDatetime 739000 21 30 0 0))
    (fun _ => false) (fun _ => Some "module 'ctypes' has no attribute 'windll'")
    (fun _ _ => None) (fun _ _ => None).

(* ================================================================= *)
(** ** What a method does not do *)

(** Every event of [p], whatever the answers, satisfies [ok]. *)
Fixpoint uses_only (ok : forall X : Type, event X -> bool) {A : Type}
  (p : prog A) : Prop :=
  match p with
  | Vis ev k => ok _ ev = true /\ forall x, uses_only ok (k x)
  | _ => True
  end.

(** The events of the main loop: all but the OS lock. *)
Definition no_lock (X : Type) (ev : event X) : bool :=
  match ev with
  | LockWorkStation => false
  | _ => true
  end.

(** The events of the started threads: they start no thread and never
    set the warning flag to [True]. *)
Definition no_start_no_arm (X : Type) (ev : event X) : bool :=
  match ev with
  | ThreadStart _ => false
  | SetWarningActive b => negb b
  | _ => true
  end.

(** The events of the schedule evaluator and of the time source client:
    the clock, the servers and the logger. *)
Definition reads_and_logs (X : Type) (ev : event X) : bool :=
  match ev with
  | DatetimeNow | NtpRequest _ _ | Log _ _ => true
  | _ => false
  end.

(** The queries of a trace, and its log lines. *)
Fixpoint ntp_queries (tr : list obs) : list (Z * string) :=
  match tr with
  | [] => []
  | ONtp at_ server _ :: tr' => (at_, server) :: ntp_queries tr'
  | _ :: tr' => ntp_queries tr'
  end.

Fixpoint logs (tr : list obs) : list (level * log_msg) :=
  match tr with
  | [] => []
  | OLog l m :: tr' => (l, m) :: logs tr'
  | _ :: tr' => logs tr'
  end.

(** The times at which the call [c] into Tk was made. *)
Fixpoint tk_calls_of (c : tk_call -> bool) (tr : list obs) : list Z :=
  match tr with
  | [] => []
  | OTk at_ c' :: tr' =>
      if c c' then at_ :: tk_calls_of c tr' else tk_calls_of c tr'
  | _ :: tr' => tk_calls_of c tr'
  end.

(** The events of the schedule evaluator alone: the clock and the
    logger. *)
Definition clock_and_log (X : Type) (ev : event X) : bool :=
  match ev with
  | DatetimeNow | Log _ _ => true
  | _ => false
  end.

(** No server answers, and the stop signal is set from second 25 on. *)
Definition stopped_at_25 : World :=
  mkWorld (fun _ => mkDatetime 739000 14 30 0 0)
    (fun _ _ => inl "timed out") (fun now => 25 <=? now) (fun _ => None)
    (fun _ _ => None) (fun _ _ => None).

(* ================================================================= *)
(** ** Attempts of [safe_tk_operation] *)

(** The calls into Tk of one attempt, in order. *)
Definition attempt_calls (operation : tk_call) : list tk_call :=
  [TkTk; TkWithdraw; operation; TkDestroy].

(** The message boxes among the calls into Tk. *)
Definition is_dialog (c : tk_call) : bool :=
  match c with
  | TkShowWarning _ _ | TkShowInfo => true
  | _ => false
  end.

Section Attempts.

Variable w : World.

(** The calls made at time [now] out of [calls], up to the first that
    raises, and the message of that exception. *)
Fixpoint tk_sequence (now : Z) (calls : list tk_call)
  : list obs * option string :=
  match calls with
  | [] => ([], None)
  | c :: calls' =>
      match tk_reply w now c with
      | Some e => ([OTk now c], Some e)
      | None =>
          let '(tr, r) := tk_sequence now calls' in (OTk now c :: tr, r)
      end
  end.

Definition attempt_trace (now : Z) (operation : tk_call) : list obs :=
  fst (tk_sequence now (attempt_calls operation)).

Definition attempt_error (now : Z) (operation : tk_call) : option string :=
  snd (tk_sequence now (attempt_calls operation)).

(** What a failed attempt leaves in the trace: its calls, the error line,
    after the last attempt the line that gives up, and the sleep. *)
Definition failed_attempt (now : Z) (operation : tk_call) (attempt : Z)
  (e : string) : list obs :=
  attempt_trace now operation ++
  [OLog ERROR (MsgTkFailed (attempt + 1) 3 e)] ++
  (if attempt =? 2 then [OLog ERROR MsgTkAllFailed] else []) ++
  [OSleep now 1].

End Attempts.

(** Tk cannot be started (no display): every call of [tk.Tk ()]
    raises. *)
Definition no_display : World :=
  mkWorld (fun _ => mkDatetime 739000 14 30 0 0)
    (fun _ _ => inl "timed out") (fun _ => false) (fun _ => None)
    (fun _ c => match c with TkTk => Some "no display" | _ => None end)
    (fun _ _ => None).

(** Tk starts from second 1 on. *)
Definition display_at_1 : World :=
  mkWorld (fun _ => mkDatetime 739000 14 30 0 0)
    (fun _ _ => inl "timed out") (fun _ => false) (fun _ => None)
    (fun now c =>
       match c with
       | TkTk => if now <? 1 then Some "no display" else None
       | _ => None
       end)
    (fun _ _ => None).

(** [root.destroy ()] raises every time. *)
Definition destroy_fails : World :=
  mkWorld (fun _ => mkDatetime 739000 14 30 0 0)
    (fun _ _ => inl "timed out") (fun _ => false) (fun _ => None)
    (fun _ c => match c with TkDestroy => Some "destroy failed" | _ => None end)
    (fun _ _ => None).

(* ================================================================= *)
(** ** Interrupted sleeps *)

(** [st'] is the state in which a sleep of [secs] seconds of the main
    thread has just been interrupted by [e]: a signal handler that
    raises. *)
Definition interrupted (w : World) (secs : Z) (e : exn) (st' : State)
  : Prop :=
  main_thread st' = true /\
  sleep_interrupt w (clock st') secs = Some e /\
  exists tr, trace st' = tr ++ [OSleep (clock st') secs].

(** The first sleep of 300 seconds is interrupted by [sys.exit (0)]; no
    server answers. *)
Definition terminated_at_0 : World :=
  mkWorld (fun _ => mkDatetime 739000 14 30 0 0)
    (fun _ _ => inl "timed out") (fun _ => false) (fun _ => None)
    (fun _ _ => None)
    (fun now secs =>
       if (now =? 0) && (secs =? 300) then Some (SystemExit 0) else None).

(* ================================================================= *)
(** ** Configurations other than the one of [__init__] *)

(** The events of the evaluator once it has read the clock. *)
Definition log_only (X : Type) (ev : event X) : bool :=
  match ev with
  | Log _ _ => true
  | _ => false
  end.

(** A [TimeChecker] whose [lock_times] have been replaced. *)
Definition scheduled (lock_times : list (string * string)) : TimeChecker :=
  {| ntp_servers := ntp_servers init; lock_times := lock_times |}.

(** What the evaluator logs when [strptime] raises. *)
Definition value_error_logs : list obs :=
  [OLog ERROR (MsgLockCheckError "ValueError"); OLog ERROR MsgTraceback].

(** The minutes of the day at which a window of [__init__] is open. *)
Definition in_init_schedule (m : Z) : Prop :=
  m <= 420 \/ 660 <= m <= 780 \/ 1020 <= m <= 1140 \/ 1260 <= m.

(** The last microsecond of 07:00, on another day. *)
Definition end_of_0700 : World :=
  mkWorld (fun _ => mkDatetime 739001 7 0 59 999999)
    (fun _ _ => inl "timed out") (fun _ => false) (fun _ => None)
    (fun _ _ => None) (fun _ _ => None).

(** In a lock window, the 60-second sleep of the first turn is interrupted
    by an exception of class [Exception]. *)
Definition window_sleep_fails : World :=
  mkWorld (fun _ => mkDatetime 739000 21 30 0 0)
    (fun _ _ => inl "timed out") (fun _ => false) (fun _ => None)
    (fun _ _ => None)
    (fun now secs =>
       if (now =? 0) && (secs =? 60) then Some (Exception "interrupted")
       else None).

(* ================================================================= *)
(** ** Start-up and shutdown *)

(** [__init__], [setup_signal_handlers], [__del__], [cleanup] and
    [signal_handler] share nothing with the methods above but the stop
    signal, which they set.  They are modelled on their own, as functions
    on the part of the process they read and write that return a value or
    the exception raised.  The calls of the logger do not raise (a
    handler of [logging] reports its own errors and carries on); creating
    the log file in [setup_logging], [signal.signal] and [Thread.join]
    may. *)
Module Lifecycle.

Inductive signum : Type := SIGINT | SIGTERM.

Inductive line : Type :=
| MsgInitialised                     (* line 41 *)
| MsgDestroyed                       (* line 69 *)
| MsgCleanup                         (* line 75 *)
| MsgCleanupError (e : string)       (* line 80 *)
| MsgCleanupTraceback                (* line 81 *)
| MsgSignal (s : signum).            (* line 85 *)

Record Process : Type := mkProcess {
  has_logger : bool;                 (* [setup_logging] has completed *)
  stop_set : bool;                   (* [stop_event.is_set ()] *)
  countdown_thread : option bool;    (* the thread if any: is it alive *)
  at_exit : bool;                    (* [cleanup] is registered *)
  installed : list signum;           (* signals handled by [signal_handler] *)
  joins : list Z;                    (* the timeouts of the calls of [join] *)
  log : list (level * line)
}.

(** What the outside decides: the exception each call raises, if any. *)
Record Outside : Type := mkOutside {
  file_handler_raises : option string;
  signal_raises : signum -> option string;
  join_raises : option string
}.

Definition M (A : Type) : Type := Process -> (exn + A) * Process.

Definition ret {A : Type} (a : A) : M A := fun p => (inr a, p).

Definition raise {A : Type} (e : exn) : M A := fun p => (inl e, p).

Definition seq {A B : Type} (m : M A) (f : A -> M B) : M B :=
  fun p =>
    match m p with
    | (inr a, p') => f a p'
    | (inl e, p') => (inl e, p')
    end.

(** [try: m except Exception as e: h e] *)
Definition try_except {A : Type} (m : M A) (h : string -> M A) : M A :=
  fun p =>
    match m p with
    | (inl (Exception e), p') => h e p'
    | r => r
    end.

(** [with suppress (Exception): m] *)
Definition suppress (m : M unit) : M unit :=
  try_except m (fun _ => ret tt).

Definition logger (l : level) (m : line) : M unit :=
  fun p =>
    (inr tt,
     mkProcess (has_logger p) (stop_set p) (countdown_thread p) (at_exit p)
       (installed p) (joins p) (log p ++ [(l, m)])).

(** [self.stop_event.set ()] *)
Definition stop_event_set : M unit :=
  fun p =>
    (inr tt,
     mkProcess (has_logger p) true (countdown_thread p) (at_exit p)
       (installed p) (joins p) (log p)).

(** [self.countdown_thread and self.countdown_thread.is_alive ()] *)
Definition thread_is_alive : M bool :=
  fun p =>
    (inr match countdown_thread p with Some alive => alive | None => false end,
     p).

(** [self.countdown_thread.join (timeout=timeout)] *)
Definition join (o : Outside) (timeout : Z) : M unit :=
  fun p =>
    let p' :=
      mkProcess (has_logger p) (stop_set p) (countdown_thread p) (at_exit p)
        (installed p) (joins p ++ [timeout]) (log p) in
    match join_raises o with
    | Some e => (inl (Exception e), p')
    | None => (inr tt, p')
    end.

(** [signal.signal (s, self.signal_handler)] *)
Definition signal_signal (o : Outside) (s : signum) : M unit :=
  fun p =>
    match signal_raises o s with
    | Some e => (inl (Exception e), p)
    | None =>
        (inr tt,
         mkProcess (has_logger p) (stop_set p) (countdown_thread p) (at_exit p)
           (installed p ++ [s]) (joins p) (log p))
    end.

(** [setup_logging], lines 43-59: the logger exists once both handlers
    are attached; creating the file handler may raise. *)
Definition setup_logging (o : Outside) : M unit :=
  fun p =>
    match file_handler_raises o with
    | Some e => (inl (Exception e), p)
    | None =>
        (inr tt,
         mkProcess true (stop_set p) (countdown_thread p) (at_exit p)
           (installed p) (joins p) (log p))
    end.

(** Lines 61-65. *)
Definition setup_signal_handlers (o : Outside) : M unit :=
  suppress
    (seq (signal_signal o SIGINT) (fun _ => signal_signal o SIGTERM)).

(** Lines 72-81. *)
Definition cleanup (o : Outside) : M unit :=
  try_except
    (seq (logger INFO MsgCleanup) (fun _ =>
     seq stop_event_set (fun _ =>
     seq thread_is_alive (fun alive =>
     if alive then join o 1 else ret tt))))
    (fun e =>
     seq (logger ERROR (MsgCleanupError e)) (fun _ =>
     logger ERROR MsgCleanupTraceback)).


(** Lines 83-87. *)
Definition signal_handler (o : Outside) (s : signum) : M unit :=
  seq (logger INFO (MsgSignal s)) (fun _ =>
  seq (cleanup o) (fun _ =>
  raise (SystemExit 0))).

(** Lines 19-21 and 38: the fields of a new object, and
    [atexit.register (self.cleanup)]. *)
Definition new_fields : M unit :=
  fun p =>
    (inr tt,
     mkProcess (has_logger p) false None (at_exit p) (installed p) (joins p)
       (log p)).

Definition atexit_register : M unit :=
  fun p =>
    (inr tt,
     mkProcess (has_logger p) (stop_set p) (countdown_thread p) true
       (installed p) (joins p) (log p)).

(** Lines 17-41. *)
Definition __init__ (o : Outside) : M unit :=
  seq (setup_logging o) (fun _ =>
  seq new_fields (fun _ =>
  seq atexit_register (fun _ =>
  seq (setup_signal_handlers o) (fun _ =>
  logger INFO MsgInitialised)))).

(** The process before the object is made. *)
Definition fresh : Process := mkProcess false false None false [] [] [].

(** What [cleanup] appends to the log. *)
Definition cleanup_log (o : Outside) (p : Process) : list (level * line) :=
  (INFO, MsgCleanup) ::
  match countdown_thread p, join_raises o with
  | Some true, Some e =>
      [(ERROR, MsgCleanupError e); (ERROR, MsgCleanupTraceback)]
  | _, _ => []
  end.

(** The timeouts of the calls of [join] that [cleanup] makes. *)
Definition cleanup_joins (p : Process) : list Z :=
  match countdown_thread p with Some true => [1] | _ => [] end.

(** The handlers [setup_signal_handlers] installs. *)
Definition handlers_installed (o : Outside) : list signum :=
  match signal_raises o SIGINT, signal_raises o SIGTERM with
  | Some _, _ => []
  | None, Some _ => [SIGINT]
  | None, None => [SIGINT; SIGTERM]
  end.

End Lifecycle.

(** No call of the start-up and shutdown methods raises. *)
Definition calm : Lifecycle.Outside :=
  Lifecycle.mkOutside None (fun _ => None) None.

(* ================================================================= *)
(** ** How [interp] runs the combinators *)

Section Interp.

Variable w : World.

Lemma interp_bind {A B : Type} (p : prog A) (f : A -> prog B) (s : State) :
  interp w (bind p f) s =
  match interp w p s with
  | (Returned a, s') => interp w (f a) s'
  | (Raised e, s') => (Raised e, s')
  | (OutOfFuel, s') => (OutOfFuel, s')
  end.
Proof.
  revert s; induction p as [a | e | X ev k IH | ]; intro s; simpl;
    try reflexivity.
  destruct (handle w ev s) as [x s']. apply IH.
Qed.

Lemma interp_try_catch {A : Type} (p : prog A) (h : exn -> option (prog A))
  (s : State) :
  interp w (try_catch p h) s =
  match interp w p s with
  | (Raised e, s') =>
      match h e with
      | Some q => interp w q s'
      | None => (Raised e, s')
      end
  | r => r
  end.
Proof.
  revert s; induction p as [a | e | X ev k IH | ]; intro s; simpl;
    try reflexivity.
  - destruct (h e) as [q | ]; [ | reflexivity].
    destruct (interp w q s) as [[ | | ] ?]; reflexivity.
  - destruct (handle w ev s) as [x s']. apply IH.
Qed.

Lemma interp_for_each_cons {X A : Type} (x : X) (xs : list X)
  (body : X -> prog (flow A)) (after : prog A) (s : State) :
  interp w (for_each (x :: xs) body after) s =
  match interp w (body x) s with
  | (Returned (Return a), s') => (Returned a, s')
  | (Returned Next, s') => interp w (for_each xs body after) s'
  | (Raised e, s') => (Raised e, s')
  | (OutOfFuel, s') => (OutOfFuel, s')
  end.
Proof.
  simpl. rewrite interp_bind.
  destruct (interp w (body x) s) as [[[ | a] | e | ] s']; reflexivity.
Qed.

Lemma interp_logger (l : level) (m : log_msg) (s : State) :
  interp w (logger l m) s = (Returned tt, emit (OLog l m) s).
Proof. reflexivity. Qed.

End Interp.

(* ================================================================= *)
(** ** The format ["%H:%M"] on times of day *)

Section HourMinute.

Lemma strftime_hhmm (d : datetime) : strftime_HM d = hhmm (hm_of d).
Proof. reflexivity. Qed.

Lemma digit_cases (d : Z) :
  0 <= d <= 9 ->
  d = 0 \/ d = 1 \/ d = 2 \/ d = 3 \/ d = 4 \/
  d = 5 \/ d = 6 \/ d = 7 \/ d = 8 \/ d = 9.
Proof. lia. Qed.

Ltac each_digit d H :=
  destruct (digit_cases d H) as
    [-> | [-> | [-> | [-> | [-> | [-> | [-> | [-> | [-> | ->]]]]]]]]].

Lemma is_digit_digit_char (d : Z) : 0 <= d <= 9 -> is_digit (digit_char d) = true.
Proof. intro H; each_digit d H; reflexivity. Qed.

Lemma digit_value_digit_char (d : Z) :
  0 <= d <= 9 -> digit_value (digit_char d) = d.
Proof. intro H; each_digit d H; reflexivity. Qed.

Lemma digit_char_not_colon (d : Z) :
  0 <= d <= 9 -> Ascii.eqb (digit_char d) ":" = false.
Proof. intro H; each_digit d H; reflexivity. Qed.

Lemma N_of_digit_char (d : Z) :
  0 <= d <= 9 -> N_of_ascii (digit_char d) = (48 + Z.to_N d)%N.
Proof. intro H; each_digit d H; reflexivity. Qed.

Lemma compare_digit_char (a b : Z) :
  0 <= a <= 9 -> 0 <= b <= 9 ->
  Ascii.compare (digit_char a) (digit_char b) = (a ?= b).
Proof.
  intros Ha Hb. unfold Ascii.compare.
  rewrite !N_of_digit_char by assumption.
  rewrite <- N2Z.inj_compare. rewrite !N2Z.inj_add, !Z2N.id by lia.
  apply Z.add_compare_mono_l.
Qed.

Lemma parse_minute_two_digits (m : Z) :
  0 <= m < 60 -> parse_minute (two_digits m "") = Some m.
Proof.
  intro H. unfold two_digits, parse_minute.
  pose proof (Z.mod_pos_bound m 10). pose proof (Z.div_mod m 10).
  assert (0 <= m / 10 <= 5) by lia.
  assert (0 <= m mod 10 <= 9) by lia.
  rewrite !is_digit_digit_char, !digit_value_digit_char by lia.
  replace (m / 10 <=? 5) with true by (symmetry; apply Z.leb_le; lia).
  simpl. f_equal. lia.
Qed.

Lemma strptime_hhmm (hm : Z * Z) :
  valid_hm hm ->
  strptime_HM (hhmm hm) = Some (mkDatetime ordinal_1900 (fst hm) (snd hm) 0 0).
Proof.
  destruct hm as [h m]; intros [Hh Hm]; simpl in Hh, Hm.
  unfold hhmm, strptime_HM; simpl fst; simpl snd.
  unfold two_digits at 1.
  pose proof (Z.mod_pos_bound h 10). pose proof (Z.div_mod h 10).
  assert (0 <= h / 10 <= 2) by lia.
  assert (0 <= h mod 10 <= 9) by lia.
  rewrite digit_char_not_colon by lia.
  change (Ascii.eqb ":" ":") with true. cbv beta iota.
  unfold two_digit_hour.
  rewrite !is_digit_digit_char, !digit_value_digit_char by lia.
  replace ((h / 10 =? 2) && (h mod 10 <=? 3) || (h / 10 <=? 1)) with true.
  2: { symmetry. apply orb_true_iff.
       destruct (Z.leb_spec (h / 10) 1); [now right | left].
       apply andb_true_iff; split; [apply Z.eqb_eq | apply Z.leb_le]; lia. }
  simpl andb. cbv iota.
  rewrite parse_minute_two_digits by assumption.
  do 2 f_equal. lia.
Qed.

(** On two-digit renderings the order of the strings is the order of the
    times. *)
Lemma compare_hhmm (a b : Z * Z) :
  valid_hm a -> valid_hm b ->
  String.compare (hhmm a) (hhmm b) = (minutes a ?= minutes b).
Proof.
  destruct a as [h1 m1], b as [h2 m2]; intros [Hh1 Hm1] [Hh2 Hm2];
    simpl in Hh1, Hm1, Hh2, Hm2.
  unfold hhmm, minutes, two_digits; simpl fst; simpl snd.
  pose proof (Z.mod_pos_bound h1 10); pose proof (Z.mod_pos_bound h2 10).
  pose proof (Z.mod_pos_bound m1 10); pose proof (Z.mod_pos_bound m2 10).
  pose proof (Z.div_mod h1 10); pose proof (Z.div_mod h2 10).
  pose proof (Z.div_mod m1 10); pose proof (Z.div_mod m2 10).
  assert (0 <= h1 / 10 <= 9) by lia.
  assert (0 <= h2 / 10 <= 9) by lia.
  assert (0 <= m1 / 10 <= 9) by lia.
  assert (0 <= m2 / 10 <= 9) by lia.
  cbn [String.compare].
  rewrite !compare_digit_char by lia.
  change (Ascii.compare ":" ":") with Eq. cbv iota.
  destruct (Z.compare_spec (h1 / 10) (h2 / 10));
  destruct (Z.compare_spec (h1 mod 10) (h2 mod 10));
  destruct (Z.compare_spec (m1 / 10) (m2 / 10));
  destruct (Z.compare_spec (m1 mod 10) (m2 mod 10));
  symmetry;
  first [ apply Z.compare_eq_iff | apply Z.compare_lt_iff | apply Z.compare_gt_iff ];
  lia.
Qed.

Lemma ltb_hhmm (a b : Z * Z) :
  valid_hm a -> valid_hm b ->
  String.ltb (hhmm a) (hhmm b) = (minutes a <? minutes b).
Proof.
  intros Ha Hb. unfold String.ltb. rewrite compare_hhmm by assumption.
  unfold Z.ltb. destruct (minutes a ?= minutes b); reflexivity.
Qed.

(** Datetimes that [strptime] builds compare as their minutes do. *)
Lemma dt_leb_1900 (a b : Z * Z) :
  valid_hm a -> valid_hm b ->
  dt_leb (mkDatetime ordinal_1900 (fst a) (snd a) 0 0)
         (mkDatetime ordinal_1900 (fst b) (snd b) 0 0)
  = (minutes a <=? minutes b).
Proof.
  destruct a as [h1 m1], b as [h2 m2]; intros [Hh1 Hm1] [Hh2 Hm2];
    simpl in Hh1, Hm1, Hh2, Hm2.
  unfold dt_leb, dt_compare, minutes; simpl.
  destruct (Z.compare_spec h1 h2); destruct (Z.compare_spec m1 m2); simpl;
    symmetry; first [ apply Z.leb_le | apply Z.leb_gt ]; lia.
Qed.

End HourMinute.

(* ================================================================= *)
(** ** What a trace says about locks and threads *)

Lemma emit_emits (o : obs) (tr : list obs) (s : State) :
  emit o (emits tr s) = emits (tr ++ [o]) s.
Proof. unfold emit, emits; simpl. now rewrite app_assoc. Qed.

Lemma emits_emits (tr1 tr2 : list obs) (s : State) :
  emits tr2 (emits tr1 s) = emits (tr1 ++ tr2) s.
Proof. unfold emits; simpl. now rewrite app_assoc. Qed.

Lemma emit_as_emits (o : obs) (s : State) : emit o s = emits [o] s.
Proof. reflexivity. Qed.

Lemma emits_nil (s : State) : emits [] s = s.
Proof. destruct s; unfold emits; simpl. now rewrite app_nil_r. Qed.

Lemma lock_calls_app (tr1 tr2 : list obs) :
  lock_calls (tr1 ++ tr2) = lock_calls tr1 ++ lock_calls tr2.
Proof.
  induction tr1 as [ | [ | | | | | ] tr1 IH]; simpl; congruence.
Qed.

Lemma starts_app (tr1 tr2 : list obs) :
  starts (tr1 ++ tr2) = starts tr1 ++ starts tr2.
Proof.
  induction tr1 as [ | [ | | | | | ] tr1 IH]; simpl; congruence.
Qed.

Lemma quiet_refl (st : State) : quiet st st.
Proof.
  repeat split. exists []. now rewrite app_nil_r.
Qed.

Lemma quiet_trans (st1 st2 st3 : State) :
  quiet st1 st2 -> quiet st2 st3 -> quiet st1 st3.
Proof.
  intros (Hw1 & Hm1 & tr1 & Ht1 & Hl1 & Hs1) (Hw2 & Hm2 & tr2 & Ht2 & Hl2 & Hs2).
  repeat split; try congruence.
  exists (tr1 ++ tr2). rewrite Ht2, Ht1, lock_calls_app, starts_app, Hl1, Hl2, Hs1, Hs2.
  now rewrite app_assoc.
Qed.

Lemma quiet_emits (tr : list obs) (st : State) :
  lock_calls tr = [] -> starts tr = [] -> quiet st (emits tr st).
Proof. intros Hl Hs. repeat split. now exists tr. Qed.

Lemma quiet_advance (secs : Z) (st : State) : quiet st (advance secs st).
Proof. repeat split. exists []. simpl. now rewrite app_nil_r. Qed.

Lemma quiet_lock_calls (st st' : State) :
  quiet st st' -> lock_calls (trace st') = lock_calls (trace st).
Proof.
  intros (_ & _ & tr & Ht & Hl & _).
  now rewrite Ht, lock_calls_app, Hl, app_nil_r.
Qed.

Lemma quiet_starts (st st' : State) :
  quiet st st' -> starts (trace st') = starts (trace st).
Proof.
  intros (_ & _ & tr & Ht & _ & Hs).
  now rewrite Ht, starts_app, Hs, app_nil_r.
Qed.

Lemma quiet_In (o : obs) (st st' : State) :
  quiet st st' -> In o (trace st) -> In o (trace st').
Proof.
  intros (_ & _ & tr & Ht & _) Hin. rewrite Ht. apply in_or_app. now left.
Qed.

(* ================================================================= *)
(** ** The schedule evaluator *)

Section Schedule.

Variable w : World.

Lemma inside_iff (t : Z * Z) (s e : Z * Z) :
  inside t (s, e) = true <->
  (minutes s <= minutes e /\ minutes s <= minutes t <= minutes e) \/
  (minutes s > minutes e /\ (minutes t >= minutes s \/ minutes t <= minutes e)).
Proof.
  unfold inside. destruct (Z.leb_spec (minutes s) (minutes e)).
  - rewrite andb_true_iff, !Z.leb_le. lia.
  - rewrite orb_true_iff, !Z.leb_le. lia.
Qed.

Lemma interp_check_window (t : Z * Z) (win : window) (st : State) :
  valid_hm t -> valid_window win ->
  interp w (check_window (hhmm t) (window_strings win)) st =
  if inside t win
  then (Returned (Return true), emit (match_log t win) st)
  else (Returned Next, st).
Proof.
  destruct win as [s e]; intros Ht [Hs He]; simpl in Hs, He.
  unfold check_window, window_strings, strptime, match_log; simpl fst; simpl snd.
  rewrite !strptime_hhmm by assumption. cbn [bind].
  rewrite ltb_hhmm by assumption.
  unfold dt_geb. rewrite !dt_leb_1900 by assumption.
  unfold inside. rewrite (Z.ltb_antisym (minutes s) (minutes e)).
  destruct (minutes s <=? minutes e); simpl negb; cbv iota;
    [ destruct ((minutes s <=? minutes t) && (minutes t <=? minutes e))
    | destruct ((minutes s <=? minutes t) || (minutes t <=? minutes e)) ];
    reflexivity.
Qed.

Lemma interp_windows (t : Z * Z) (wins : list window) (st : State) :
  valid_hm t -> Forall valid_window wins ->
  interp w (for_each (map window_strings wins) (check_window (hhmm t))
              (Ret false)) st =
  (Returned (existsb (inside t) wins),
   match find (inside t) wins with
   | Some win => emit (match_log t win) st
   | None => st
   end).
Proof.
  intros Ht Hall. induction Hall as [ | win wins Hwin _ IH]; [reflexivity | ].
  cbn [map]. rewrite interp_for_each_cons, interp_check_window by assumption.
  cbn [existsb find]. destruct (inside t win); [reflexivity | apply IH].
Qed.

(** C1.  With the windows configured in the form ["HH:MM"], the evaluator
    answers, at the local time [t] (read to the minute), whether some
    window contains [t]: a window with start not after end contains [t]
    when start <= t <= end, a window with start after end when t >= start
    or t <= end.  It returns at the first window that matches (whose line
    it logs) and returns [False] without logging when none matches. *)
Theorem is_time_to_lock_spec (self : TimeChecker) (wins : list window)
  (st : State) :
  let t := hm_of (local_clock w (clock st)) in
  lock_times self = map window_strings wins ->
  valid_hm t ->
  Forall valid_window wins ->
  interp w (is_time_to_lock self) st =
    (Returned (existsb (inside t) wins),
     match find (inside t) wins with
     | Some win => emit (match_log t win) st
     | None => st
     end)
  /\ (forall s e,
        inside t (s, e) = true <->
        (minutes s <= minutes e /\ minutes s <= minutes t <= minutes e) \/
        (minutes s > minutes e /\
         (minutes t >= minutes s \/ minutes t <= minutes e))).
Proof.
  intros t Hcfg Ht Hall. split; [ | intros s e; apply inside_iff].
  unfold is_time_to_lock, is_time_to_lock_try.
  rewrite interp_try_catch. cbn [bind trigger interp handle].
  rewrite Hcfg, strftime_hhmm. fold t.
  rewrite interp_windows by assumption. reflexivity.
Qed.

(* ----------------------------------------------------------------- *)
(** *** Malformed windows *)

Lemma check_window_outcome (cur : string) (win : string * string)
  (st : State) :
  exists r st',
    interp w (check_window cur win) st = (r, st') /\
    (r = Returned Next \/ r = Returned (Return true) \/
     r = Raised (Exception "ValueError")) /\
    quiet st st' /\ clock st' = clock st.
Proof.
  destruct win as [start_time end_time]. unfold check_window, strptime.
  assert (Hlog : forall m, quiet st (emit (OLog INFO m) st))
    by (intro m; now apply quiet_emits).
  pose proof (quiet_refl st) as Hrefl.
  destruct (strptime_HM cur) as [current | ];
    [ | simpl; eexists _, _; eauto 10].
  destruct (strptime_HM start_time) as [start | ];
    [ | simpl; eexists _, _; eauto 10].
  destruct (strptime_HM end_time) as [end_ | ];
    [ | simpl; eexists _, _; eauto 10].
  cbn [bind].
  destruct (String.ltb end_time start_time);
    [ destruct (dt_geb current start || dt_leb current end_)
    | destruct (dt_leb start current && dt_leb current end_) ];
    simpl; eexists _, _; eauto 10.
Qed.

Lemma windows_outcome (cur : string) (wins : list (string * string))
  (st : State) :
  exists r st',
    interp w (for_each wins (check_window cur) (Ret false)) st = (r, st') /\
    ((exists b, r = Returned b) \/ r = Raised (Exception "ValueError")) /\
    quiet st st' /\ clock st' = clock st.
Proof.
  revert st; induction wins as [ | win wins IH]; intro st.
  - exists (Returned false), st. split; [reflexivity | ].
    split; [left; eauto | ]. split; [apply quiet_refl | reflexivity].
  - rewrite interp_for_each_cons.
    destruct (check_window_outcome cur win st)
      as (r & st1 & -> & [-> | [-> | ->]] & Hq & Hc).
    + destruct (IH st1) as (r & st2 & -> & Hr & Hq2 & Hc2).
      exists r, st2. split; [reflexivity | ]. split; [exact Hr | ].
      split; [eapply quiet_trans; eassumption | congruence].
    + eexists _, st1. split; [reflexivity | ]. split; [left; eauto | auto].
    + eexists _, st1. split; [reflexivity | ]. split; [now right | auto].
Qed.

(** [is_time_to_lock] returns, and only reads the clock and logs. *)
Lemma is_time_to_lock_outcome (self : TimeChecker) (st : State) :
  exists b st',
    interp w (is_time_to_lock self) st = (Returned b, st') /\
    quiet st st' /\ clock st' = clock st.
Proof.
  unfold is_time_to_lock. rewrite interp_try_catch.
  unfold is_time_to_lock_try. cbn [bind trigger interp handle].
  destruct (windows_outcome (strftime_HM (local_clock w (clock st)))
              (lock_times self) st) as (r & st1 & -> & [[b ->] | ->] & Hq & Hc).
  - exists b, st1. auto.
  - cbn [except_Exception]. rewrite interp_bind, interp_logger.
    rewrite interp_bind, interp_logger. cbn [interp].
    eexists _, _. split; [reflexivity | ]. split; [ | exact Hc].
    eapply quiet_trans; [exact Hq | ].
    eapply quiet_trans; now apply quiet_emits.
Qed.

(** C10.  For every clock, every list of window strings and every state,
    [is_time_to_lock] returns a boolean: it neither raises nor fails to
    return.  When its [try] block raises (a window string that
    [strptime] rejects is reached), the error and the traceback are
    logged and the answer is [False]. *)
Theorem is_time_to_lock_total (self : TimeChecker) (st : State) :
  exists b st',
    interp w (is_time_to_lock self) st = (Returned b, st') /\
    forall e st1,
      interp w (is_time_to_lock_try self) st = (Raised e, st1) ->
      b = false /\
      exists msg,
        e = Exception msg /\
        st' = emit (OLog ERROR MsgTraceback)
                (emit (OLog ERROR (MsgLockCheckError msg)) st1).
Proof.
  unfold is_time_to_lock. rewrite interp_try_catch.
  unfold is_time_to_lock_try. cbn [bind trigger interp handle].
  destruct (windows_outcome (strftime_HM (local_clock w (clock st)))
              (lock_times self) st) as (r & st1 & -> & [[b ->] | ->] & _).
  - exists b, st1. split; [reflexivity | discriminate].
  - cbn [except_Exception]. rewrite interp_bind, interp_logger.
    rewrite interp_bind, interp_logger. cbn [interp].
    eexists _, _. split; [reflexivity | ].
    intros e st2 [= <- <-]. split; [reflexivity | ].
    exists "ValueError". split; reflexivity.
Qed.

End Schedule.

Lemma is_time_to_lock_spec_witness :
  interp (clock_at 22 30) (is_time_to_lock init) (mkState 0 false true []) =
  (Returned true,
   mkState 0 false true [OLog INFO (MsgInLockWindow "22:30" "21:00" "23:59")]).
Proof.
  refine (proj1 (is_time_to_lock_spec (clock_at 22 30) init init_windows
                   (mkState 0 false true []) _ _ _)).
  - reflexivity.
  - unfold valid_hm; simpl; lia.
  - repeat constructor; simpl; lia.
Defined.

(** The examples of the specification, evaluated on the code. *)
Example window_examples :
  let run h m win :=
    fst (interp (clock_at h m)
           (is_time_to_lock (mkTimeChecker [] [win])) (mkState 0 false true []))
  in
  run 22 30 ("21:00", "23:59") = Returned true /\
  run 20 59 ("21:00", "23:59") = Returned false /\
  run 3 0 ("00:00", "07:00") = Returned true /\
  run 7 1 ("00:00", "07:00") = Returned false /\
  run 23 30 ("22:00", "06:00") = Returned true /\
  run 5 59 ("22:00", "06:00") = Returned true /\
  run 12 0 ("22:00", "06:00") = Returned false.
Proof. repeat split. Qed.

(** Whether a window wraps is decided on the strings.  On strings that are
    not in the two-digit form the order of the strings is not the order of
    the times: the window 9:00 to 17:00 is taken to wrap. *)
Remark unpadded_window_wraps :
  fst (interp (clock_at 18 0)
         (is_time_to_lock (mkTimeChecker [] [("9:00", "17:00")]))
         (mkState 0 false true [])) = Returned true.
Proof. reflexivity. Qed.

(** A window that cannot be parsed, reached before any window matches:
    the evaluator answers [False], whatever the time (here 24:00 is
    rejected although the clock reads 23:30). *)
Example malformed_window_example :
  interp (clock_at 23 30)
    (is_time_to_lock (mkTimeChecker [] [("21:00", "24:00")]))
    (mkState 0 false true []) =
  (Returned false,
   mkState 0 false true
     [OLog ERROR (MsgLockCheckError "ValueError"); OLog ERROR MsgTraceback]).
Proof. reflexivity. Qed.


(* ================================================================= *)
(** ** The time source client *)

Section TimeSource.

Variable w : World.

Lemma interp_try_server (server : string) (st : State) :
  interp w (try_server server) st =
  match ntp_reply w (clock st) server with
  | inr tx_time =>
      (Returned (Return (Some tx_time)), emits (answered_query (clock st) server) st)
  | inl _ => (Returned Next, emits (failed_query w (clock st) server) st)
  end.
Proof.
  unfold try_server, failed_query, answered_query.
  cbn [bind trigger try_catch interp handle].
  destruct (ntp_reply w (clock st) server) as [e | tx_time];
    cbn; unfold emit, emits; cbn; rewrite <- app_assoc; reflexivity.
Qed.

Lemma interp_servers (servers : list string) (st : State) :
  interp w (for_each servers try_server (Ret None)) st =
  (Returned (first_reply w (clock st) servers),
   emits (queries w (clock st) servers) st).
Proof.
  revert st; induction servers as [ | server servers IH]; intro st.
  - cbn. now rewrite emits_nil.
  - rewrite interp_for_each_cons, interp_try_server. cbn [first_reply queries].
    destruct (ntp_reply w (clock st) server) as [e | tx_time]; [ | reflexivity].
    rewrite IH, emits_emits. reflexivity.
Qed.

Lemma interp_get_network_time (self : TimeChecker) (st : State) :
  interp w (get_network_time self) st =
  (Returned (first_reply w (clock st) (ntp_servers self)),
   emits (queries w (clock st) (ntp_servers self)) st).
Proof. apply interp_servers. Qed.

Lemma queries_failed (now : Z) (failed rest : list string) :
  Forall (fails w now) failed ->
  first_reply w now (failed ++ rest) = first_reply w now rest /\
  queries w now (failed ++ rest) =
  flat_map (failed_query w now) failed ++ queries w now rest.
Proof.
  induction 1 as [ | server failed [e He] _ [IH1 IH2]]; [now split | ].
  cbn [app first_reply queries flat_map]. rewrite He, IH1, IH2.
  split; [reflexivity | now rewrite <- app_assoc].
Qed.

(** C6.  [get_network_time] always returns, never raises, and changes
    neither the clock nor the warning flag.  It queries the servers in
    the order of the list, each with a timeout of 5 seconds.  When a
    server answers after the servers [failed] before it, its time is the
    result and the servers after it are not queried; when every server
    fails the result is [None].  Each failure leaves a WARNING line. *)
Theorem get_network_time_spec (self : TimeChecker) (st : State) :
  let now := clock st in
  exists tr,
    interp w (get_network_time self) st =
      (Returned (first_reply w now (ntp_servers self)), emits tr st)
    /\ (forall failed server rest tx_time,
          ntp_servers self = failed ++ server :: rest ->
          Forall (fails w now) failed ->
          ntp_reply w now server = inr tx_time ->
          first_reply w now (ntp_servers self) = Some tx_time /\
          tr = flat_map (failed_query w now) failed ++ answered_query now server)
    /\ (Forall (fails w now) (ntp_servers self) ->
        first_reply w now (ntp_servers self) = None /\
        tr = flat_map (failed_query w now) (ntp_servers self)).
Proof.
  intro now. exists (queries w now (ntp_servers self)).
  split; [apply interp_get_network_time | split].
  - intros failed server rest tx_time Hsplit Hfailed Hok.
    rewrite Hsplit. destruct (queries_failed now failed (server :: rest) Hfailed)
      as [H1 H2].
    rewrite H1, H2. cbn [first_reply queries]. rewrite Hok. now split.
  - intro Hfailed.
    destruct (queries_failed now (ntp_servers self) [] Hfailed) as [H1 H2].
    rewrite app_nil_r in H1, H2. rewrite H1, H2. cbn. now rewrite app_nil_r.
Qed.

End TimeSource.

Lemma get_network_time_spec_witness :
  exists tr,
    interp third_server_answers (get_network_time init)
      (mkState 0 false true []) =
    (Returned (Some (mkDatetime 739000 14 31 0 0)),
     emits tr (mkState 0 false true []))
    /\ tr = [ONtp 0 "pool.ntp.org" 5;
             OLog WARNING (MsgNtpFailed "pool.ntp.org" "timed out");
             ONtp 0 "time.windows.com" 5;
             OLog WARNING (MsgNtpFailed "time.windows.com" "timed out");
             ONtp 0 "time.apple.com" 5;
             OLog DEBUG (MsgNtpOk "time.apple.com")].
Proof.
  destruct (get_network_time_spec third_server_answers init
              (mkState 0 false true [])) as (tr & Hrun & Hfirst & _).
  destruct (Hfirst ["pool.ntp.org"; "time.windows.com"] "time.apple.com"
              ["time.google.com"] (mkDatetime 739000 14 31 0 0))
    as [_ Htr].
  - reflexivity.
  - repeat constructor; exists "timed out"; reflexivity.
  - reflexivity.
  - exists tr. split; [exact Hrun | exact Htr].
Defined.

(* ================================================================= *)
(** ** Sleeping, locking, showing a dialog *)

Section Actions.

Variable w : World.

Lemma interp_sleep (secs : Z) (st : State) :
  main_thread st = false ->
  interp w (sleep secs) st =
  (Returned tt, advance secs (emit (OSleep (clock st) secs) st)).
Proof. intro Hm. unfold sleep. cbn. rewrite Hm. reflexivity. Qed.

Lemma interp_lock_windows (st : State) :
  interp w lock_windows st = (Returned tt, locked w st).
Proof.
  unfold lock_windows, locked. cbn.
  destruct (lock_workstation w (clock st)) as [e | ]; cbn;
    unfold emit, emits, set_warning_active; cbn;
    rewrite <- ?app_assoc; reflexivity.
Qed.

Lemma locked_facts (st : State) :
  clock (locked w st) = clock st /\
  main_thread (locked w st) = main_thread st /\
  lock_calls (trace (locked w st)) = lock_calls (trace st) ++ [clock st] /\
  starts (trace (locked w st)) = starts (trace st).
Proof.
  unfold locked. destruct (lock_workstation w (clock st)); cbn;
    rewrite lock_calls_app, starts_app; cbn; rewrite app_nil_r; auto.
Qed.

Lemma interp_raising_tk (c : tk_call) (st : State) :
  interp w (raising (Tk c)) st =
  (match tk_reply w (clock st) c with
   | Some e => Raised (Exception e)
   | None => Returned tt
   end, emit (OTk (clock st) c) st).
Proof.
  unfold raising. cbn. destruct (tk_reply w (clock st) c); reflexivity.
Qed.

Lemma tk_attempt_outcome (operation : tk_call) (st : State) :
  exists r st',
    interp w (tk_attempt operation) st = (r, st') /\
    (r = Returned tt \/ exists e, r = Raised (Exception e)) /\
    quiet st st' /\ clock st' = clock st /\
    In (OTk (clock st) TkTk) (trace st') /\
    (tk_works w (clock st) ->
     r = Returned tt /\ st' = emits (shown (clock st) operation) st).
Proof.
  unfold tk_attempt, tk_works.
  rewrite interp_bind, interp_raising_tk.
  destruct (tk_reply w (clock st) TkTk) as [e1 | ] eqn:H1.
  { eexists _, _. split; [reflexivity | ].
    split; [right; eauto | ]. split; [now apply quiet_emits | ].
    split; [reflexivity | ]. split; [apply in_or_app; right; now left | ].
    intro H. rewrite H in H1. discriminate. }
  rewrite interp_bind, interp_raising_tk. cbn [clock emit].
  destruct (tk_reply w (clock st) TkWithdraw) as [e2 | ] eqn:H2.
  { eexists _, _. split; [reflexivity | ].
    split; [right; eauto | ]. rewrite !emit_as_emits, !emits_emits.
    split; [now apply quiet_emits | ].
    split; [reflexivity | ]. split; [apply in_or_app; right; now left | ].
    intro H. rewrite H in H2. discriminate. }
  rewrite interp_bind, interp_raising_tk. cbn [clock emit].
  destruct (tk_reply w (clock st) operation) as [e3 | ] eqn:H3.
  { eexists _, _. split; [reflexivity | ].
    split; [right; eauto | ]. rewrite !emit_as_emits, !emits_emits.
    split; [now apply quiet_emits | ].
    split; [reflexivity | ]. split; [apply in_or_app; right; now left | ].
    intro H. rewrite H in H3. discriminate. }
  rewrite interp_raising_tk. cbn [clock emit].
  rewrite !emit_as_emits, !emits_emits. cbn [app].
  eexists _, _. split; [reflexivity | ].
  split; [destruct (tk_reply w (clock st) TkDestroy); [right | left]; eauto | ].
  split; [now apply quiet_emits | ].
  split; [reflexivity | ]. split; [apply in_or_app; right; now left | ].
  intro H. rewrite H. split; reflexivity.
Qed.

(** The [except] clause of [safe_tk_operation], in a thread whose sleep is
    never interrupted. *)
Lemma tk_failed_outcome (max_retries : nat) (attempt : Z) (e : string)
  (st : State) :
  main_thread st = false ->
  exists st',
    interp w
      (logger ERROR (MsgTkFailed (attempt + 1) (Z.of_nat max_retries) e) ;;
       (if attempt =? Z.of_nat max_retries - 1
        then logger ERROR MsgTkAllFailed else Ret tt) ;;
       sleep 1 ;;
       Ret (@Next bool)) st = (Returned Next, st') /\
    quiet st st'.
Proof.
  intro Hm. rewrite interp_bind, interp_logger, interp_bind.
  set (st1 := emit _ st).
  assert (Hq1 : quiet st st1) by now apply quiet_emits.
  assert (Hlast : exists st2,
    interp w (if attempt =? Z.of_nat max_retries - 1
              then logger ERROR MsgTkAllFailed else Ret tt) st1
    = (Returned tt, st2) /\ quiet st1 st2).
  { destruct (attempt =? Z.of_nat max_retries - 1).
    - eexists. split; [apply interp_logger | now apply quiet_emits].
    - exists st1. split; [reflexivity | apply quiet_refl]. }
  destruct Hlast as (st2 & -> & Hq2).
  assert (Hm2 : main_thread st2 = false).
  { destruct Hq2 as (_ & -> & _). exact Hm. }
  rewrite interp_bind, interp_sleep by exact Hm2. cbn [interp].
  eexists. split; [reflexivity | ].
  eapply quiet_trans; [exact Hq1 | ].
  eapply quiet_trans; [exact Hq2 | ].
  eapply quiet_trans; [ | apply quiet_advance]. now apply quiet_emits.
Qed.

Lemma safe_tk_try_outcome (operation : tk_call) (max_retries : nat)
  (attempt : Z) (st : State) :
  main_thread st = false ->
  exists r st',
    interp w (safe_tk_try operation max_retries attempt) st =
      (Returned r, st') /\
    quiet st st' /\
    In (OTk (clock st) TkTk) (trace st') /\
    (tk_works w (clock st) ->
     r = Return true /\ st' = emits (shown (clock st) operation) st).
Proof.
  intro Hm. unfold safe_tk_try. rewrite interp_try_catch, interp_bind.
  destruct (tk_attempt_outcome operation st)
    as (r & st1 & Hrun & Hr & Hq & Hc & Hin & Hworks).
  rewrite Hrun. destruct Hr as [-> | [e ->]].
  - cbn [interp]. eexists _, _. split; [reflexivity | ].
    split; [exact Hq | ]. split; [exact Hin | ].
    intro H. destruct (Hworks H) as [_ ->]. now split.
  - cbn [except_Exception].
    assert (Hm1 : main_thread st1 = false)
      by (destruct Hq as (_ & -> & _); exact Hm).
    destruct (tk_failed_outcome max_retries attempt e st1 Hm1)
      as (st2 & -> & Hq2).
    eexists _, _. split; [reflexivity | ].
    split; [eapply quiet_trans; eassumption | ].
    split; [eapply quiet_In; eassumption | ].
    intro H. destruct (Hworks H) as [Hbad _]. discriminate.
Qed.

Lemma safe_tk_loop_outcome (operation : tk_call) (max_retries : nat)
  (attempts : list Z) (st : State) :
  main_thread st = false ->
  exists b st',
    interp w (for_each attempts (safe_tk_try operation max_retries)
                (Ret false)) st = (Returned b, st') /\
    quiet st st'.
Proof.
  revert st; induction attempts as [ | attempt attempts IH]; intros st Hm.
  - exists false, st. split; [reflexivity | apply quiet_refl].
  - rewrite interp_for_each_cons.
    destruct (safe_tk_try_outcome operation max_retries attempt st Hm)
      as (r & st1 & -> & Hq & _).
    destruct r as [ | b].
    + assert (Hm1 : main_thread st1 = false)
        by (destruct Hq as (_ & -> & _); exact Hm).
      destruct (IH st1 Hm1) as (b & st2 & -> & Hq2).
      exists b, st2. split; [reflexivity | eapply quiet_trans; eassumption].
    + exists b, st1. split; [reflexivity | exact Hq].
Qed.

(** [safe_tk_operation] in a thread of its own: it returns, it is quiet,
    it calls into Tk at least once, and when Tk works the operation is
    carried out at the first attempt. *)
Lemma safe_tk_operation_outcome (operation : tk_call) (st : State) :
  main_thread st = false ->
  exists b st',
    interp w (safe_tk_operation operation) st = (Returned b, st') /\
    quiet st st' /\
    In (OTk (clock st) TkTk) (trace st') /\
    (tk_works w (clock st) ->
     b = true /\ st' = emits (shown (clock st) operation) st).
Proof.
  intro Hm. unfold safe_tk_operation.
  change (range 3) with [0; 1; 2]. rewrite interp_for_each_cons.
  destruct (safe_tk_try_outcome operation 3 0 st Hm)
    as (r & st1 & -> & Hq & Hin & Hworks).
  destruct r as [ | b].
  - assert (Hm1 : main_thread st1 = false)
      by (destruct Hq as (_ & -> & _); exact Hm).
    destruct (safe_tk_loop_outcome operation 3 [1; 2] st1 Hm1)
      as (b & st2 & -> & Hq2).
    exists b, st2. split; [reflexivity | ].
    split; [eapply quiet_trans; eassumption | ].
    split; [eapply quiet_In; eassumption | ].
    intro H. destruct (Hworks H) as [Hbad _]. discriminate.
  - exists b, st1. split; [reflexivity | ].
    split; [exact Hq | ]. split; [exact Hin | ].
    intro H. destruct (Hworks H) as [[= ->] ->]. now split.
Qed.

Lemma show_normal_message_outcome (st : State) :
  main_thread st = false ->
  exists st',
    interp w show_normal_message st = (Returned tt, st') /\
    quiet st st' /\
    In (OTk (clock st) TkTk) (trace st') /\
    (tk_works w (clock st) -> st' = emits (shown (clock st) TkShowInfo) st).
Proof.
  intro Hm. unfold show_normal_message. rewrite interp_bind.
  destruct (safe_tk_operation_outcome TkShowInfo st Hm)
    as (b & st' & -> & Hq & Hin & Hworks).
  exists st'. split; [reflexivity | ]. split; [exact Hq | ].
  split; [exact Hin | ]. intro H. now destruct (Hworks H).
Qed.

End Actions.

(* ================================================================= *)
(** ** The two countdowns *)

Section Countdowns.

Variable w : World.
Variable self : TimeChecker.

(** C7.  In its thread, [time_lock_countdown] sleeps 60 seconds and then
    reads the stop signal, and nothing else: whatever the clock, the
    windows, the time source and the warning flag are, it calls the OS
    lock once, 60 seconds after it started, when the stop signal is not
    set then, and does not call it when the signal is set. *)
Theorem time_lock_countdown_spec (st : State) :
  main_thread st = false ->
  let now := clock st in
  let waited :=
    advance 60
      (emits [OLog INFO MsgScheduleCountdownStart; OSleep now 60] st) in
  let st' := if stop_event w (now + 60) then waited else locked w waited in
  interp w time_lock_countdown st = (Returned tt, st') /\
  lock_calls (trace st') =
  lock_calls (trace st) ++ (if stop_event w (now + 60) then [] else [now + 60]).
Proof.
  intros Hm now waited st'. split.
  - unfold time_lock_countdown. rewrite interp_try_catch, interp_bind, interp_logger.
    rewrite interp_bind, interp_sleep by exact Hm.
    cbn [bind trigger interp handle clock advance emit]. fold now.
    subst st' waited. unfold emits, emit, advance; cbn.
    rewrite <- app_assoc. cbn [app].
    destruct (stop_event w (now + 60)); cbn [negb]; [reflexivity | ].
    rewrite interp_lock_windows. reflexivity.
  - subst st'. destruct (stop_event w (now + 60)).
    + subst waited. cbn. rewrite lock_calls_app. cbn. reflexivity.
    + destruct (locked_facts w waited) as (_ & _ & -> & _).
      subst waited. cbn. rewrite lock_calls_app. cbn.
      now rewrite app_nil_r.
Qed.

Lemma interp_resync_out_of_sync (st : State) :
  out_of_sync w self (clock st) = true ->
  interp w (resync_sample self) st =
  (Returned Next,
   emits (queries w (clock st) (ntp_servers self) ++ sample_logs w self (clock st)) st).
Proof.
  unfold out_of_sync, drift_at, sample_logs, resync_sample, suppress_Exception.
  intro Hbad. rewrite interp_try_catch, interp_bind, interp_get_network_time.
  destruct (first_reply w (clock st) (ntp_servers self)) as [network_time | ].
  - cbn [bind trigger interp handle emits clock].
    unfold diff_gt_5 in Hbad. unfold diff_le_5.
    apply negb_true_iff in Hbad. rewrite Hbad.
    cbn. unfold emit, emits; cbn. rewrite <- !app_assoc. reflexivity.
  - cbn. now rewrite app_nil_r.
Qed.

Lemma interp_countdown_out_of_sync (i : Z) (st : State) :
  main_thread st = false ->
  stop_event w (clock st) = false ->
  out_of_sync w self (clock st) = true ->
  interp w (countdown_sample self i) st =
  (Returned Next, advance 10 (emits (bad_sample_trace w self (clock st) i) st)).
Proof.
  intros Hm Hstop Hbad. unfold countdown_sample.
  cbn [bind trigger interp handle]. rewrite Hstop.
  rewrite interp_bind, interp_resync_out_of_sync by exact Hbad.
  rewrite interp_bind, interp_logger, interp_bind, interp_sleep by exact Hm.
  cbn [interp]. unfold bad_sample_trace, emit, emits, advance; cbn.
  rewrite <- !app_assoc. reflexivity.
Qed.

Lemma interp_countdown_loop_bad (turns : list Z)
  (after : prog unit) (st : State) :
  main_thread st = false ->
  (forall k, 0 <= k < Z.of_nat (List.length turns) ->
     stop_event w (clock st + 10 * k) = false /\
     out_of_sync w self (clock st + 10 * k) = true) ->
  interp w (for_each turns (countdown_sample self) after) st =
  interp w after
    (advance (10 * Z.of_nat (List.length turns))
       (emits (bad_samples_trace w self (clock st) turns) st)).
Proof.
  revert st; induction turns as [ | i turns IH]; intros st Hm Hall.
  - cbn. f_equal. destruct st; unfold advance, emits; cbn.
    now rewrite app_nil_r, Z.add_0_r.
  - rewrite interp_for_each_cons.
    destruct (Hall 0) as [Hstop Hbad]; [cbn [List.length]; lia | ].
    rewrite Z.mul_0_r, Z.add_0_r in Hstop, Hbad.
    rewrite interp_countdown_out_of_sync by assumption.
    rewrite IH.
    + f_equal. unfold advance, emits; cbn [clock warning_active main_thread trace bad_samples_trace List.length].
      f_equal; [lia | now rewrite <- app_assoc].
    + exact Hm.
    + intros k Hk. cbn [clock advance emits].
      replace (clock st + 10 + 10 * k) with (clock st + 10 * (k + 1)) by lia.
      apply Hall. cbn [List.length]. lia.
Qed.

Lemma lock_calls_queries (now : Z) (servers : list string) :
  lock_calls (queries w now servers) = [] /\
  starts (queries w now servers) = [].
Proof.
  induction servers as [ | server servers [IH1 IH2]]; [now split | ].
  cbn [queries]. destruct (ntp_reply w now server); cbn; auto.
Qed.

Lemma lock_calls_bad_samples (now : Z) (turns : list Z) :
  lock_calls (bad_samples_trace w self now turns) = [].
Proof.
  revert now; induction turns as [ | i turns IH]; intro now; [reflexivity | ].
  cbn [bad_samples_trace]. unfold bad_sample_trace, sample_logs.
  rewrite !lock_calls_app, IH.
  destruct (lock_calls_queries now (ntp_servers self)) as [-> _].
  destruct (first_reply w now (ntp_servers self)); reflexivity.
Qed.

Lemma sleeps_app (tr1 tr2 : list obs) :
  sleeps (tr1 ++ tr2) = sleeps tr1 ++ sleeps tr2.
Proof.
  induction tr1 as [ | [ | | | | | ] tr1 IH]; simpl; congruence.
Qed.

Lemma sleeps_queries (now : Z) (servers : list string) :
  sleeps (queries w now servers) = [].
Proof.
  induction servers as [ | server servers IH]; [reflexivity | ].
  cbn [queries]. destruct (ntp_reply w now server); cbn; auto.
Qed.

Lemma sleeps_bad_samples (now : Z) (turns : list Z) :
  sleeps (bad_samples_trace w self now turns) =
  map (fun k => (now + 10 * Z.of_nat k, 10)) (seq 0 (List.length turns)).
Proof.
  revert now; induction turns as [ | i turns IH]; intro now; [reflexivity | ].
  cbn [bad_samples_trace List.length seq map]. unfold bad_sample_trace, sample_logs.
  rewrite !sleeps_app, IH, sleeps_queries.
  replace (sleeps match first_reply w now (ntp_servers self) with
                  | Some network_time => _ | None => [] end) with (@nil (Z * Z))
    by (destruct (first_reply w now (ntp_servers self)); reflexivity).
  cbn [app sleeps]. rewrite Z.mul_0_r, Z.add_0_r. f_equal.
  rewrite <- seq_shift, map_map. apply map_ext. intro k.
  f_equal. lia.
Qed.

Lemma sleeps_locked (st : State) :
  sleeps (trace (locked w st)) = sleeps (trace st).
Proof.
  unfold locked. destruct (lock_workstation w (clock st)); cbn;
    rewrite sleeps_app; cbn; now rewrite app_nil_r.
Qed.

(** C2.  In its thread, when the stop signal is not set at any of the 31
    times it is read (every 10 seconds from the start) and each of the 30
    samples, taken at 10-second steps, finds the time source unavailable
    or a difference above 5 minutes, [countdown_check] queries the time
    source at each sample, sleeps 30 times 10 seconds and calls the OS
    lock exactly once, 300 seconds after it started. *)
Theorem countdown_check_expiry (st : State) :
  let now := clock st in
  main_thread st = false ->
  (forall k, 0 <= k <= 30 -> stop_event w (now + 10 * k) = false) ->
  (forall k, 0 <= k < 30 -> out_of_sync w self (now + 10 * k) = true) ->
  let st' :=
    locked w (advance 300 (emits (bad_samples_trace w self now (range 30)) st)) in
  interp w (countdown_check self) st = (Returned tt, st') /\
  lock_calls (trace st') = lock_calls (trace st) ++ [now + 300] /\
  sleeps (trace st') =
  sleeps (trace st) ++ map (fun k => (now + 10 * Z.of_nat k, 10)) (seq 0 30).
Proof.
  intros now Hm Hstop Hbad st'.
  assert (Hlen : List.length (range 30) = 30%nat) by reflexivity.
  split; [ | split].
  - unfold countdown_check. rewrite interp_try_catch.
    rewrite interp_countdown_loop_bad.
    + rewrite Hlen. change (10 * Z.of_nat 30) with 300.
      cbn [bind trigger interp handle clock advance emits]. fold now.
      assert (H30 : stop_event w (now + 300) = false) by (apply (Hstop 30); lia).
      rewrite H30. cbn [negb].
      rewrite interp_lock_windows. reflexivity.
    + exact Hm.
    + rewrite Hlen. intros k Hk. split; [apply Hstop | apply Hbad]; lia.
  - subst st'.
    match goal with |- context [locked w ?s] =>
      destruct (locked_facts w s) as (_ & _ & -> & _) end.
    cbn [trace clock advance emits].
    now rewrite lock_calls_app, lock_calls_bad_samples, app_nil_r.
  - subst st'. rewrite sleeps_locked. cbn [trace advance emits].
    rewrite sleeps_app, sleeps_bad_samples, Hlen. reflexivity.
Qed.

Lemma interp_for_each_app {X A : Type} (xs ys : list X)
  (body : X -> prog (flow A)) (after : prog A) (st : State) :
  interp w (for_each (xs ++ ys) body after) st =
  interp w (for_each xs body (for_each ys body after)) st.
Proof.
  revert st; induction xs as [ | x xs IH]; intro st; [reflexivity | ].
  cbn [app]. rewrite !interp_for_each_cons.
  destruct (interp w (body x) st) as [[[ | a] | e | ] st1];
    [apply IH | reflexivity ..].
Qed.

(** A sample that finds the difference within 5 minutes. *)
Lemma interp_countdown_sample_good (i : Z) (st : State) :
  main_thread st = false ->
  stop_event w (clock st) = false ->
  out_of_sync w self (clock st) = false ->
  exists st',
    interp w (countdown_sample self i) st = (Returned (Return tt), st') /\
    warning_active st' = false /\
    lock_calls (trace st') = lock_calls (trace st) /\
    In (OLog INFO MsgResynced) (trace st') /\
    In (OTk (clock st) TkTk) (trace st') /\
    (tk_works w (clock st) ->
     exists tr, trace st' = tr ++ shown (clock st) TkShowInfo).
Proof.
  intros Hm Hstop Hgood. unfold countdown_sample.
  cbn [bind trigger interp handle]. rewrite Hstop.
  unfold resync_sample, suppress_Exception.
  rewrite interp_bind, interp_try_catch, interp_bind, interp_get_network_time.
  unfold out_of_sync, drift_at in Hgood.
  destruct (first_reply w (clock st) (ntp_servers self)) as [network_time | ];
    [ | discriminate].
  cbn [bind trigger interp handle emits clock].
  unfold diff_gt_5 in Hgood. apply negb_false_iff in Hgood.
  unfold diff_le_5. rewrite Hgood.
  repeat (rewrite interp_bind, interp_logger).
  rewrite !emit_as_emits, !emits_emits.
  set (tr := (queries w (clock st) (ntp_servers self) ++ _)%list).
  assert (Htr : lock_calls tr = [] /\ In (OLog INFO MsgResynced) tr).
  { subst tr. rewrite !lock_calls_app.
    destruct (lock_calls_queries (clock st) (ntp_servers self)) as [-> _].
    split; [reflexivity | ]. rewrite !in_app_iff. cbn. auto 10. }
  destruct Htr as [Hlocks Hin].
  set (st1 := set_warning_active false (emits tr st)).
  destruct (show_normal_message_outcome w st1 Hm)
    as (st' & Hrun & Hq & Htk & Hworks).
  cbn [interp handle]. fold st1. rewrite interp_bind, Hrun. cbn [interp].
  exists st'. split; [reflexivity | ].
  split; [destruct Hq as (-> & _); reflexivity | ].
  split.
  { rewrite (quiet_lock_calls _ _ Hq). cbn.
    now rewrite lock_calls_app, Hlocks, app_nil_r. }
  split.
  { eapply quiet_In; [exact Hq | ]. cbn. apply in_or_app. now right. }
  split; [exact Htk | ].
  intro H. rewrite (Hworks H). cbn. eexists. reflexivity.
Qed.

(** C3.  In its thread, when sample [k] of the countdown is the first
    that finds the difference within 5 minutes (the stop signal not being
    set up to then), [countdown_check] returns at that sample: it never
    calls the OS lock, it leaves the warning flag [False], it logs the
    resynchronisation and it calls [show_normal_message], whose dialog is
    shown at the first attempt when Tk works. *)
Theorem countdown_check_resync (k : nat) (st : State) :
  let now := clock st in
  let at_k := now + 10 * Z.of_nat k in
  main_thread st = false ->
  (k < 30)%nat ->
  (forall j, 0 <= j <= Z.of_nat k -> stop_event w (now + 10 * j) = false) ->
  (forall j, 0 <= j < Z.of_nat k -> out_of_sync w self (now + 10 * j) = true) ->
  out_of_sync w self at_k = false ->
  exists st',
    interp w (countdown_check self) st = (Returned tt, st') /\
    warning_active st' = false /\
    lock_calls (trace st') = lock_calls (trace st) /\
    In (OLog INFO MsgResynced) (trace st') /\
    In (OTk at_k TkTk) (trace st') /\
    (tk_works w at_k -> exists tr, trace st' = tr ++ shown at_k TkShowInfo).
Proof.
  intros now at_k Hm Hk Hstop Hbad Hgood.
  unfold countdown_check. rewrite interp_try_catch.
  assert (Hsplit : range 30 =
    range k ++ Z.of_nat k :: map Z.of_nat (seq (S k) (30 - S k))).
  { unfold range. replace 30%nat with (k + S (30 - S k))%nat at 1 by lia.
    rewrite seq_app, map_app. reflexivity. }
  rewrite Hsplit, interp_for_each_app.
  assert (Hlen : List.length (range k) = k)
    by (unfold range; now rewrite length_map, length_seq).
  rewrite interp_countdown_loop_bad.
  2: exact Hm.
  2: { rewrite Hlen. intros j Hj. split; [apply Hstop | apply Hbad]; lia. }
  rewrite Hlen, interp_for_each_cons.
  set (st1 := advance _ _).
  assert (Hc1 : clock st1 = at_k) by reflexivity.
  destruct (interp_countdown_sample_good (Z.of_nat k) st1)
    as (st' & -> & Hw & Hlocks & Hlog & Htk & Hworks).
  { exact Hm. }
  { rewrite Hc1. apply Hstop. lia. }
  { rewrite Hc1. exact Hgood. }
  exists st'. split; [reflexivity | ]. split; [exact Hw | ].
  split.
  { rewrite Hlocks. subst st1. cbn.
    now rewrite lock_calls_app, lock_calls_bad_samples, app_nil_r. }
  rewrite Hc1 in Htk, Hworks. auto.
Qed.

End Countdowns.

(* ================================================================= *)
(** ** The drift threshold *)

Lemma diff_le_5_spec (network_time local_time : datetime) :
  diff_le_5 (time_diff network_time local_time) =
  (Z.abs (dt_sub network_time local_time) <=? five_minutes).
Proof.
  unfold diff_le_5, time_diff, total_seconds, five_minutes.
  set (td := dt_sub network_time local_time).
  apply eq_true_iff_eq. rewrite Qle_bool_iff, Qabs_Qle_condition, Z.leb_le.
  unfold Qle, Qdiv, Qmult, Qinv, Qopp; cbn. lia.
Qed.

Lemma diff_gt_5_spec (network_time local_time : datetime) :
  diff_gt_5 (time_diff network_time local_time) =
  (five_minutes <? Z.abs (dt_sub network_time local_time)).
Proof.
  unfold diff_gt_5. fold (diff_le_5 (time_diff network_time local_time)).
  rewrite diff_le_5_spec. symmetry. apply Z.ltb_antisym.
Qed.

(* ================================================================= *)
(** ** The main loop *)

Section MainLoop.

Variable w : World.
Variable self : TimeChecker.

Lemma interp_start_warning (remaining_minutes : Z) (r : reason)
  (countdown : task) (st : State) :
  interp w (start_warning remaining_minutes r countdown) st =
  (Returned tt, started remaining_minutes r countdown st).
Proof.
  unfold start_warning, started, emits, emit, set_warning_active. cbn.
  unfold emit; cbn. now rewrite <- app_assoc.
Qed.

Lemma check_time_try_outside (st st1 : State) :
  interp w (is_time_to_lock self) st = (Returned false, st1) ->
  interp w (check_time_try self) st = (Returned FallThrough, drift_checked w self st1).
Proof.
  intro Hout. unfold check_time_try. rewrite interp_bind, Hout.
  rewrite interp_bind, interp_get_network_time.
  unfold drift_checked, out_of_sync, drift_at, check_logs.
  destruct (first_reply w (clock st1) (ntp_servers self)) as [network_time | ].
  - cbn [bind trigger interp handle emits clock].
    repeat (rewrite interp_bind, interp_logger).
    rewrite interp_bind.
    destruct (diff_gt_5 (time_diff network_time (local_clock w (clock st1)))).
    + cbn [bind trigger interp handle emit emits warning_active andb].
      destruct (warning_active st1); cbn [negb].
      * cbn. f_equal. unfold emits, emit; cbn. now rewrite <- !app_assoc.
      * rewrite interp_start_warning. cbn. f_equal.
        unfold started, emits, emit, set_warning_active; cbn.
        now rewrite <- !app_assoc.
    + cbn. f_equal. unfold emits, emit; cbn. now rewrite <- !app_assoc.
  - rewrite interp_bind, interp_logger.
    cbn [bind trigger interp handle emit emits warning_active andb].
    rewrite interp_bind.
    destruct (warning_active st1); cbn [negb].
    + cbn. f_equal. unfold emits, emit; cbn. now rewrite <- !app_assoc.
    + rewrite interp_start_warning. cbn. f_equal.
      unfold started, emits, emit, set_warning_active; cbn.
      now rewrite <- !app_assoc.
Qed.

Lemma out_of_sync_iff (now : Z) :
  out_of_sync w self now = true <->
  first_reply w now (ntp_servers self) = None \/
  exists network_time,
    first_reply w now (ntp_servers self) = Some network_time /\
    five_minutes < Z.abs (dt_sub network_time (local_clock w now)).
Proof.
  unfold out_of_sync, drift_at.
  destruct (first_reply w now (ntp_servers self)) as [network_time | ].
  - rewrite diff_gt_5_spec, Z.ltb_lt. split.
    + intro H. right. eauto.
    + intros [H | (nt & [= <-] & H)]; [discriminate | exact H].
  - split; auto.
Qed.

(** C5.  A cycle in which the schedule evaluator answers [False] while no
    warning is active reaches the end of its [try] block, and it enters
    the drift warning (sets the flag, starts the dialog thread for 5
    minutes and the thread of [countdown_check]) exactly when no server
    answers or the answer differs from the local clock by more than 5
    minutes; otherwise it starts nothing and leaves the flag [False].  An
    answer 10 minutes ahead of the local clock triggers, an answer 3
    minutes ahead does not. *)
Theorem drift_trigger (st st1 : State) :
  let now := clock st in
  let trigger := out_of_sync w self now in
  warning_active st = false ->
  interp w (is_time_to_lock self) st = (Returned false, st1) ->
  (exists st',
     interp w (check_time_try self) st = (Returned FallThrough, st') /\
     warning_active st' = trigger /\
     starts (trace st') =
     starts (trace st) ++
     (if trigger then [ShowCountdownWarning 5 TimeSync; CountdownCheck]
      else []))
  /\ (trigger = true <->
      first_reply w now (ntp_servers self) = None \/
      exists network_time,
        first_reply w now (ntp_servers self) = Some network_time /\
        five_minutes < Z.abs (dt_sub network_time (local_clock w now)))
  /\ (forall network_time,
        first_reply w now (ntp_servers self) = Some network_time ->
        (dt_sub network_time (local_clock w now) = 10 * 60 * 1000000 ->
         trigger = true) /\
        (dt_sub network_time (local_clock w now) = 3 * 60 * 1000000 ->
         trigger = false)).
Proof.
  intros now trigger Hidle Hout.
  split; [ | split; [apply out_of_sync_iff | ]].
  - exists (drift_checked w self st1).
    split; [now apply check_time_try_outside | ].
    destruct (is_time_to_lock_outcome w self st) as (b & st1' & Hrun & Hq & Hc).
    rewrite Hout in Hrun. injection Hrun as <- <-.
    pose proof (quiet_starts _ _ Hq) as Hs.
    destruct Hq as (Hw & _).
    unfold drift_checked. rewrite Hw, Hidle, Hc. fold now. fold trigger.
    rewrite andb_true_r.
    assert (Hquiet : starts (queries w now (ntp_servers self) ++ check_logs w self now)
                     = []).
    { rewrite starts_app.
      destruct (lock_calls_queries w now (ntp_servers self)) as [_ ->].
      unfold check_logs.
      destruct (first_reply w now (ntp_servers self)); reflexivity. }
    set (tr := queries w now (ntp_servers self) ++ check_logs w self now) in *.
    destruct trigger; unfold started, emits, set_warning_active;
      cbn [trace warning_active clock main_thread];
      rewrite !starts_app, Hquiet, Hs; cbn [starts app];
      rewrite ?app_nil_r; split; congruence.
  - intros network_time Hreply. subst trigger.
    unfold out_of_sync, drift_at. rewrite Hreply, diff_gt_5_spec.
    split; intros ->; reflexivity.
Qed.

(* ----------------------------------------------------------------- *)
(** *** The guard *)

Lemma sleep_outcome (secs : Z) (st : State) :
  exists r st', interp w (sleep secs) st = (r, st') /\ quiet st st' /\
                r <> OutOfFuel.
Proof.
  unfold sleep. cbn.
  destruct (if main_thread st then sleep_interrupt w (clock st) secs else None);
    cbn; eexists _, _; (split; [reflexivity | ]); (split; [ | discriminate]).
  - now apply quiet_emits.
  - eapply quiet_trans; [ | apply quiet_advance]. now apply quiet_emits.
Qed.

Lemma check_time_try_guarded (st : State) :
  warning_active st = true ->
  exists r st',
    interp w (check_time_try self) st = (r, st') /\ quiet st st' /\
    r <> OutOfFuel.
Proof.
  intro Hactive.
  destruct (is_time_to_lock_outcome w self st) as (b & st1 & Hrun & Hq & Hc).
  assert (Hactive1 : warning_active st1 = true)
    by (destruct Hq as (-> & _); exact Hactive).
  destruct b.
  - unfold check_time_try. rewrite interp_bind, Hrun.
    cbn [bind trigger interp handle]. rewrite Hactive1. cbn [negb bind].
    rewrite interp_bind.
    destruct (sleep_outcome 60 st1) as (r & st2 & -> & Hq2 & Hr).
    assert (Hq' : quiet st st2) by (eapply quiet_trans; eassumption).
    destruct r as [[] | e | ]; [ | | contradiction];
      eexists _, _; (split; [reflexivity | ]); (split; [exact Hq' | discriminate]).
  - rewrite (check_time_try_outside _ _ Hrun).
    eexists _, _. split; [reflexivity | ]. split; [ | discriminate].
    eapply quiet_trans; [exact Hq | ].
    unfold drift_checked. rewrite Hactive1, andb_false_r.
    apply quiet_emits.
    + rewrite lock_calls_app.
      destruct (lock_calls_queries w (clock st1) (ntp_servers self)) as [-> _].
      unfold check_logs.
      destruct (first_reply w (clock st1) (ntp_servers self)); reflexivity.
    + rewrite starts_app.
      destruct (lock_calls_queries w (clock st1) (ntp_servers self)) as [_ ->].
      unfold check_logs.
      destruct (first_reply w (clock st1) (ntp_servers self)); reflexivity.
Qed.

Lemma check_time_cycle_guarded (st : State) :
  warning_active st = true ->
  exists r st',
    interp w (check_time_cycle self) st = (r, st') /\ quiet st st' /\
    r <> OutOfFuel.
Proof.
  intro Hactive. unfold check_time_cycle.
  rewrite interp_bind, interp_try_catch.
  destruct (check_time_try_guarded st Hactive) as (r & st1 & -> & Hq & Hr).
  destruct r as [[ | ] | [ | code | msg] | ]; [ | | | | | contradiction];
    cbn [except_Exception].
  - cbn. eexists _, _. split; [reflexivity | ]. split; [exact Hq | discriminate].
  - destruct (sleep_outcome 300 st1) as (r & st2 & -> & Hq2 & Hr2).
    eexists _, _. split; [reflexivity | ].
    split; [eapply quiet_trans; eassumption | exact Hr2].
  - eexists _, _. split; [reflexivity | ]. split; [exact Hq | discriminate].
  - eexists _, _. split; [reflexivity | ]. split; [exact Hq | discriminate].
  - rewrite interp_bind, interp_logger, interp_bind, interp_logger.
    cbn [interp].
    match goal with |- context [interp w (sleep 300) ?s] =>
      destruct (sleep_outcome 300 s) as (r & st2 & -> & Hq2 & Hr2) end.
    eexists _, _. split; [reflexivity | ]. split; [ | exact Hr2].
    eapply quiet_trans; [exact Hq | ].
    eapply quiet_trans; [ | exact Hq2].
    eapply quiet_trans; now apply quiet_emits.
Qed.

Lemma check_time_guarded (fuel : nat) (st : State) :
  warning_active st = true ->
  quiet st (snd (interp w (check_time self fuel) st)).
Proof.
  revert st; induction fuel as [ | fuel IH]; intros st Hactive.
  - apply quiet_refl.
  - cbn [check_time bind trigger interp handle].
    destruct (stop_event w (clock st)); cbn [negb]; [apply quiet_refl | ].
    rewrite interp_bind.
    destruct (check_time_cycle_guarded st Hactive)
      as (r & st1 & -> & Hq & Hr).
    destruct r as [[] | e | ]; [ | exact Hq | contradiction].
    eapply quiet_trans; [exact Hq | ]. apply IH.
    destruct Hq as (-> & _). exact Hactive.
Qed.

(* ----------------------------------------------------------------- *)
(** *** Errors *)

(** An exception of class [Exception] raised inside the [try] block of a
    turn does not leave [check_time]: the turn logs it and goes on to its
    sleep of 300 seconds. *)
Lemma cycle_error_caught (msg : string) (st st1 : State) :
  interp w (check_time_try self) st = (Raised (Exception msg), st1) ->
  interp w (check_time_cycle self) st =
  interp w (sleep 300)
    (emits [OLog ERROR (MsgCheckError msg); OLog ERROR MsgTraceback] st1).
Proof.
  intro Hraise. unfold check_time_cycle.
  rewrite interp_bind, interp_try_catch, Hraise. cbn [except_Exception].
  rewrite interp_bind, interp_logger, interp_bind, interp_logger.
  cbn [interp]. rewrite !emit_as_emits, emits_emits. reflexivity.
Qed.

(** C8.  When a call of [check_time] ends with an exception of class
    [Exception] (one that the turn did not catch), [run] logs the error
    and the traceback and sleeps 10 seconds; when that sleep completes,
    the loop of [run] goes on with its next turn, which calls
    [check_time] again. *)
Theorem run_restarts (cycles fuel : nat) (msg : string) (st st1 : State) :
  interp w (check_time self cycles) st = (Raised (Exception msg), st1) ->
  let logged :=
    emits [OLog ERROR (MsgMainLoopError msg); OLog ERROR MsgTraceback;
           OSleep (clock st1) 10] st1 in
  interp w (run_loop self cycles (S (S fuel))) st =
  match
    (if main_thread st1 then sleep_interrupt w (clock st1) 10 else None)
  with
  | Some e => (Raised e, logged)
  | None =>
      interp w
        (try_catch (check_time self cycles) run_handlers ;;
         run_loop self cycles fuel)
        (advance 10 logged)
  end.
Proof.
  intros Hraise logged. change (run_loop self cycles (S (S fuel)))
    with (try_catch (check_time self cycles) run_handlers ;;
          try_catch (check_time self cycles) run_handlers ;;
          run_loop self cycles fuel).
  rewrite interp_bind, interp_try_catch, Hraise. cbn [run_handlers].
  rewrite interp_bind, interp_logger, interp_bind, interp_logger.
  unfold sleep. cbn [bind trigger interp handle emit clock main_thread].
  subst logged. unfold emits, emit; cbn [clock warning_active main_thread trace].
  rewrite <- !app_assoc. cbn [app].
  destruct (if main_thread st1 then sleep_interrupt w (clock st1) 10 else None);
    reflexivity.
Qed.

End MainLoop.

(* ================================================================= *)
(** ** Concrete runs *)

Lemma time_lock_countdown_spec_witness :
  lock_calls
    (trace (snd (interp (clock_at 21 30) time_lock_countdown thread_start)))
  = [60].
Proof.
  destruct (time_lock_countdown_spec (clock_at 21 30) thread_start eq_refl)
    as [Hrun Hlocks].
  rewrite Hrun. exact Hlocks.
Defined.

Lemma countdown_check_expiry_witness :
  lock_calls
    (trace (snd (interp sources_down (countdown_check init) thread_start)))
  = [300].
Proof.
  destruct (countdown_check_expiry sources_down init thread_start eq_refl
              (fun _ _ => eq_refl) (fun _ _ => eq_refl))
    as (Hrun & Hlocks & _).
  rewrite Hrun. exact Hlocks.
Defined.

Lemma countdown_check_resync_witness :
  exists st',
    interp sources_back_at_20 (countdown_check init) thread_start =
      (Returned tt, st') /\
    warning_active st' = false /\
    lock_calls (trace st') = [] /\
    In (OTk 20 TkShowInfo) (trace st').
Proof.
  destruct (countdown_check_resync sources_back_at_20 init 2 thread_start)
    as (st' & Hrun & Hflag & Hlocks & _ & _ & Hshown).
  - reflexivity.
  - lia.
  - intros j Hj. reflexivity.
  - intros j Hj. assert (Hcases : j = 0 \/ j = 1) by lia.
    destruct Hcases as [-> | ->]; reflexivity.
  - reflexivity.
  - exists st'. split; [exact Hrun | ]. split; [exact Hflag | ].
    split; [exact Hlocks | ].
    destruct Hshown as [tr Htr]; [intro c; reflexivity | ].
    rewrite Htr. apply in_or_app. right. simpl. auto.
Defined.

Lemma drift_trigger_witness :
  exists st',
    interp ten_minutes_ahead (check_time_try init) main_idle =
      (Returned FallThrough, st') /\
    warning_active st' = true /\
    starts (trace st') = [ShowCountdownWarning 5 TimeSync; CountdownCheck].
Proof.
  destruct (drift_trigger ten_minutes_ahead init main_idle main_idle
              eq_refl eq_refl) as [Hrun _].
  exact Hrun.
Defined.

(** The examples of the specification for the drift check. *)
Example drift_examples :
  let ahead minutes :=
    mkWorld (fun _ => mkDatetime 739000 14 30 0 0)
      (fun _ _ => inr (mkDatetime 739000 14 (30 + minutes) 0 0))
      (fun _ => false) (fun _ => None) (fun _ _ => None) (fun _ _ => None) in
  let run wd := snd (interp wd (check_time_try init) main_idle) in
  starts (trace (run (ahead 10))) =
    [ShowCountdownWarning 5 TimeSync; CountdownCheck] /\
  starts (trace (run (ahead 3))) = [] /\
  starts (trace (run (ahead 5))) = [] /\
  starts (trace (run (ahead (-6)))) =
    [ShowCountdownWarning 5 TimeSync; CountdownCheck] /\
  starts (trace (run sources_down)) =
    [ShowCountdownWarning 5 TimeSync; CountdownCheck].
Proof. repeat split. Qed.

Lemma run_restarts_witness :
  exists st1,
    interp interrupted_once (check_time init 1) main_idle =
      (Raised (Exception "interrupted"), st1) /\
    interp interrupted_once (run_loop init 1 2) main_idle =
    interp interrupted_once
      (try_catch (check_time init 1) run_handlers ;; run_loop init 1 0)
      (advance 10
         (emits [OLog ERROR (MsgMainLoopError "interrupted");
                 OLog ERROR MsgTraceback; OSleep 0 10] st1)).
Proof.
  eexists. split; [reflexivity | ].
  exact (run_restarts interrupted_once init 1 0 "interrupted" main_idle _
           eq_refl).
Defined.

Lemma is_time_to_lock_total_witness :
  exists st',
    interp (clock_at 23 30)
      (is_time_to_lock (mkTimeChecker [] [("21:00", "24:00")])) main_idle =
    (Returned false, st').
Proof.
  destruct (is_time_to_lock_total (clock_at 23 30)
              (mkTimeChecker [] [("21:00", "24:00")]) main_idle)
    as (b & st' & Hrun & Hraise).
  destruct (Hraise (Exception "ValueError") main_idle eq_refl) as [Hb _].
  exists st'. rewrite Hb in Hrun. exact Hrun.
Defined.

(** C9, on the code.  The schedule countdown runs while the warning is
    active, inside the window from 21:00 to 23:59.  When the OS lock call
    raises, the failure is logged and the lock is called once, but the
    flag stays [True]: the statement that resets it comes after the call,
    inside the same [try].  From then on no turn of [check_time] starts a
    warning again, although the time is still inside the window.  When
    the call succeeds the flag is reset and the next turn starts a new
    warning. *)
Example lock_failure_keeps_warning_active :
  let after wd := snd (interp wd time_lock_countdown thread_start) in
  let next_turns wd (fuel : nat) :=
    snd (interp wd (check_time init fuel)
           (mkState 60 (warning_active (after wd)) true [])) in
  (lock_calls (trace (after lock_raises)) = [60] /\
   In (OLog ERROR (MsgLockFailed "module 'ctypes' has no attribute 'windll'"))
      (trace (after lock_raises)) /\
   warning_active (after lock_raises) = true /\
   forall fuel, starts (trace (next_turns lock_raises fuel)) = [])
  /\
  (lock_calls (trace (after (clock_at 21 30))) = [60] /\
   warning_active (after (clock_at 21 30)) = false /\
   starts (trace (next_turns (clock_at 21 30) 1%nat)) =
     [ShowCountdownWarning 1 PeriodLock; TimeLockCountdown]).
Proof.
  cbv zeta. split; [ | repeat split].
  split; [reflexivity | ]. split; [simpl; auto 10 | ].
  split; [reflexivity | ]. intro fuel.
  change (warning_active
            (snd (interp lock_raises time_lock_countdown thread_start)))
    with true.
  apply (quiet_starts (mkState 60 true true [])).
  now apply check_time_guarded.
Qed.

(* ================================================================= *)
(** ** The threads together: the invariant *)

Module ThreadsFacts.

Import Threads.

Lemma follows_weaken (in_main : bool) {A : Type} (p : prog A) (ph : phase)
  (Q Q' : A -> phase -> Prop) (QE QE' : exn -> phase -> Prop) :
  (forall a ph', Q a ph' -> Q' a ph') ->
  (forall e ph', QE e ph' -> QE' e ph') ->
  follows in_main p ph Q QE -> follows in_main p ph Q' QE'.
Proof.
  intros HQ HQE. revert ph; induction p as [a | e | X ev k IH | ];
    intros ph H; cbn in *; auto.
  intros x Hx. destruct (H x Hx) as (ph' & Hstep & Hk). eauto.
Qed.

Lemma follows_bind (in_main : bool) {A B : Type} (p : prog A)
  (f : A -> prog B) (ph : phase)
  (Q : B -> phase -> Prop) (QE : exn -> phase -> Prop) :
  follows in_main p ph (fun a ph' => follows in_main (f a) ph' Q QE) QE ->
  follows in_main (bind p f) ph Q QE.
Proof.
  revert ph; induction p as [a | e | X ev k IH | ]; intros ph H; cbn in *;
    auto.
  intros x Hx. destruct (H x Hx) as (ph' & Hstep & Hk). eauto.
Qed.

Lemma follows_try_catch (in_main : bool) {A : Type} (p : prog A)
  (h : exn -> option (prog A)) (ph : phase)
  (Q : A -> phase -> Prop) (QE : exn -> phase -> Prop) :
  follows in_main p ph Q
    (fun e ph' =>
       match h e with
       | Some q => follows in_main q ph' Q QE
       | None => QE e ph'
       end) ->
  follows in_main (try_catch p h) ph Q QE.
Proof.
  revert ph; induction p as [a | e | X ev k IH | ]; intros ph H; cbn in *;
    auto.
  - destruct (h e); exact H.
  - intros x Hx. destruct (H x Hx) as (ph' & Hstep & Hk). eauto.
Qed.

Lemma follows_for_each (in_main : bool) {X A : Type} (xs : list X)
  (body : X -> prog (flow A)) (after : prog A)
  (I : phase -> Prop) (Q : A -> phase -> Prop) (QE : exn -> phase -> Prop) :
  (forall x ph, I ph ->
     follows in_main (body x) ph
       (fun r ph' => match r with Next => I ph' | Return a => Q a ph' end)
       QE) ->
  (forall ph, I ph -> follows in_main after ph Q QE) ->
  forall ph, I ph -> follows in_main (for_each xs body after) ph Q QE.
Proof.
  intros Hbody Hafter. induction xs as [ | x xs IH]; intros ph HI;
    cbn [for_each]; [now apply Hafter | ].
  apply follows_bind. eapply follows_weaken; [ | | apply Hbody, HI];
    [ | auto].
  intros [ | a] ph' H; cbn; auto.
Qed.

(* ----------------------------------------------------------------- *)
(** *** Programs that leave the phase alone *)

Lemma next_phase_harmless (ph : phase) {X : Type} (ev : event X) (x : X) :
  harmless_event ev -> next_phase ph ev x = Some ph.
Proof. destruct ev; cbn; intro H; try reflexivity; contradiction. Qed.

Section Neutral.

Variable in_main : bool.

Lemma neutral_ret (E : exn -> Prop) {A : Type} (a : A) :
  neutral in_main E (Ret a).
Proof. intro ph. reflexivity. Qed.

Lemma neutral_raise (E : exn -> Prop) {A : Type} (e : exn) :
  E e -> neutral in_main E (@Raise A e).
Proof. intros He ph. cbn. auto. Qed.

Lemma neutral_vis (E : exn -> Prop) {A X : Type} (ev : event X)
  (k : X -> prog A) :
  harmless_event ev ->
  (forall x, possible in_main ev x -> neutral in_main E (k x)) ->
  neutral in_main E (Vis ev k).
Proof.
  intros Hev Hk ph x Hx. exists ph.
  split; [now apply next_phase_harmless | now apply Hk].
Qed.

Lemma neutral_weaken (E E' : exn -> Prop) {A : Type} (p : prog A) :
  (forall e, E e -> E' e) -> neutral in_main E p -> neutral in_main E' p.
Proof.
  intros HE Hp ph. eapply follows_weaken; [ | | apply Hp]; cbn; auto.
  intros e ph' [-> He]. auto.
Qed.

Lemma follows_neutral_bind (E : exn -> Prop) {A B : Type} (p : prog A)
  (f : A -> prog B) (ph : phase)
  (Q : B -> phase -> Prop) (QE : exn -> phase -> Prop) :
  neutral in_main E p ->
  (forall a, follows in_main (f a) ph Q QE) ->
  (forall e, E e -> QE e ph) ->
  follows in_main (bind p f) ph Q QE.
Proof.
  intros Hp Hf HE. apply follows_bind.
  eapply follows_weaken; [ | | apply Hp]; cbn.
  - intros a ph' ->. apply Hf.
  - intros e ph' [-> He]. auto.
Qed.

Lemma neutral_bind (E : exn -> Prop) {A B : Type} (p : prog A)
  (f : A -> prog B) :
  neutral in_main E p -> (forall a, neutral in_main E (f a)) ->
  neutral in_main E (bind p f).
Proof.
  intros Hp Hf ph. eapply follows_neutral_bind; [exact Hp | | ]; cbn; auto.
  intro a. apply Hf.
Qed.

Lemma neutral_try_catch (E1 E : exn -> Prop) {A : Type} (p : prog A)
  (h : exn -> option (prog A)) :
  neutral in_main E1 p ->
  (forall e, E1 e ->
     match h e with Some q => neutral in_main E q | None => E e end) ->
  neutral in_main E (try_catch p h).
Proof.
  intros Hp Hh ph. apply follows_try_catch.
  eapply follows_weaken; [ | | apply Hp]; cbn; auto.
  intros e ph' [-> He]. specialize (Hh e He).
  destruct (h e); [apply Hh | auto].
Qed.

Lemma neutral_except_Exception (E : exn -> Prop) {A : Type} (p : prog A)
  (h : string -> prog A) :
  neutral in_main is_Exception p ->
  (forall msg, neutral in_main E (h msg)) ->
  neutral in_main E (try_catch p (except_Exception h)).
Proof.
  intros Hp Hh. eapply neutral_try_catch; [exact Hp | ].
  intros e [msg ->]. apply Hh.
Qed.

Lemma neutral_for_each (E : exn -> Prop) {X A : Type} (xs : list X)
  (body : X -> prog (flow A)) (after : prog A) :
  (forall x, neutral in_main E (body x)) ->
  neutral in_main E after ->
  neutral in_main E (for_each xs body after).
Proof.
  intros Hbody Hafter. induction xs as [ | x xs IH]; [exact Hafter | ].
  cbn [for_each]. apply neutral_bind; [apply Hbody | ].
  intros [ | a]; [exact IH | apply neutral_ret].
Qed.

Lemma neutral_logger (E : exn -> Prop) (l : level) (m : log_msg) :
  neutral in_main E (logger l m).
Proof.
  apply neutral_vis; [exact I | ]. intros x _. apply neutral_ret.
Qed.

Lemma neutral_raising_tk (c : tk_call) :
  neutral in_main is_Exception (raising (Tk c)).
Proof.
  apply neutral_vis; [exact I | ]. intros [msg | ] _;
    [apply neutral_raise; now exists msg | apply neutral_ret].
Qed.

Lemma neutral_strptime (s : string) : neutral in_main is_Exception (strptime s).
Proof.
  unfold strptime. destruct (strptime_HM s);
    [apply neutral_ret | apply neutral_raise; now eexists].
Qed.

Lemma neutral_check_window (cur : string) (win : string * string) :
  neutral in_main is_Exception (check_window cur win).
Proof.
  destruct win as [start_time end_time]. unfold check_window.
  apply neutral_bind; [apply neutral_strptime | intro current].
  apply neutral_bind; [apply neutral_strptime | intro start].
  apply neutral_bind; [apply neutral_strptime | intro end_].
  destruct (String.ltb end_time start_time);
    [ destruct (dt_geb current start || dt_leb current end_)
    | destruct (dt_leb start current && dt_leb current end_) ];
    try apply neutral_ret;
    (apply neutral_bind; [apply neutral_logger | intro; apply neutral_ret]).
Qed.

Lemma neutral_is_time_to_lock (self : TimeChecker) :
  neutral in_main never (is_time_to_lock self).
Proof.
  unfold is_time_to_lock. apply neutral_except_Exception.
  - unfold is_time_to_lock_try. apply neutral_vis; [exact I | ].
    intros current_time _. cbn [bind].
    apply neutral_for_each; [apply neutral_check_window | apply neutral_ret].
  - intro msg. apply neutral_bind; [apply neutral_logger | intro].
    apply neutral_bind; [apply neutral_logger | intro]. apply neutral_ret.
Qed.

Lemma neutral_try_server (server : string) :
  neutral in_main never (try_server server).
Proof.
  unfold try_server. apply neutral_except_Exception.
  - apply neutral_vis; [exact I | ]. intros [e | tx_time] _; cbn [bind].
    + apply neutral_raise. now exists e.
    + apply neutral_bind; [apply neutral_logger | intro; apply neutral_ret].
  - intro msg. apply neutral_bind; [apply neutral_logger | intro].
    apply neutral_ret.
Qed.

Lemma neutral_get_network_time (self : TimeChecker) :
  neutral in_main never (get_network_time self).
Proof.
  apply neutral_for_each; [apply neutral_try_server | apply neutral_ret].
Qed.

End Neutral.

(** In the main thread a sleep may raise anything, in another thread
    nothing. *)
Lemma neutral_sleep_main (secs : Z) : neutral true any (sleep secs).
Proof.
  apply neutral_vis; [exact I | ]. intros [e | ] _;
    [now apply neutral_raise | apply neutral_ret].
Qed.

Lemma neutral_sleep_thread (secs : Z) : neutral false never (sleep secs).
Proof.
  apply neutral_vis; [exact I | ]. intros x Hx. cbn in Hx.
  rewrite (Hx eq_refl). apply neutral_ret.
Qed.

Lemma neutral_safe_tk_operation (operation : tk_call) :
  neutral false never (safe_tk_operation operation).
Proof.
  unfold safe_tk_operation. apply neutral_for_each; [ | apply neutral_ret].
  intro attempt. unfold safe_tk_try. apply neutral_except_Exception.
  - apply neutral_bind; [ | intro; apply neutral_ret]. unfold tk_attempt.
    repeat (apply neutral_bind; [apply neutral_raising_tk | intro]).
    apply neutral_raising_tk.
  - intro msg. apply neutral_bind; [apply neutral_logger | intro].
    apply neutral_bind;
      [destruct (attempt =? _); [apply neutral_logger | apply neutral_ret]
      | intro].
    apply neutral_bind; [apply neutral_sleep_thread | intro].
    apply neutral_ret.
Qed.

Lemma neutral_conforms (in_main : bool) (E : exn -> Prop) (ph : phase)
  (p : prog unit) :
  neutral in_main E p -> conforms in_main ph p.
Proof.
  intro Hp. eapply follows_weaken; [ | | apply Hp]; cbn; auto.
Qed.

(* ----------------------------------------------------------------- *)
(** *** The phases of the methods *)

Lemma follows_lock_windows (in_main : bool)
  (Q : unit -> phase -> Prop) (QE : exn -> phase -> Prop) :
  Q tt Pending -> Q tt Spent ->
  follows in_main lock_windows Pending Q QE.
Proof.
  intros HP HS. unfold lock_windows. cbn.
  intros [] _. eexists; split; [reflexivity | ].
  intros [msg | ] _; (eexists; split; [reflexivity | ]); cbn.
  - intros [] _. eexists; split; [reflexivity | ].
    intros [] _. eexists; split; [reflexivity | ]. exact HP.
  - intros [] _. eexists; split; [reflexivity | ]. exact HS.
Qed.

Lemma conforms_show_countdown_warning (remaining_minutes : Z) (r : reason) :
  conforms false Spent (show_countdown_warning remaining_minutes r).
Proof.
  apply (neutral_conforms false never). unfold show_countdown_warning.
  apply neutral_bind; [apply neutral_safe_tk_operation | intro].
  apply neutral_ret.
Qed.

Lemma conforms_time_lock_countdown :
  conforms false Pending time_lock_countdown.
Proof.
  unfold conforms, time_lock_countdown. apply follows_try_catch.
  eapply follows_neutral_bind;
    [apply (neutral_logger false never) | intros [] | intros e []].
  eapply follows_neutral_bind;
    [apply neutral_sleep_thread | intros [] | intros e []].
  cbn [bind trigger follows]. intros stopped _.
  eexists; split; [reflexivity | ].
  destruct stopped; cbn [negb]; [exact I | ].
  apply follows_lock_windows; exact I.
Qed.

Section Methods.

Variable self : TimeChecker.

Lemma follows_resync_sample :
  follows false (resync_sample self) Pending
    (fun r ph' => match r with Next => ph' = Pending | Return _ => True end)
    (fun _ _ => False).
Proof.
  unfold resync_sample, suppress_Exception. apply follows_try_catch.
  eapply follows_neutral_bind;
    [apply (neutral_get_network_time false) | | intros e []].
  intros [network_time | ]; [ | reflexivity].
  cbn [bind trigger follows]. intros local_time _.
  eexists; split; [reflexivity | ].
  do 3 (eapply follows_neutral_bind;
          [apply (neutral_logger false never) | intros [] | intros e []]).
  destruct (diff_le_5 (time_diff network_time local_time)); [ | reflexivity].
  eapply follows_neutral_bind;
    [apply (neutral_logger false never) | intros [] | intros e []].
  cbn [bind trigger follows]. intros [] _.
  eexists; split; [reflexivity | ].
  eapply (follows_neutral_bind false never);
    [ | intros [] | intros e []]; [ | exact I].
  unfold show_normal_message.
  apply neutral_bind; [apply neutral_safe_tk_operation | intro].
  apply neutral_ret.
Qed.

Lemma follows_countdown_sample (i : Z) :
  follows false (countdown_sample self i) Pending
    (fun r ph' => match r with Next => ph' = Pending | Return _ => True end)
    (fun _ _ => True).
Proof.
  unfold countdown_sample. cbn [bind trigger follows]. intros stopped _.
  eexists; split; [reflexivity | ].
  destruct stopped; [exact I | ].
  apply follows_bind.
  eapply follows_weaken; [ | | apply follows_resync_sample];
    [ | intros e ph' []].
  intros [ | []] ph' H; [ | exact I]. subst ph'.
  eapply follows_neutral_bind;
    [apply (neutral_logger false never) | intros [] | intros e []].
  eapply follows_neutral_bind;
    [apply neutral_sleep_thread | intros [] | intros e []].
  reflexivity.
Qed.

Lemma conforms_countdown_check : conforms false Pending (countdown_check self).
Proof.
  unfold conforms, countdown_check. apply follows_try_catch.
  apply (follows_for_each false (range 30) (countdown_sample self) _
           (fun ph => ph = Pending)); [ | | reflexivity].
  - intros i ph ->.
    eapply follows_weaken; [ | | apply follows_countdown_sample]; cbn; auto.
    intros e ph' _. destruct e as [ | code | msg]; [exact I | exact I | ].
    change (conforms false ph'
              (logger ERROR (MsgCountdownError msg) ;;
               logger ERROR MsgTraceback)).
    apply (neutral_conforms false never).
    apply neutral_bind; [apply neutral_logger | intro]. apply neutral_logger.
  - intros ph ->. cbn [bind trigger follows]. intros stopped _.
    eexists; split; [reflexivity | ].
    destruct stopped; cbn [negb]; [exact I | ].
    apply follows_lock_windows; exact I.
Qed.

Lemma conforms_task_body (t : task) :
  conforms false
    match t with ShowCountdownWarning _ _ => Spent | _ => Pending end
    (task_body self t).
Proof.
  destruct t as [remaining_minutes r | | ]; cbn [task_body].
  - apply conforms_show_countdown_warning.
  - apply conforms_time_lock_countdown.
  - apply conforms_countdown_check.
Qed.

(** The guarded entry into a warning cycle, in the main thread. *)
Lemma follows_guard (remaining_minutes : Z) (r : reason) (countdown : task)
  {A : Type} (rest : prog A) (ph : phase)
  (Q : A -> phase -> Prop) (QE : exn -> phase -> Prop) :
  main_phase ph ->
  countdown = TimeLockCountdown \/ countdown = CountdownCheck ->
  (forall ph', main_phase ph' -> follows true rest ph' Q QE) ->
  follows true
    (warning_active <- trigger GetWarningActive ;;
     (if negb warning_active
      then start_warning remaining_minutes r countdown
      else Ret tt) ;;
     rest) ph Q QE.
Proof.
  intros Hph Hc Hrest. cbn [bind trigger follows]. intros active _.
  exists (if active then Unknown else SawFalse).
  split; [destruct Hph as [-> | [-> | ->]]; reflexivity | ].
  destruct active; cbn [negb bind].
  - apply Hrest. now left.
  - unfold start_warning. cbn [bind trigger follows].
    intros [] _. eexists; split; [reflexivity | ].
    intros [] _. eexists; split; [reflexivity | ].
    intros [] _. exists Unknown.
    split; [destruct Hc as [-> | ->]; reflexivity | ].
    apply Hrest. now left.
Qed.

Lemma follows_check_time_try (ph : phase) :
  main_phase ph ->
  follows true (check_time_try self) ph
    (fun _ ph' => main_phase ph') (fun _ ph' => main_phase ph').
Proof.
  intro Hph. unfold check_time_try.
  eapply follows_neutral_bind;
    [apply (neutral_is_time_to_lock true) | | intros e []].
  intros [ | ].
  - apply follows_guard; [exact Hph | now left | ].
    intros ph' Hph'.
    eapply follows_neutral_bind; [apply neutral_sleep_main | | ]; cbn; auto.
  - eapply follows_neutral_bind;
      [apply (neutral_get_network_time true) | | intros e []].
    intros [network_time | ].
    + cbn [bind trigger follows]. intros local_time _.
      eexists; split; [reflexivity | ].
      do 3 (eapply follows_neutral_bind;
              [apply (neutral_logger true never) | intros [] | intros e []]).
      destruct (diff_gt_5 (time_diff network_time local_time)).
      * change (follows true
          (warning_active <- trigger GetWarningActive ;;
           (if negb warning_active
            then start_warning 5 TimeSync CountdownCheck else Ret tt) ;;
           Ret FallThrough) ph
          (fun _ ph' => main_phase ph') (fun _ ph' => main_phase ph')).
        apply follows_guard; [exact Hph | now right | ]. cbn. auto.
      * exact Hph.
    + eapply follows_neutral_bind;
        [apply (neutral_logger true never) | intros [] | intros e []].
      apply follows_guard; [exact Hph | now right | ]. cbn. auto.
Qed.

Lemma follows_check_time_cycle (ph : phase) :
  main_phase ph ->
  follows true (check_time_cycle self) ph
    (fun _ ph' => main_phase ph') (fun _ ph' => main_phase ph').
Proof.
  intro Hph. unfold check_time_cycle. apply follows_bind, follows_try_catch.
  eapply follows_weaken; [ | | apply follows_check_time_try, Hph]; cbv beta.
  - intros [ | ] ph' Hph'; [exact Hph' | ].
    eapply follows_weaken; [ | | apply neutral_sleep_main]; cbn.
    + intros _ ph'' ->. exact Hph'.
    + intros e ph'' [-> _]. exact Hph'.
  - intros e ph' Hph'.
    destruct e as [ | code | msg]; cbn [except_Exception];
      [exact Hph' | exact Hph' | ].
    do 2 (eapply follows_neutral_bind;
            [apply (neutral_logger true never) | intros [] | intros e []]).
    cbn [follows].
    eapply follows_weaken; [ | | apply neutral_sleep_main]; cbn.
    + intros _ ph'' ->. exact Hph'.
    + intros e ph'' [-> _]. exact Hph'.
Qed.

Lemma follows_check_time (fuel : nat) (ph : phase) :
  main_phase ph ->
  follows true (check_time self fuel) ph
    (fun _ ph' => main_phase ph') (fun _ ph' => main_phase ph').
Proof.
  revert ph; induction fuel as [ | fuel IH]; intros ph Hph; [exact I | ].
  cbn [check_time bind trigger follows]. intros stopped _.
  eexists; split; [reflexivity | ].
  destruct stopped; cbn [negb]; [exact Hph | ].
  apply follows_bind.
  eapply follows_weaken; [ | | apply follows_check_time_cycle, Hph]; cbn; auto.
Qed.

Lemma follows_run_loop (cycles fuel : nat) (ph : phase) :
  main_phase ph ->
  follows true (run_loop self cycles fuel) ph
    (fun _ ph' => main_phase ph') (fun _ ph' => main_phase ph').
Proof.
  revert ph; induction fuel as [ | fuel IH]; intros ph Hph; [exact I | ].
  cbn [run_loop]. apply follows_bind, follows_try_catch.
  eapply follows_weaken; [ | | apply follows_check_time, Hph]; cbv beta;
    [intros [] ph' Hph'; now apply IH | ].
  intros e ph' Hph'. destruct e as [ | code | msg]; cbn [run_handlers].
  - eapply follows_weaken; [ | | apply (neutral_logger true never)]; cbn.
    + intros _ ph'' ->. now apply IH.
    + intros e ph'' [_ []].
  - exact Hph'.
  - do 2 (eapply follows_neutral_bind;
            [apply (neutral_logger true never) | intros [] | intros e []]).
    eapply follows_weaken; [ | | apply neutral_sleep_main]; cbn.
    + intros _ ph'' ->. now apply IH.
    + intros e ph'' [-> _]. exact Hph'.
Qed.

Lemma conforms_run (cycles fuel : nat) :
  conforms true Unknown (run self cycles fuel).
Proof.
  unfold conforms, run.
  eapply follows_neutral_bind;
    [apply (neutral_logger true never) | intros [] | intros e []].
  eapply follows_weaken; [ | | apply follows_run_loop]; cbn; auto.
  now left.
Qed.

End Methods.

(* ----------------------------------------------------------------- *)
(** *** The invariant *)

Lemma pending_app (phs1 phs2 : list phase) :
  pending (phs1 ++ phs2) = (pending phs1 + pending phs2)%nat.
Proof. apply count_occ_app. Qed.

Lemma pending_zero (phs : list phase) : ~ In Pending phs -> pending phs = 0%nat.
Proof. apply count_occ_not_In. Qed.

Lemma pending_pos (phs : list phase) : In Pending phs -> (0 < pending phs)%nat.
Proof. apply count_occ_In. Qed.

Lemma possible_main {X : Type} (ev : event X) (x : X) : possible true ev x.
Proof. destruct ev; cbn; auto. discriminate. Qed.

Lemma allowed_possible (b : bool) {X : Type} (ev : event X) (x : X) :
  allowed false b ev x -> possible false ev x.
Proof. destruct ev; cbn; auto. Qed.

Section Invariant.

Variable self : TimeChecker.

Lemma started_ok {X : Type} (ev : event X) :
  Forall2 thread_ok (map phase_of_task (started_by ev))
    (map (task_body self) (started_by ev)).
Proof.
  destruct ev; cbn; constructor; [ | constructor].
  split; [destruct t; cbn; [now right | now left | now left] | ].
  apply conforms_task_body.
Qed.

Lemma invariant_boot (cycles fuel : nat) : invariant (boot self cycles fuel).
Proof.
  exists Unknown, []. cbn.
  split; [now left | ]. split; [apply conforms_run | ].
  split; [constructor | ]. split; [lia | ].
  split; [intros [] | discriminate].
Qed.

Lemma invariant_intro (b : bool) (m : prog unit) (ths : list (prog unit))
  (mph : phase) (phs : list phase) :
  main_phase mph -> conforms true mph m -> Forall2 thread_ok phs ths ->
  (pending phs <= 1)%nat ->
  (In Pending phs -> b = true /\ mph = Unknown) ->
  (mph = Armed -> b = true) ->
  invariant (mkPool b m ths).
Proof. intros. exists mph, phs. cbn. auto 10. Qed.

Lemma invariant_step_main (b : bool) {X : Type} (ev : event X)
  (k : X -> prog unit) (x : X) (ths : list (prog unit)) :
  allowed true b ev x ->
  invariant (mkPool b (Vis ev k) ths) ->
  invariant (mkPool (flag_after b ev) (k x)
               (ths ++ map (task_body self) (started_by ev))).
Proof.
  intros Hal (mph & phs & Hmph & Hmain & Hths & Hcount & Hflag & Harmed).
  cbn [flag main threads] in *.
  destruct (Hmain x (possible_main ev x)) as (ph' & Hnext & Hk).
  fold (conforms true ph' (k x)) in Hk.
  pose proof (started_ok ev) as Hnew.
  destruct ev; cbn [flag_after started_by map] in *; cbn in Hnext, Hal;
    rewrite ?app_nil_r;
    try (injection Hnext as <-; now apply (invariant_intro _ _ _ mph phs)).
  - (* reads the flag *)
    subst x.
    assert (Hph' : ph' = if b then Unknown else SawFalse)
      by (destruct Hmph as [-> | [-> | ->]]; congruence).
    apply (invariant_intro _ _ _ ph' phs);
      [ | exact Hk | exact Hths | exact Hcount | | ].
    + destruct b; subst ph'; [now left | right; now left].
    + intro Hin. destruct (Hflag Hin) as [-> _]. now split.
    + intros ->. destruct b; discriminate.
  - (* sets the flag *)
    assert (Hcase : mph = SawFalse /\ b0 = true /\ ph' = Armed).
    { destruct Hmph as [-> | [-> | ->]]; destruct b0; try discriminate.
      now injection Hnext as <-. }
    destruct Hcase as (-> & -> & ->).
    apply (invariant_intro _ _ _ Armed phs);
      [ | exact Hk | exact Hths | exact Hcount | | reflexivity].
    + right; now right.
    + intro Hin. destruct (Hflag Hin) as [_ Hbad]. discriminate.
  - (* does not lock *)
    destruct Hmph as [-> | [-> | ->]]; discriminate.
  - (* starts a thread *)
    assert (Hths' : Forall2 thread_ok (phs ++ [phase_of_task t])
                      (ths ++ [task_body self t]))
      by (apply Forall2_app; assumption).
    assert (Hcase :
      match t with
      | ShowCountdownWarning _ _ => ph' = mph
      | _ => mph = Armed /\ ph' = Unknown
      end).
    { destruct t; [congruence | | ];
        (destruct Hmph as [-> | [-> | ->]]; try discriminate;
         now injection Hnext as <-). }
    destruct t as [remaining_minutes r | | ]; cbn [phase_of_task] in Hths'.
    + subst ph'.
      apply (invariant_intro _ _ _ mph (phs ++ [Spent]));
        [exact Hmph | exact Hk | exact Hths' | | | exact Harmed].
      * rewrite pending_app. cbn. lia.
      * intro Hin. apply Hflag. apply in_app_or in Hin.
        destruct Hin as [Hin | [Hin | []]]; [exact Hin | discriminate].
    + destruct Hcase as [-> ->].
      assert (Hnone : ~ In Pending phs)
        by (intro Hin; destruct (Hflag Hin) as [_ Hbad]; discriminate).
      apply (invariant_intro _ _ _ Unknown (phs ++ [Pending]));
        [now left | exact Hk | exact Hths' | | | discriminate].
      * rewrite pending_app, (pending_zero _ Hnone). cbn. lia.
      * intros _. split; [now apply Harmed | reflexivity].
    + destruct Hcase as [-> ->].
      assert (Hnone : ~ In Pending phs)
        by (intro Hin; destruct (Hflag Hin) as [_ Hbad]; discriminate).
      apply (invariant_intro _ _ _ Unknown (phs ++ [Pending]));
        [now left | exact Hk | exact Hths' | | | discriminate].
      * rewrite pending_app, (pending_zero _ Hnone). cbn. lia.
      * intros _. split; [now apply Harmed | reflexivity].
Qed.

Lemma pending_cons (ph : phase) (phs : list phase) :
  pending (ph :: phs) =
  ((match ph with Pending => 1 | _ => 0 end) + pending phs)%nat.
Proof. unfold pending. destruct ph; reflexivity. Qed.

Lemma invariant_step_thread (b : bool) (m : prog unit) {X : Type}
  (ev : event X) (k : X -> prog unit) (x : X)
  (before after : list (prog unit)) :
  allowed false b ev x ->
  invariant (mkPool b m (before ++ Vis ev k :: after)) ->
  invariant (mkPool (flag_after b ev) m
               (before ++ k x :: after ++
                map (task_body self) (started_by ev))).
Proof.
  intros Hal (mph & phs & Hmph & Hmain & Hths & Hcount & Hflag & Harmed).
  cbn [flag main threads] in *.
  apply Forall2_app_inv_r in Hths.
  destruct Hths as (phs1 & phsr & Hbefore & Hrest & ->).
  inversion Hrest as [ | ph p phs2 after' [Hph Hp] Hafter]; subst.
  destruct (Hp x (allowed_possible b ev x Hal)) as (ph' & Hnext & Hk).
  fold (conforms false ph' (k x)) in Hk.
  pose proof (started_ok ev) as Hnew.
  rewrite pending_app, pending_cons in Hcount.
  assert (Hths' : forall ph'', thread_phase ph'' -> conforms false ph'' (k x) ->
            Forall2 thread_ok
              (phs1 ++ ph'' :: phs2 ++ map phase_of_task (started_by ev))
              (before ++ k x :: after ++
               map (task_body self) (started_by ev))).
  { intros ph'' H1 H2. apply Forall2_app; [exact Hbefore | ].
    constructor; [now split | ]. now apply Forall2_app. }
  assert (Hsame : ph' = ph -> flag_after b ev = b -> started_by ev = [] ->
            invariant (mkPool (flag_after b ev) m
               (before ++ k x :: after ++
                map (task_body self) (started_by ev)))).
  { intros -> Hb Hs. specialize (Hths' ph Hph Hk). rewrite Hs in *.
    cbn [map] in *. rewrite !app_nil_r in *. rewrite Hb.
    apply (invariant_intro _ _ _ mph (phs1 ++ ph :: phs2));
      [exact Hmph | exact Hmain | exact Hths' | | exact Hflag | exact Harmed].
    now rewrite pending_app, pending_cons. }
  destruct ev; cbn in Hnext;
    try (apply Hsame; [congruence | reflexivity | reflexivity]).
  - (* does not read the flag *)
    destruct Hph as [-> | ->]; discriminate.
  - (* resets the flag *)
    assert (Hcase : ph = Pending /\ b0 = false /\ ph' = Spent).
    { destruct Hph as [-> | ->]; destruct b0; try discriminate.
      now injection Hnext as <-. }
    destruct Hcase as (-> & -> & ->).
    specialize (Hths' Spent (or_intror eq_refl) Hk).
    cbn [flag_after started_by map] in *. rewrite !app_nil_r in *.
    assert (Hmph' : mph = Unknown).
    { apply Hflag. apply in_or_app. right. now left. }
    assert (Hnone : ~ In Pending (phs1 ++ Spent :: phs2)).
    { intro Hin. apply pending_pos in Hin.
      rewrite pending_app, pending_cons in Hin. lia. }
    apply (invariant_intro _ _ _ mph (phs1 ++ Spent :: phs2));
      [exact Hmph | exact Hmain | exact Hths' | | | ].
    + rewrite pending_app, pending_cons. lia.
    + intro Hin. contradiction.
    + intros ->. discriminate.
  - (* locks *)
    apply Hsame; [ | reflexivity | reflexivity].
    destruct Hph as [-> | ->]; [congruence | discriminate].
  - (* starts no countdown *)
    destruct t as [remaining_minutes r | | ];
      [ | destruct Hph as [-> | ->]; discriminate ..].
    injection Hnext as <-. specialize (Hths' ph Hph Hk).
    cbn [flag_after started_by map phase_of_task] in *.
    apply (invariant_intro _ _ _ mph (phs1 ++ ph :: phs2 ++ [Spent]));
      [exact Hmph | exact Hmain | exact Hths' | | | exact Harmed].
    + rewrite pending_app, pending_cons, pending_app. cbn. lia.
    + intro Hin. apply Hflag. rewrite in_app_iff in *. cbn [In] in *.
      rewrite in_app_iff in Hin. cbn [In] in Hin.
      destruct Hin as [Hin | [Hin | [Hin | [Hin | []]]]]; auto.
      discriminate.
Qed.

Lemma invariant_step (P Q : Pool) : step self P Q -> invariant P -> invariant Q.
Proof.
  intros [b X ev k x ths Hal | b m X ev k x before after Hal].
  - now apply invariant_step_main.
  - now apply invariant_step_thread.
Qed.

Lemma invariant_reachable (start P : Pool) :
  invariant start -> reachable self start P -> invariant P.
Proof.
  intros Hstart Hreach. induction Hreach as [ | P Q _ IH Hstep];
    [exact Hstart | ].
  eapply invariant_step; eassumption.
Qed.

Lemma spent_not_counting (p : prog unit) :
  counting_down p -> conforms false Spent p -> False.
Proof.
  induction 1 as [k | b k | X ev k x Hx Hcount IH]; intro Hp.
  - destruct (Hp None I) as (ph' & Hnext & _). discriminate.
  - destruct (Hp tt I) as (ph' & Hnext & _). destruct b; discriminate.
  - destruct (Hp x Hx) as (ph' & Hnext & Hk). apply IH.
    assert (ph' = Spent); [ | now subst].
    destruct ev; cbn in Hnext;
      repeat match type of Hnext with
             | match ?t with _ => _ end = Some _ => destruct t
             end;
      congruence.
Qed.

Lemma counting_is_pending (ph : phase) (p : prog unit) :
  thread_ok ph p -> counting_down p -> ph = Pending.
Proof.
  intros [[-> | ->] Hp] Hcount; [reflexivity | ].
  destruct (spent_not_counting p Hcount Hp).
Qed.

(** In every pool the process can reach, at most one started thread is
    still counting down, and while one is, the warning flag is [True]. *)
Lemma one_countdown (cycles fuel : nat) (P : Pool) :
  reachable self (boot self cycles fuel) P ->
  (forall before p between q after,
     threads P = before ++ p :: between ++ q :: after ->
     counting_down p -> counting_down q -> False) /\
  (forall p, In p (threads P) -> counting_down p -> flag P = true).
Proof.
  intro Hreach.
  destruct (invariant_reachable _ _ (invariant_boot cycles fuel) Hreach)
    as (mph & phs & _ & _ & Hths & Hcount & Hflag & _).
  split.
  - intros before p between q after Hsplit Hp Hq. rewrite Hsplit in Hths.
    apply Forall2_app_inv_r in Hths.
    destruct Hths as (phs1 & phsr & _ & Hrest & ->).
    inversion Hrest as [ | ph1 p' phsr' rest' Hok1 Hrest']; subst.
    apply Forall2_app_inv_r in Hrest'.
    destruct Hrest' as (phs2 & phsr2 & _ & Hrest2 & ->).
    inversion Hrest2 as [ | ph2 q' phs3 after' Hok2 _]; subst.
    rewrite (counting_is_pending _ _ Hok1 Hp) in Hcount.
    rewrite (counting_is_pending _ _ Hok2 Hq) in Hcount.
    rewrite pending_app, pending_cons, pending_app, pending_cons in Hcount.
    lia.
  - intros p Hin Hp. apply Hflag.
    apply In_nth_error in Hin. destruct Hin as [n Hn].
    clear Hcount Hflag. revert n Hn.
    induction Hths as [ | ph q phs' ths' Hok _ IH]; intros [ | n] Hn;
      try discriminate.
    + injection Hn as ->. left.
      eapply counting_is_pending; eassumption.
    + right. eapply IH. exact Hn.
Qed.

End Invariant.

(* ----------------------------------------------------------------- *)
(** *** A run that starts a countdown *)

Lemma reachable_first (self : TimeChecker) (start P Q : Pool) :
  step self start P -> reachable self P Q -> reachable self start Q.
Proof.
  intros Hstep Hreach. induction Hreach as [ | Q R _ IH Hstep'].
  - eapply reachable_step; [apply reachable_start | exact Hstep].
  - eapply reachable_step; eassumption.
Qed.

Lemma schedule_trigger_reachable :
  exists m,
    reachable init (boot init 1 1)
      (mkPool true m
         [show_countdown_warning 1 PeriodLock; time_lock_countdown]).
Proof.
  eexists.
  eapply reachable_first.
  { unfold boot, run. cbn [bind logger trigger].
    apply (step_main init false (Log INFO MsgStarted) _ tt []). exact I. }
  cbn [flag_after started_by map app run_loop check_time bind trigger try_catch].
  eapply reachable_first.
  { apply (step_main init false StopIsSet _ false []). exact I. }
  cbn [flag_after started_by map app negb].
  eapply reachable_first.
  { eapply (step_main init false DatetimeNow _ (mkDatetime 739000 21 30 0 0) []).
    exact I. }
  cbn.
  eapply reachable_first.
  { eapply (step_main init false (Log INFO _) _ tt []). exact I. }
  cbn.
  eapply reachable_first.
  { eapply (step_main init false GetWarningActive _ false []). reflexivity. }
  cbn.
  eapply reachable_first.
  { eapply (step_main init false (SetWarningActive true) _ tt []). exact I. }
  cbn.
  eapply reachable_first.
  { eapply (step_main init true (ThreadStart _) _ tt []). exact I. }
  cbn [flag_after started_by map app task_body].
  eapply reachable_first.
  { eapply (step_main init true (ThreadStart _) _ tt [_]). exact I. }
  cbn [flag_after started_by map app task_body].
  apply reachable_start.
Defined.

Lemma counting_time_lock_countdown : counting_down time_lock_countdown.
Proof.
  unfold time_lock_countdown. cbn.
  apply (counting_later (Log _ _) _ tt I).
  apply (counting_later (Sleep 60) _ None (fun _ => eq_refl)).
  apply (counting_later StopIsSet _ false I). cbn.
  apply (counting_later (Log _ _) _ tt I).
  apply counting_lock.
Qed.

Lemma dialog_not_counting (remaining_minutes : Z) (r : reason) :
  ~ counting_down (show_countdown_warning remaining_minutes r).
Proof.
  intro H. apply (spent_not_counting _ H).
  apply conforms_show_countdown_warning.
Qed.

End ThreadsFacts.

(* ================================================================= *)
(** ** One warning cycle at a time *)

(** C4.  While the warning flag is [True], [check_time] starts no thread,
    neither countdown nor dialog, whatever the schedule evaluator and the
    time source answer and however many turns its loop takes: afterwards
    the flag is still [True] and the trace shows no thread started and no
    lock call.  And in every state that the process reaches from its
    start, with the main thread and the started threads interleaved event
    by event, at most one started thread is still counting down (can
    still call the OS lock or write the flag), and while one is the flag
    is [True]. *)
Theorem one_warning_at_a_time (w : World) (self : TimeChecker) :
  (forall fuel st,
     warning_active st = true ->
     let st' := snd (interp w (check_time self fuel) st) in
     warning_active st' = true /\
     starts (trace st') = starts (trace st) /\
     lock_calls (trace st') = lock_calls (trace st))
  /\
  (forall cycles fuel P,
     Threads.reachable self (Threads.boot self cycles fuel) P ->
     (forall before p between q after,
        Threads.threads P = before ++ p :: between ++ q :: after ->
        Threads.counting_down p -> Threads.counting_down q -> False) /\
     (forall p,
        In p (Threads.threads P) -> Threads.counting_down p ->
        Threads.flag P = true)).
Proof.
  split.
  - intros fuel st Hactive.
    pose proof (check_time_guarded w self fuel st Hactive) as H.
    cbv zeta. rewrite (quiet_starts _ _ H), (quiet_lock_calls _ _ H).
    destruct H as (-> & _). auto.
  - intros cycles fuel P. apply ThreadsFacts.one_countdown.
Qed.

Lemma one_warning_at_a_time_witness :
  (let st' :=
     snd (interp (clock_at 21 30) (check_time init 3) (mkState 0 true true []))
   in
   warning_active st' = true /\ starts (trace st') = []) /\
  (exists P,
     Threads.reachable init (Threads.boot init 1 1) P /\
     Threads.threads P =
       [show_countdown_warning 1 PeriodLock; time_lock_countdown] /\
     Threads.flag P = true).
Proof.
  destruct (one_warning_at_a_time (clock_at 21 30) init) as [Hguard Hpool].
  split.
  - destruct (Hguard 3%nat (mkState 0 true true []) eq_refl) as (H1 & H2 & _).
    split; [exact H1 | exact H2].
  - destruct ThreadsFacts.schedule_trigger_reachable as [m Hreach].
    eexists. split; [exact Hreach | ]. split; [reflexivity | ].
    apply (proj2 (Hpool 1%nat 1%nat _ Hreach) time_lock_countdown).
    + right. now left.
    + apply ThreadsFacts.counting_time_lock_countdown.
Defined.

(* ================================================================= *)
(** ** What the methods do not do *)

Section Footprint.

Variable w : World.

Lemma uses_only_bind (ok : forall X : Type, event X -> bool) {A B : Type}
  (p : prog A) (f : A -> prog B) :
  uses_only ok p -> (forall a, uses_only ok (f a)) -> uses_only ok (bind p f).
Proof.
  intros Hp Hf. induction p as [a | e | X ev k IH | ]; cbn in *; auto.
  destruct Hp as [Hev Hk]. split; [exact Hev | ]. intro x. now apply IH.
Qed.

Lemma uses_only_try_catch (ok : forall X : Type, event X -> bool) {A : Type}
  (p : prog A) (h : exn -> option (prog A)) :
  uses_only ok p ->
  (forall e q, h e = Some q -> uses_only ok q) ->
  uses_only ok (try_catch p h).
Proof.
  intros Hp Hh. induction p as [a | e | X ev k IH | ]; cbn in *; auto.
  - destruct (h e) as [q | ] eqn:He; [now apply (Hh e) | exact I].
  - destruct Hp as [Hev Hk]. split; [exact Hev | ]. intro x. now apply IH.
Qed.

Lemma uses_only_except (ok : forall X : Type, event X -> bool) {A : Type}
  (p : prog A) (h : string -> prog A) :
  uses_only ok p -> (forall msg, uses_only ok (h msg)) ->
  uses_only ok (try_catch p (except_Exception h)).
Proof.
  intros Hp Hh. apply uses_only_try_catch; [exact Hp | ].
  intros [ | code | msg] q; cbn; try discriminate.
  intros [= <-]. apply Hh.
Qed.

Lemma uses_only_for_each (ok : forall X : Type, event X -> bool)
  {X A : Type} (xs : list X) (body : X -> prog (flow A)) (after : prog A) :
  (forall x, uses_only ok (body x)) -> uses_only ok after ->
  uses_only ok (for_each xs body after).
Proof.
  intros Hbody Hafter. induction xs as [ | x xs IH]; [exact Hafter | ].
  cbn [for_each]. apply uses_only_bind; [apply Hbody | ].
  intros [ | a]; [exact IH | exact I].
Qed.

Lemma uses_only_weaken (ok ok' : forall X : Type, event X -> bool)
  {A : Type} (p : prog A) :
  (forall X (ev : event X), ok X ev = true -> ok' X ev = true) ->
  uses_only ok p -> uses_only ok' p.
Proof.
  intro Hok. induction p as [a | e | X ev k IH | ]; cbn; auto.
  intros [Hev Hk]. split; [now apply Hok | ]. intro x. now apply IH.
Qed.

(** A property of states that every event of [p] keeps is kept by [p]. *)
Lemma uses_only_keeps (ok : forall X : Type, event X -> bool)
  (keeps : State -> Prop) {A : Type} (p : prog A) (st : State) :
  (forall X (ev : event X) s,
     ok X ev = true -> keeps s -> keeps (snd (handle w ev s))) ->
  uses_only ok p -> keeps st -> keeps (snd (interp w p st)).
Proof.
  intro Hstep. revert st; induction p as [a | e | X ev k IH | ];
    intros st Hp Hst; cbn; auto.
  destruct Hp as [Hev Hk]. specialize (Hstep X ev st Hev Hst).
  destruct (handle w ev st) as [x st1]. now apply IH.
Qed.

End Footprint.

Section FootprintOfMethods.

Variable self : TimeChecker.

Ltac footprint :=
  repeat first
    [ exact I
    | apply uses_only_bind; [ | intro]
    | apply uses_only_except; [ | intro]
    | apply uses_only_for_each; [intro | ]
    | progress cbn [uses_only trigger logger]
    | split; [reflexivity | intro] ].

Lemma footprint_check_window (cur : string) (win : string * string) :
  uses_only reads_and_logs (check_window cur win).
Proof.
  destruct win as [start_time end_time]. unfold check_window, strptime.
  destruct (strptime_HM cur); [ | exact I]. cbn [bind].
  destruct (strptime_HM start_time); [ | exact I]. cbn [bind].
  destruct (strptime_HM end_time); [ | exact I]. cbn [bind].
  destruct (String.ltb end_time start_time);
    [ destruct (dt_geb _ _ || dt_leb _ _)
    | destruct (dt_leb _ _ && dt_leb _ _) ]; footprint.
Qed.

Lemma footprint_is_time_to_lock :
  uses_only reads_and_logs (is_time_to_lock self).
Proof.
  unfold is_time_to_lock, is_time_to_lock_try.
  apply uses_only_except; [ | intro; footprint].
  split; [reflexivity | intro current_time]. cbn [bind].
  apply uses_only_for_each; [intro; apply footprint_check_window | exact I].
Qed.

Lemma footprint_try_server (server : string) :
  uses_only reads_and_logs (try_server server).
Proof.
  unfold try_server. footprint.
  match goal with x : (string + datetime)%type |- _ => destruct x end;
    footprint.
Qed.

Lemma footprint_get_network_time :
  uses_only reads_and_logs (get_network_time self).
Proof.
  unfold get_network_time.
  apply uses_only_for_each; [intro; apply footprint_try_server | exact I].
Qed.

End FootprintOfMethods.

Section FootprintOfThreads.

Variable self : TimeChecker.

Lemma reads_and_logs_no_lock (X : Type) (ev : event X) :
  reads_and_logs X ev = true -> no_lock X ev = true.
Proof. destruct ev; cbn; auto. Qed.

Lemma reads_and_logs_no_start (X : Type) (ev : event X) :
  reads_and_logs X ev = true -> no_start_no_arm X ev = true.
Proof. destruct ev; cbn; auto; discriminate. Qed.

Lemma footprint_sleep (ok : forall X : Type, event X -> bool) (secs : Z) :
  ok _ (Sleep secs) = true -> uses_only ok (sleep secs).
Proof. intro H. split; [exact H | ]. intros [e | ]; exact I. Qed.

Lemma footprint_raising (ok : forall X : Type, event X -> bool)
  (ev : event (option string)) :
  ok _ ev = true -> uses_only ok (raising ev).
Proof. intro H. split; [exact H | ]. intros [e | ]; exact I. Qed.

Lemma footprint_logger (ok : forall X : Type, event X -> bool)
  (l : level) (m : log_msg) :
  ok _ (Log l m) = true -> uses_only ok (logger l m).
Proof. intro H. split; [exact H | ]. intro; exact I. Qed.

Lemma footprint_safe_tk_operation (operation : tk_call) :
  uses_only no_start_no_arm (safe_tk_operation operation).
Proof.
  unfold safe_tk_operation.
  apply uses_only_for_each; [intro attempt | exact I].
  unfold safe_tk_try. apply uses_only_except.
  - apply uses_only_bind; [ | intro; exact I]. unfold tk_attempt.
    repeat (apply uses_only_bind; [now apply footprint_raising | intro]).
    now apply footprint_raising.
  - intro msg. apply uses_only_bind; [now apply footprint_logger | intro].
    apply uses_only_bind;
      [destruct (attempt =? _); [now apply footprint_logger | exact I]
      | intro].
    apply uses_only_bind; [now apply footprint_sleep | intro]. exact I.
Qed.

Lemma footprint_lock_windows : uses_only no_start_no_arm lock_windows.
Proof.
  unfold lock_windows. apply uses_only_except.
  - apply uses_only_bind; [now apply footprint_logger | intro].
    apply uses_only_bind; [now apply footprint_raising | intro].
    split; [reflexivity | intro; exact I].
  - intro msg. apply uses_only_bind; [now apply footprint_logger | intro].
    now apply footprint_logger.
Qed.

Lemma footprint_stop_then_lock :
  uses_only no_start_no_arm
    (stopped <- trigger StopIsSet ;;
     if negb stopped then lock_windows else Ret tt).
Proof.
  split; [reflexivity | ]. intros [ | ]; cbn [negb bind];
    [exact I | apply footprint_lock_windows].
Qed.

Lemma footprint_time_lock_countdown :
  uses_only no_start_no_arm time_lock_countdown.
Proof.
  unfold time_lock_countdown. apply uses_only_except.
  - apply uses_only_bind; [now apply footprint_logger | intro].
    apply uses_only_bind; [now apply footprint_sleep | intro].
    apply footprint_stop_then_lock.
  - intro msg. apply uses_only_bind; [now apply footprint_logger | intro].
    now apply footprint_logger.
Qed.

Lemma footprint_resync_sample :
  uses_only no_start_no_arm (resync_sample self).
Proof.
  unfold resync_sample, suppress_Exception.
  apply uses_only_except; [ | intro; exact I].
  apply uses_only_bind.
  { eapply uses_only_weaken;
      [exact reads_and_logs_no_start | apply footprint_get_network_time]. }
  intros [network_time | ]; [ | exact I].
  split; [reflexivity | intro local_time]. cbn [bind].
  do 3 (apply uses_only_bind; [now apply footprint_logger | intro]).
  destruct (diff_le_5 _); [ | exact I].
  apply uses_only_bind; [now apply footprint_logger | intro].
  split; [reflexivity | intro]. cbn [bind].
  apply uses_only_bind; [ | intro; exact I].
  unfold show_normal_message.
  apply uses_only_bind; [apply footprint_safe_tk_operation | intro; exact I].
Qed.

Lemma footprint_countdown_check :
  uses_only no_start_no_arm (countdown_check self).
Proof.
  unfold countdown_check. apply uses_only_except.
  - apply uses_only_for_each; [intro i | apply footprint_stop_then_lock].
    unfold countdown_sample. split; [reflexivity | ].
    intros [ | ]; cbn [bind]; [exact I | ].
    apply uses_only_bind; [apply footprint_resync_sample | ].
    intros [ | []]; [ | exact I].
    apply uses_only_bind; [now apply footprint_logger | intro].
    apply uses_only_bind; [now apply footprint_sleep | intro]. exact I.
  - intro msg. apply uses_only_bind; [now apply footprint_logger | intro].
    now apply footprint_logger.
Qed.

Lemma footprint_task_body (t : task) :
  uses_only no_start_no_arm (task_body self t).
Proof.
  destruct t as [remaining_minutes r | | ]; cbn [task_body].
  - unfold show_countdown_warning.
    apply uses_only_bind; [apply footprint_safe_tk_operation | intro; exact I].
  - apply footprint_time_lock_countdown.
  - apply footprint_countdown_check.
Qed.

(** The guarded entry into a warning cycle does not lock. *)
Lemma footprint_guard (remaining_minutes : Z) (r : reason) (countdown : task)
  {A : Type} (rest : prog A) :
  uses_only no_lock rest ->
  uses_only no_lock
    (warning_active <- trigger GetWarningActive ;;
     (if negb warning_active
      then start_warning remaining_minutes r countdown
      else Ret tt) ;;
     rest).
Proof.
  intro Hrest. split; [reflexivity | ]. intros [ | ]; cbn [negb bind];
    [exact Hrest | ].
  unfold start_warning. cbn [bind trigger uses_only].
  repeat (split; [reflexivity | intro]). exact Hrest.
Qed.

Lemma footprint_check_time_try : uses_only no_lock (check_time_try self).
Proof.
  unfold check_time_try. apply uses_only_bind.
  { eapply uses_only_weaken;
      [exact reads_and_logs_no_lock | apply footprint_is_time_to_lock]. }
  intros [ | ].
  - apply footprint_guard.
    apply uses_only_bind; [now apply footprint_sleep | intro; exact I].
  - apply uses_only_bind.
    { eapply uses_only_weaken;
        [exact reads_and_logs_no_lock | apply footprint_get_network_time]. }
    intros [network_time | ].
    + split; [reflexivity | intro local_time]. cbn [bind].
      do 3 (apply uses_only_bind; [now apply footprint_logger | intro]).
      destruct (diff_gt_5 _); [ | exact I].
      change (uses_only no_lock
        (warning_active <- trigger GetWarningActive ;;
         (if negb warning_active
          then start_warning 5 TimeSync CountdownCheck else Ret tt) ;;
         Ret FallThrough)).
      now apply footprint_guard.
    + apply uses_only_bind; [now apply footprint_logger | intro].
      now apply footprint_guard.
Qed.

Lemma footprint_check_time_cycle : uses_only no_lock (check_time_cycle self).
Proof.
  unfold check_time_cycle. apply uses_only_bind.
  - apply uses_only_except; [apply footprint_check_time_try | ].
    intro msg. apply uses_only_bind; [now apply footprint_logger | intro].
    apply uses_only_bind; [now apply footprint_logger | intro]. exact I.
  - intros [ | ]; [exact I | now apply footprint_sleep].
Qed.

Lemma footprint_check_time (fuel : nat) :
  uses_only no_lock (check_time self fuel).
Proof.
  induction fuel as [ | fuel IH]; [exact I | ].
  cbn [check_time bind trigger uses_only]. split; [reflexivity | ].
  intros [ | ]; cbn [negb]; [exact I | ].
  apply uses_only_bind; [apply footprint_check_time_cycle | intro; exact IH].
Qed.

Lemma footprint_run (cycles fuel : nat) :
  uses_only no_lock (run self cycles fuel).
Proof.
  unfold run. apply uses_only_bind; [now apply footprint_logger | intros _].
  induction fuel as [ | fuel IH]; [exact I | ].
  cbn [run_loop]. apply uses_only_bind; [ | intro; exact IH].
  apply uses_only_try_catch; [apply footprint_check_time | ].
  intros [ | code | msg] q; cbn [run_handlers]; try discriminate;
    intros [= <-].
  - now apply footprint_logger.
  - split; [reflexivity | intros _]. split; [reflexivity | intros _].
    now apply footprint_sleep.
Qed.

End FootprintOfThreads.

Lemma lock_calls_emit (o : obs) (s : State) :
  match o with OLock _ => False | _ => True end ->
  lock_calls (trace (emit o s)) = lock_calls (trace s).
Proof.
  intro H. cbn. rewrite lock_calls_app.
  destruct o; cbn; try contradiction; now rewrite app_nil_r.
Qed.

Lemma starts_emit (o : obs) (s : State) :
  match o with OStart _ _ => False | _ => True end ->
  starts (trace (emit o s)) = starts (trace s).
Proof.
  intro H. cbn. rewrite starts_app.
  destruct o; cbn; try contradiction; now rewrite app_nil_r.
Qed.

(** X1.  The main loop never calls the OS lock itself: whatever the world
    answers and however long they run, [check_time] and [run] leave the
    list of lock calls of the trace as it was.  Only the countdown
    threads lock. *)
Theorem main_loop_never_locks (w : World) (self : TimeChecker)
  (cycles fuel : nat) (st : State) :
  lock_calls (trace (snd (interp w (check_time self fuel) st))) =
    lock_calls (trace st) /\
  lock_calls (trace (snd (interp w (run self cycles fuel) st))) =
    lock_calls (trace st).
Proof.
  assert (Hkeeps : forall X (ev : event X) s,
            no_lock X ev = true ->
            lock_calls (trace s) = lock_calls (trace st) ->
            lock_calls (trace (snd (handle w ev s))) = lock_calls (trace st)).
  { intros X ev s Hev Hs. destruct ev; cbn [handle snd]; try exact Hs;
      try discriminate; try (rewrite lock_calls_emit; [exact Hs | exact I]).
    destruct (if main_thread s then _ else None); cbn [snd advance trace];
      fold (emit (OSleep (clock s) secs) s);
      (rewrite lock_calls_emit; [exact Hs | exact I]). }
  split.
  - apply (uses_only_keeps w no_lock
             (fun s => lock_calls (trace s) = lock_calls (trace st)));
      [exact Hkeeps | apply footprint_check_time | reflexivity].
  - apply (uses_only_keeps w no_lock
             (fun s => lock_calls (trace s) = lock_calls (trace st)));
      [exact Hkeeps | apply footprint_run | reflexivity].
Qed.

(** X2.  A started thread (the dialog, either countdown) starts no thread
    and never sets the warning flag to [True]: after it has run, the
    threads started in the trace are the same, and a flag that was
    [False] is still [False].  Entering a warning cycle is left to the
    main loop. *)
Theorem started_threads_never_arm (w : World) (self : TimeChecker)
  (t : task) (st : State) :
  let st' := snd (interp w (task_body self t) st) in
  starts (trace st') = starts (trace st) /\
  (warning_active st = false -> warning_active st' = false).
Proof.
  apply (uses_only_keeps w no_start_no_arm
           (fun s => starts (trace s) = starts (trace st) /\
                     (warning_active st = false -> warning_active s = false)));
    [ | apply footprint_task_body | now split].
  intros X ev s Hev [Hs Hf].
  destruct ev; cbn [handle snd]; try (now split); try discriminate;
    try (split; [rewrite starts_emit; [exact Hs | exact I] | exact Hf]).
  - destruct b; [discriminate | ]. now split.
  - destruct (if main_thread s then _ else None); cbn [snd];
      (split; [ | exact Hf]); cbn [advance trace];
      fold (emit (OSleep (clock s) secs) s);
      (rewrite starts_emit; [exact Hs | exact I]).
Qed.

Lemma started_threads_never_arm_witness :
  let st' :=
    snd (interp sources_back_at_20 (task_body init CountdownCheck)
           (mkState 0 false false [])) in
  starts (trace st') = [] /\ warning_active st' = false.
Proof.
  destruct (started_threads_never_arm sources_back_at_20 init CountdownCheck
              (mkState 0 false false [])) as [Hstarts Hflag].
  split; [exact Hstarts | exact (Hflag eq_refl)].
Defined.

(* ================================================================= *)
(** ** A turn of the main loop *)

Section Turn.

Variable w : World.
Variable self : TimeChecker.

Lemma footprint_is_time_to_lock_strict :
  uses_only clock_and_log (is_time_to_lock self).
Proof.
  unfold is_time_to_lock, is_time_to_lock_try.
  apply uses_only_except.
  - split; [reflexivity | intro current_time]. cbn [bind].
    apply uses_only_for_each; [ | exact I].
    intros [start_time end_time]. unfold check_window, strptime.
    destruct (strptime_HM _); [ | exact I]. cbn [bind].
    destruct (strptime_HM start_time); [ | exact I]. cbn [bind].
    destruct (strptime_HM end_time); [ | exact I]. cbn [bind].
    destruct (String.ltb end_time start_time);
      [ destruct (dt_geb _ _ || dt_leb _ _)
      | destruct (dt_leb _ _ && dt_leb _ _) ];
      try exact I; (split; [reflexivity | intro; exact I]).
  - intro msg. apply uses_only_bind; [now apply footprint_logger | intro].
    apply uses_only_bind; [now apply footprint_logger | intro]. exact I.
Qed.

Lemma ntp_queries_app (tr1 tr2 : list obs) :
  ntp_queries (tr1 ++ tr2) = ntp_queries tr1 ++ ntp_queries tr2.
Proof.
  induction tr1 as [ | [ | | | | | ] tr1 IH]; simpl; congruence.
Qed.

(** The schedule evaluator neither sleeps nor queries the servers. *)
Lemma is_time_to_lock_trace (st : State) :
  let st1 := snd (interp w (is_time_to_lock self) st) in
  sleeps (trace st1) = sleeps (trace st) /\
  ntp_queries (trace st1) = ntp_queries (trace st).
Proof.
  apply (uses_only_keeps w clock_and_log
           (fun s => sleeps (trace s) = sleeps (trace st) /\
                     ntp_queries (trace s) = ntp_queries (trace st)));
    [ | apply footprint_is_time_to_lock_strict | now split].
  intros X ev s Hev [Hs Hn].
  destruct ev; cbn [handle snd]; try discriminate; [now split | ].
  cbn. rewrite sleeps_app, ntp_queries_app. cbn.
  now rewrite !app_nil_r.
Qed.

(** X3.  A turn of the main loop in which the schedule evaluator answers
    [True] while no warning is active, and whose sleep is not
    interrupted: the flag is set, the dialog thread for 1 minute and the
    thread of [time_lock_countdown] are started, the turn sleeps 60
    seconds and ends there ([continue]): the time source is not queried
    and there is no sleep of 300 seconds. *)
Theorem schedule_trigger (st st1 : State) :
  warning_active st = false ->
  interp w (is_time_to_lock self) st = (Returned true, st1) ->
  sleep_interrupt w (clock st) 60 = None ->
  let st' :=
    advance 60
      (emit (OSleep (clock st) 60)
         (started 1 PeriodLock TimeLockCountdown st1)) in
  interp w (check_time_cycle self) st = (Returned tt, st') /\
  warning_active st' = true /\
  starts (trace st') =
    starts (trace st) ++ [ShowCountdownWarning 1 PeriodLock; TimeLockCountdown] /\
  ntp_queries (trace st') = ntp_queries (trace st) /\
  sleeps (trace st') = sleeps (trace st) ++ [(clock st, 60)].
Proof.
  intros Hidle Hin Hsleep st'.
  destruct (is_time_to_lock_outcome w self st) as (b & st1' & Hrun & Hq & Hc).
  rewrite Hin in Hrun. injection Hrun as <- <-.
  pose proof (is_time_to_lock_trace st) as Htr. rewrite Hin in Htr.
  cbn [snd] in Htr. destruct Htr as [Hsl Hntp].
  pose proof (quiet_starts _ _ Hq) as Hst.
  destruct Hq as (Hw & Hm & _).
  split.
  - unfold check_time_cycle, check_time_try.
    rewrite interp_bind, interp_try_catch, interp_bind, Hin.
    cbn [bind trigger interp handle]. rewrite Hw, Hidle. cbn [negb].
    rewrite interp_bind, interp_start_warning.
    unfold sleep. cbn [bind trigger interp handle].
    unfold started at 1 2 3. cbn [clock main_thread emits set_warning_active].
    rewrite Hc, Hm, Hsleep.
    destruct (main_thread st); cbn; subst st'; unfold started;
      cbn; rewrite Hc; reflexivity.
  - subst st'. unfold started, emits, emit, advance, set_warning_active.
    cbn [trace warning_active clock].
    rewrite !starts_app, !ntp_queries_app, !sleeps_app, Hst, Hntp, Hsl.
    cbn. rewrite !app_nil_r. auto.
Qed.

Lemma sleeps_drift_checked (st1 : State) :
  sleeps (trace (drift_checked w self st1)) = sleeps (trace st1).
Proof.
  unfold drift_checked, started, emits, set_warning_active.
  assert (H : sleeps (check_logs w self (clock st1)) = []).
  { unfold check_logs.
    destruct (first_reply w (clock st1) (ntp_servers self)); reflexivity. }
  destruct (out_of_sync w self (clock st1) && negb (warning_active st1));
    cbn [trace]; rewrite !sleeps_app, sleeps_queries, H; cbn;
    now rewrite !app_nil_r.
Qed.

(** X4.  A turn of the main loop whose sleep is not interrupted sleeps
    exactly once and then returns: 60 seconds when the schedule
    evaluator answers [True], 300 seconds when it answers [False],
    whether or not a warning was started in the turn. *)
Theorem turn_sleeps_once (st : State) :
  (forall secs, sleep_interrupt w (clock st) secs = None) ->
  exists b st1 st',
    interp w (is_time_to_lock self) st = (Returned b, st1) /\
    interp w (check_time_cycle self) st = (Returned tt, st') /\
    sleeps (trace st') =
      sleeps (trace st) ++ [(clock st, if b then 60 else 300)] /\
    clock st' = clock st + (if b then 60 else 300).
Proof.
  intro Hsleep.
  destruct (is_time_to_lock_outcome w self st) as (b & st1 & Hrun & Hq & Hc).
  pose proof (is_time_to_lock_trace st) as Htr. rewrite Hrun in Htr.
  cbn [snd] in Htr. destruct Htr as [Hsl _].
  exists b, st1.
  assert (Hs : forall secs s, clock s = clock st ->
            interp w (sleep secs) s =
            (Returned tt, advance secs (emit (OSleep (clock st) secs) s))).
  { intros secs s Hcs. unfold sleep. cbn. rewrite Hcs, Hsleep.
    destruct (main_thread s); reflexivity. }
  destruct b.
  - set (s2 := if negb (warning_active st1)
               then started 1 PeriodLock TimeLockCountdown st1 else st1).
    assert (Hs2 : clock s2 = clock st /\ sleeps (trace s2) = sleeps (trace st)).
    { subst s2. destruct (negb (warning_active st1));
        [ | now split]. unfold started. cbn. rewrite sleeps_app. cbn.
      rewrite app_nil_r. now split. }
    destruct Hs2 as [Hc2 Hsl2].
    exists (advance 60 (emit (OSleep (clock st) 60) s2)).
    split; [exact Hrun | ]. split.
    + unfold check_time_cycle, check_time_try.
      rewrite interp_bind, interp_try_catch, interp_bind, Hrun.
      cbn [bind trigger interp handle]. rewrite interp_bind.
      assert (Hguard : interp w
                (if negb (warning_active st1)
                 then start_warning 1 PeriodLock TimeLockCountdown
                 else Ret tt) st1 = (Returned tt, s2)).
      { subst s2. destruct (negb (warning_active st1));
          [apply interp_start_warning | reflexivity]. }
      rewrite Hguard, interp_bind, (Hs 60 s2 Hc2). reflexivity.
    + cbn. rewrite sleeps_app, Hsl2, Hc2. cbn. split; [reflexivity | lia].
  - exists (advance 300 (emit (OSleep (clock st) 300) (drift_checked w self st1))).
    assert (Hc2 : clock (drift_checked w self st1) = clock st).
    { unfold drift_checked.
      destruct (out_of_sync _ _ _ && _); cbn; exact Hc. }
    split; [exact Hrun | ]. split.
    + unfold check_time_cycle.
      rewrite interp_bind, interp_try_catch.
      rewrite (check_time_try_outside w self st st1 Hrun).
      apply (Hs 300 _ Hc2).
    + cbn. rewrite sleeps_app, sleeps_drift_checked, Hsl, Hc2. cbn.
      split; [reflexivity | lia].
Qed.

End Turn.

Lemma schedule_trigger_witness :
  exists st',
    interp (clock_at 21 30) (check_time_cycle init) main_idle =
      (Returned tt, st') /\
    starts (trace st') = [ShowCountdownWarning 1 PeriodLock; TimeLockCountdown] /\
    sleeps (trace st') = [(0, 60)].
Proof.
  destruct (schedule_trigger (clock_at 21 30) init main_idle
              (emit (OLog INFO (MsgInLockWindow "21:30" "21:00" "23:59"))
                 main_idle)
              eq_refl eq_refl eq_refl) as (Hrun & _ & Hstarts & _ & Hsleeps).
  eexists. split; [exact Hrun | ]. split; [exact Hstarts | exact Hsleeps].
Defined.

Lemma turn_sleeps_once_witness :
  exists st',
    interp sources_down (check_time_cycle init) main_idle = (Returned tt, st') /\
    clock st' = 300.
Proof.
  destruct (turn_sleeps_once sources_down init main_idle (fun _ => eq_refl))
    as (b & st1 & st' & Heval & Hrun & _ & Hclock).
  exists st'. split; [exact Hrun | ].
  assert (Hb : b = false) by (cbv in Heval; congruence).
  rewrite Hclock, Hb. reflexivity.
Defined.

(* ================================================================= *)
(** ** The drift countdown in every world *)

Section CountdownAlways.

Variable w : World.
Variable self : TimeChecker.

(** One turn of the countdown, whatever the sample: it returns; it does
    not lock; when it goes on, 10 seconds have passed. *)
Lemma countdown_sample_outcome (i : Z) (st : State) :
  main_thread st = false ->
  exists r st',
    interp w (countdown_sample self i) st = (Returned r, st') /\
    main_thread st' = false /\
    lock_calls (trace st') = lock_calls (trace st) /\
    (r = Next -> clock st' = clock st + 10).
Proof.
  intro Hm.
  destruct (stop_event w (clock st)) eqn:Hstop.
  - exists (Return tt), st. unfold countdown_sample.
    cbn [bind trigger interp handle]. rewrite Hstop.
    repeat split; auto. discriminate.
  - destruct (out_of_sync w self (clock st)) eqn:Hsync.
    + rewrite (interp_countdown_out_of_sync w self i st Hm Hstop Hsync).
      eexists _, _. split; [reflexivity | ]. split; [exact Hm | ].
      split; [ | reflexivity]. cbn. rewrite lock_calls_app.
      change (bad_sample_trace w self (clock st) i)
        with (bad_samples_trace w self (clock st) [i]) || idtac.
      unfold bad_sample_trace, sample_logs. rewrite !lock_calls_app.
      destruct (lock_calls_queries w (clock st) (ntp_servers self)) as [-> _].
      destruct (first_reply w (clock st) (ntp_servers self)); cbn;
        now rewrite app_nil_r.
    + destruct (interp_countdown_sample_good w self i st Hm Hstop Hsync)
        as (st' & Hrun & _ & Hlocks & _).
      exists (Return tt), st'. split; [exact Hrun | ].
      split; [ | split; [exact Hlocks | discriminate]].
      pose proof (uses_only_keeps w no_start_no_arm
                    (fun s => main_thread s = false)
                    (countdown_sample self i) st) as Hkeep.
      rewrite Hrun in Hkeep. apply Hkeep; [ | | exact Hm].
      * intros X ev s _ Hs. destruct ev; cbn [handle snd]; auto.
        destruct (if main_thread s then _ else None); exact Hs.
      * unfold countdown_sample. split; [reflexivity | ].
        intros [ | ]; cbn [bind]; [exact I | ].
        apply uses_only_bind; [apply footprint_resync_sample | ].
        intros [ | []]; [ | exact I].
        apply uses_only_bind; [now apply footprint_logger | intro].
        apply uses_only_bind; [now apply footprint_sleep | intro]. exact I.
Qed.

Lemma countdown_loop_outcome (turns : list Z) (after : prog unit)
  (st : State) :
  main_thread st = false ->
  (exists st',
     interp w (for_each turns (countdown_sample self) after) st =
       (Returned tt, st') /\
     lock_calls (trace st') = lock_calls (trace st)) \/
  (exists st',
     interp w (for_each turns (countdown_sample self) after) st =
       interp w after st' /\
     main_thread st' = false /\
     lock_calls (trace st') = lock_calls (trace st) /\
     clock st' = clock st + 10 * Z.of_nat (List.length turns)).
Proof.
  revert st; induction turns as [ | i turns IH]; intros st Hm.
  - right. exists st. cbn. repeat split; auto. lia.
  - rewrite interp_for_each_cons.
    destruct (countdown_sample_outcome i st Hm)
      as (r & st1 & -> & Hm1 & Hlocks1 & Hclock1).
    destruct r as [ | []].
    + destruct (IH st1 Hm1) as [(st' & -> & Hlocks) | (st' & -> & Hm' & Hlocks & Hclock)].
      * left. exists st'. split; [reflexivity | congruence].
      * right. exists st'. split; [reflexivity | ]. split; [exact Hm' | ].
        split; [congruence | ]. rewrite Hclock, (Hclock1 eq_refl).
        cbn [List.length]. lia.
    + left. exists st1. split; [reflexivity | exact Hlocks1].
Qed.

(** X5.  In its thread and in every world, [countdown_check] returns, and
    it calls the OS lock at most once and never before the countdown has
    run out: the lock calls of its trace are those it found, or those
    followed by one call 300 seconds after its start. *)
Theorem countdown_check_locks_only_at_expiry (st : State) :
  main_thread st = false ->
  exists st',
    interp w (countdown_check self) st = (Returned tt, st') /\
    (lock_calls (trace st') = lock_calls (trace st) \/
     lock_calls (trace st') = lock_calls (trace st) ++ [clock st + 300]).
Proof.
  intro Hm. unfold countdown_check. rewrite interp_try_catch.
  destruct (countdown_loop_outcome (range 30)
              (stopped <- trigger StopIsSet ;;
               if negb stopped then lock_windows else Ret tt) st Hm)
    as [(st' & -> & Hlocks) | (st' & -> & Hm' & Hlocks & Hclock)].
  - exists st'. split; [reflexivity | now left].
  - cbn [bind trigger interp handle].
    destruct (stop_event w (clock st')); cbn [negb].
    + exists st'. split; [reflexivity | now left].
    + rewrite interp_lock_windows. exists (locked w st').
      split; [reflexivity | right].
      destruct (locked_facts w st') as (_ & _ & -> & _).
      rewrite Hlocks, Hclock. reflexivity.
Qed.

(** X6.  The stop signal cancels the drift countdown: when it is first
    read set at read [k] (one of the 30 reads before a sample, or the
    read at expiry), the samples before having found no synchronisation,
    [countdown_check] returns at once, [10 * k] seconds after its start,
    without calling the OS lock and without touching the warning flag. *)
Theorem countdown_check_stopped (k : nat) (st : State) :
  let now := clock st in
  main_thread st = false ->
  (k <= 30)%nat ->
  (forall j, 0 <= j < Z.of_nat k ->
     stop_event w (now + 10 * j) = false /\
     out_of_sync w self (now + 10 * j) = true) ->
  stop_event w (now + 10 * Z.of_nat k) = true ->
  let st' :=
    advance (10 * Z.of_nat k)
      (emits (bad_samples_trace w self now (range k)) st) in
  interp w (countdown_check self) st = (Returned tt, st') /\
  lock_calls (trace st') = lock_calls (trace st) /\
  warning_active st' = warning_active st.
Proof.
  intros now Hm Hk Hbefore Hstop st'.
  assert (Hlen : List.length (range k) = k)
    by (unfold range; now rewrite length_map, length_seq).
  split; [ | split; [ | reflexivity]].
  - unfold countdown_check. rewrite interp_try_catch.
    assert (Hcases : (k < 30)%nat \/ k = 30%nat) by lia.
    destruct Hcases as [Hlt | ->].
    + assert (Hsplit : range 30 =
        range k ++ Z.of_nat k :: map Z.of_nat (seq (S k) (30 - S k))).
      { unfold range. replace 30%nat with (k + S (30 - S k))%nat at 1 by lia.
        rewrite seq_app, map_app. reflexivity. }
      rewrite Hsplit, interp_for_each_app, interp_countdown_loop_bad;
        [ | exact Hm | rewrite Hlen; exact Hbefore].
      rewrite Hlen, interp_for_each_cons. fold now. fold st'.
      assert (Hclock : clock st' = now + 10 * Z.of_nat k) by reflexivity.
      unfold countdown_sample. cbn [bind trigger interp handle].
      rewrite Hclock, Hstop. reflexivity.
    + rewrite interp_countdown_loop_bad;
        [ | exact Hm | rewrite Hlen; exact Hbefore].
      rewrite Hlen. fold now. fold st'.
      assert (Hclock : clock st' = now + 10 * Z.of_nat 30) by reflexivity.
      cbn [bind trigger interp handle]. rewrite Hclock, Hstop.
      reflexivity.
  - subst st'. cbn. now rewrite lock_calls_app, lock_calls_bad_samples, app_nil_r.
Qed.

End CountdownAlways.

Lemma countdown_check_locks_only_at_expiry_witness :
  exists st',
    interp sources_back_at_20 (countdown_check init) thread_start =
      (Returned tt, st') /\
    (lock_calls (trace st') = [] \/ lock_calls (trace st') = [300]).
Proof.
  exact (countdown_check_locks_only_at_expiry sources_back_at_20 init
           thread_start eq_refl).
Defined.

Lemma countdown_check_stopped_witness :
  exists st',
    interp stopped_at_25 (countdown_check init) thread_start =
      (Returned tt, st') /\
    clock st' = 30 /\ lock_calls (trace st') = [] /\
    warning_active st' = true.
Proof.
  destruct (countdown_check_stopped stopped_at_25 init 3 thread_start)
    as (Hrun & Hlocks & Hflag).
  - reflexivity.
  - lia.
  - intros j Hj. assert (Hcases : j = 0 \/ j = 1 \/ j = 2) by lia.
    destruct Hcases as [-> | [-> | ->]]; split; reflexivity.
  - reflexivity.
  - eexists. split; [exact Hrun | ]. split; [reflexivity | ].
    split; [exact Hlocks | exact Hflag].
Defined.

(* ================================================================= *)
(** ** The retries of [safe_tk_operation] *)

Section Retries.

Variable w : World.

Lemma logs_app (tr1 tr2 : list obs) : logs (tr1 ++ tr2) = logs tr1 ++ logs tr2.
Proof.
  induction tr1 as [ | [ | | | | | ] tr1 IH]; simpl; congruence.
Qed.

Lemma tk_calls_of_app (c : tk_call -> bool) (tr1 tr2 : list obs) :
  tk_calls_of c (tr1 ++ tr2) = tk_calls_of c tr1 ++ tk_calls_of c tr2.
Proof.
  induction tr1 as [ | [ | | at_ c' | | | ] tr1 IH]; simpl; try congruence.
  destruct (c c'); simpl; congruence.
Qed.

Lemma tk_sequence_quiet (now : Z) (calls : list tk_call) :
  logs (fst (tk_sequence w now calls)) = [] /\
  sleeps (fst (tk_sequence w now calls)) = [].
Proof.
  induction calls as [ | c calls [IH1 IH2]]; [now split | ].
  cbn [tk_sequence]. destruct (tk_reply w now c); [now split | ].
  destruct (tk_sequence w now calls) as [tr r]. now split.
Qed.

Lemma interp_tk_attempt (operation : tk_call) (st : State) :
  interp w (tk_attempt operation) st =
  (match attempt_error w (clock st) operation with
   | Some e => Raised (Exception e)
   | None => Returned tt
   end, emits (attempt_trace w (clock st) operation) st).
Proof.
  unfold tk_attempt, attempt_error, attempt_trace, attempt_calls.
  cbn [tk_sequence].
  rewrite interp_bind, interp_raising_tk.
  destruct (tk_reply w (clock st) TkTk); [reflexivity | ].
  rewrite interp_bind, interp_raising_tk. cbn [clock emit].
  destruct (tk_reply w (clock st) TkWithdraw);
    [cbn; unfold emits, emit; cbn; now rewrite <- app_assoc | ].
  rewrite interp_bind, interp_raising_tk. cbn [clock emit].
  destruct (tk_reply w (clock st) operation);
    [cbn; unfold emits, emit; cbn; now rewrite <- !app_assoc | ].
  rewrite interp_raising_tk. cbn [clock emit].
  destruct (tk_reply w (clock st) TkDestroy);
    cbn; unfold emits, emit; cbn; now rewrite <- !app_assoc.
Qed.

(** One turn of the loop of [safe_tk_operation], in a thread. *)
Lemma interp_safe_tk_try (operation : tk_call) (attempt : Z) (st : State) :
  main_thread st = false ->
  interp w (safe_tk_try operation 3 attempt) st =
  match attempt_error w (clock st) operation with
  | None =>
      (Returned (Return true), emits (attempt_trace w (clock st) operation) st)
  | Some e =>
      (Returned Next,
       advance 1 (emits (failed_attempt w (clock st) operation attempt e) st))
  end.
Proof.
  intro Hm. unfold safe_tk_try, failed_attempt.
  rewrite interp_try_catch, interp_bind, interp_tk_attempt.
  destruct (attempt_error w (clock st) operation) as [e | ]; [ | reflexivity].
  cbn [except_Exception]. rewrite interp_bind, interp_logger, interp_bind.
  change (Z.of_nat 3 - 1) with 2. change (Z.of_nat 3) with 3.
  destruct (attempt =? 2).
  - rewrite interp_logger, interp_bind, interp_sleep by exact Hm.
    cbn. unfold emits, emit, advance; cbn. now rewrite <- !app_assoc.
  - cbn [interp]. rewrite interp_bind, interp_sleep by exact Hm.
    cbn. unfold emits, emit, advance; cbn. now rewrite <- !app_assoc.
Qed.

Lemma failed_attempt_facts (now : Z) (operation : tk_call) (attempt : Z)
  (e : string) :
  logs (failed_attempt w now operation attempt e) =
    (ERROR, MsgTkFailed (attempt + 1) 3 e) ::
    (if attempt =? 2 then [(ERROR, MsgTkAllFailed)] else []) /\
  sleeps (failed_attempt w now operation attempt e) = [(now, 1)].
Proof.
  unfold failed_attempt, attempt_trace.
  destruct (tk_sequence_quiet now (attempt_calls operation)) as [Hl Hs].
  rewrite !logs_app, !sleeps_app, Hl, Hs.
  destruct (attempt =? 2); now split.
Qed.

(** X7.  In a thread, when each of the three attempts of
    [safe_tk_operation] fails (one second apart), it gives up and returns
    [None] after 3 seconds: each failure is logged with its number out of
    3, the line that gives up is logged once, after the third, and each
    failure, the last included, is followed by a sleep of one second. *)
Theorem safe_tk_operation_gives_up (operation : tk_call) (st : State)
  (e0 e1 e2 : string) :
  let now := clock st in
  main_thread st = false ->
  attempt_error w now operation = Some e0 ->
  attempt_error w (now + 1) operation = Some e1 ->
  attempt_error w (now + 2) operation = Some e2 ->
  exists st',
    interp w (safe_tk_operation operation) st = (Returned false, st') /\
    clock st' = now + 3 /\
    logs (trace st') =
      logs (trace st) ++
      [(ERROR, MsgTkFailed 1 3 e0); (ERROR, MsgTkFailed 2 3 e1);
       (ERROR, MsgTkFailed 3 3 e2); (ERROR, MsgTkAllFailed)] /\
    sleeps (trace st') =
      sleeps (trace st) ++ [(now, 1); (now + 1, 1); (now + 2, 1)].
Proof.
  intros now Hm H0 H1 H2. unfold safe_tk_operation.
  change (range 3) with [0; 1; 2].
  rewrite interp_for_each_cons, interp_safe_tk_try by exact Hm.
  fold now. rewrite H0.
  rewrite interp_for_each_cons, interp_safe_tk_try by exact Hm.
  cbn [clock advance emits]. fold now. rewrite H1.
  rewrite interp_for_each_cons, interp_safe_tk_try by exact Hm.
  cbn [clock advance emits]. fold now.
  replace (now + 1 + 1) with (now + 2) by lia. rewrite H2.
  cbn [for_each interp].
  eexists. split; [reflexivity | ].
  cbn [clock advance emits trace]. split; [lia | ].
  rewrite !logs_app, !sleeps_app.
  destruct (failed_attempt_facts now operation 0 e0) as [-> ->].
  destruct (failed_attempt_facts (now + 1) operation 1 e1) as [-> ->].
  destruct (failed_attempt_facts (now + 2) operation 2 e2) as [-> ->].
  cbn. rewrite <- !app_assoc. cbn. split; reflexivity.
Qed.

(** X8.  In a thread, when attempt [j] (0, 1 or 2) of [safe_tk_operation]
    is the first in which no call into Tk raises, the operation is
    carried out in that attempt, [j] seconds after the start, and its
    result is returned at once, without further sleep. *)
Theorem safe_tk_operation_retries (operation : tk_call) (j : Z) (st : State) :
  let now := clock st in
  main_thread st = false ->
  0 <= j <= 2 ->
  (forall i, 0 <= i < j -> attempt_error w (now + i) operation <> None) ->
  attempt_error w (now + j) operation = None ->
  exists st' tr,
    interp w (safe_tk_operation operation) st = (Returned true, st') /\
    clock st' = now + j /\
    trace st' = tr ++ shown (now + j) operation /\
    sleeps (trace st') =
      sleeps (trace st) ++ map (fun i => (now + Z.of_nat i, 1)) (seq 0 (Z.to_nat j)).
Proof.
  intros now Hm Hj Hbefore Hok.
  assert (Hshown : forall t, attempt_error w t operation = None ->
            attempt_trace w t operation = shown t operation).
  { intros t. unfold attempt_error, attempt_trace, attempt_calls, shown.
    cbn [tk_sequence].
    destruct (tk_reply w t TkTk); [discriminate | ].
    destruct (tk_reply w t TkWithdraw); [discriminate | ].
    destruct (tk_reply w t operation); [discriminate | ].
    destruct (tk_reply w t TkDestroy); [discriminate | reflexivity]. }
  assert (Hsl : forall t, sleeps (attempt_trace w t operation) = [])
    by (intro t; apply tk_sequence_quiet).
  unfold safe_tk_operation. change (range 3) with [0; 1; 2].
  assert (Hcases : j = 0 \/ j = 1 \/ j = 2) by lia.
  rewrite interp_for_each_cons, interp_safe_tk_try by exact Hm. fold now.
  destruct Hcases as [-> | Hcases].
  { rewrite Z.add_0_r in Hok. rewrite Hok. eexists _, _.
    split; [reflexivity | ]. cbn [clock emits trace]. fold now.
    split; [lia | ]. rewrite Z.add_0_r.
    split; [now rewrite (Hshown now Hok) | ].
    rewrite sleeps_app, Hsl. cbn. now rewrite app_nil_r. }
  destruct (attempt_error w now operation) as [e0 | ] eqn:H0.
  2: { exfalso. apply (Hbefore 0); [lia | ]. now rewrite Z.add_0_r. }
  rewrite interp_for_each_cons, interp_safe_tk_try by exact Hm.
  cbn [clock advance emits]. fold now.
  destruct Hcases as [-> | ->].
  { rewrite Hok. eexists _, _. split; [reflexivity | ].
    cbn [clock advance emits trace]. split; [reflexivity | ].
    split; [now rewrite (Hshown _ Hok) | ].
    rewrite !sleeps_app, Hsl.
    destruct (failed_attempt_facts now operation 0 e0) as [_ ->].
    change (Z.to_nat 1) with 1%nat.
    cbn. rewrite ?app_nil_r, ?Z.add_0_r. reflexivity. }
  destruct (attempt_error w (now + 1) operation) as [e1 | ] eqn:H1.
  2: { exfalso. apply (Hbefore 1); [lia | exact H1]. }
  rewrite interp_for_each_cons, interp_safe_tk_try by exact Hm.
  cbn [clock advance emits]. fold now.
  replace (now + 1 + 1) with (now + 2) by lia. rewrite Hok.
  eexists _, _. split; [reflexivity | ].
  cbn [clock advance emits trace]. split; [lia | ].
  split; [now rewrite (Hshown _ Hok) | ].
  rewrite !sleeps_app, Hsl.
  destruct (failed_attempt_facts now operation 0 e0) as [_ ->].
  destruct (failed_attempt_facts (now + 1) operation 1 e1) as [_ ->].
  change (Z.to_nat 2) with 2%nat.
  cbn. rewrite ?app_nil_r, ?Z.add_0_r, <- ?app_assoc. reflexivity.
Qed.

(** X9.  An attempt counts as failed when [root.destroy ()] raises after
    the message box has been shown.  In a thread, when at each of the
    three attempts the calls up to the message box succeed and the
    destruction of the window raises, the message box is shown three
    times and [safe_tk_operation] still returns [None]. *)
Theorem safe_tk_operation_shows_again (operation : tk_call) (st : State) :
  let now := clock st in
  main_thread st = false ->
  is_dialog operation = true ->
  (forall i, 0 <= i <= 2 ->
     tk_reply w (now + i) TkTk = None /\
     tk_reply w (now + i) TkWithdraw = None /\
     tk_reply w (now + i) operation = None /\
     tk_reply w (now + i) TkDestroy <> None) ->
  exists st',
    interp w (safe_tk_operation operation) st = (Returned false, st') /\
    tk_calls_of is_dialog (trace st') =
      tk_calls_of is_dialog (trace st) ++ [now; now + 1; now + 2].
Proof.
  intros now Hm Hdialog Hall.
  assert (Hattempt : forall i, 0 <= i <= 2 ->
            exists e, attempt_error w (now + i) operation = Some e /\
                      tk_calls_of is_dialog (attempt_trace w (now + i) operation)
                      = [now + i]).
  { intros i Hi. destruct (Hall i Hi) as (H1 & H2 & H3 & H4).
    unfold attempt_error, attempt_trace, attempt_calls. cbn [tk_sequence].
    rewrite H1, H2, H3.
    destruct (tk_reply w (now + i) TkDestroy) as [e | ]; [ | contradiction].
    exists e. split; [reflexivity | ]. cbn. rewrite Hdialog. reflexivity. }
  destruct (Hattempt 0) as (e0 & H0 & Hc0); [lia | ].
  destruct (Hattempt 1) as (e1 & H1 & Hc1); [lia | ].
  destruct (Hattempt 2) as (e2 & H2 & Hc2); [lia | ].
  rewrite Z.add_0_r in H0, Hc0.
  unfold safe_tk_operation. change (range 3) with [0; 1; 2].
  rewrite interp_for_each_cons, interp_safe_tk_try by exact Hm.
  fold now. rewrite H0.
  rewrite interp_for_each_cons, interp_safe_tk_try by exact Hm.
  cbn [clock advance emits]. fold now. rewrite H1.
  rewrite interp_for_each_cons, interp_safe_tk_try by exact Hm.
  cbn [clock advance emits]. fold now.
  replace (now + 1 + 1) with (now + 2) by lia. rewrite H2.
  cbn [for_each interp]. eexists. split; [reflexivity | ].
  cbn [trace advance emits]. unfold failed_attempt.
  rewrite !tk_calls_of_app, Hc0, Hc1, Hc2.
  destruct (0 =? 2), (1 =? 2), (2 =? 2); cbn; now rewrite <- !app_assoc.
Qed.

End Retries.

Lemma safe_tk_operation_gives_up_witness :
  exists st',
    interp no_display (safe_tk_operation TkShowInfo) thread_start =
      (Returned false, st') /\
    clock st' = 3.
Proof.
  destruct (safe_tk_operation_gives_up no_display TkShowInfo thread_start
              "no display" "no display" "no display"
              eq_refl eq_refl eq_refl eq_refl) as (st' & Hrun & Hclock & _).
  exists st'. split; [exact Hrun | exact Hclock].
Defined.

Lemma safe_tk_operation_retries_witness :
  exists st' tr,
    interp display_at_1 (safe_tk_operation TkShowInfo) thread_start =
      (Returned true, st') /\
    clock st' = 1 /\ trace st' = tr ++ shown 1 TkShowInfo.
Proof.
  destruct (safe_tk_operation_retries display_at_1 TkShowInfo 1 thread_start)
    as (st' & tr & Hrun & Hclock & Htrace & _).
  - reflexivity.
  - lia.
  - intros i Hi. assert (Hi0 : i = 0) by lia. subst i. discriminate.
  - reflexivity.
  - exists st', tr. split; [exact Hrun | ]. split; [exact Hclock | exact Htrace].
Defined.

Lemma safe_tk_operation_shows_again_witness :
  exists st',
    interp destroy_fails (safe_tk_operation TkShowInfo) thread_start =
      (Returned false, st') /\
    tk_calls_of is_dialog (trace st') = [0; 1; 2].
Proof.
  destruct (safe_tk_operation_shows_again destroy_fails TkShowInfo thread_start)
    as (st' & Hrun & Hshown).
  - reflexivity.
  - reflexivity.
  - intros i Hi. repeat split; discriminate.
  - exists st'. split; [exact Hrun | exact Hshown].
Defined.

(* ================================================================= *)
(** ** How the loops of [check_time] and [run] end *)

Section LoopEnds.

Variables (w : World) (self : TimeChecker).

Lemma sleep_raises (secs : Z) (e : exn) (st st' : State) :
  interp w (sleep secs) st = (Raised e, st') -> interrupted w secs e st'.
Proof.
  unfold sleep. cbn [bind trigger interp handle].
  destruct (main_thread st) eqn:Hm; [ | discriminate].
  destruct (sleep_interrupt w (clock st) secs) as [e' | ] eqn:Hi;
    [ | discriminate].
  cbn [interp]. intro H. inversion H; subst. unfold interrupted. cbn.
  repeat split; [exact Hm | exact Hi | ]. now exists (trace st).
Qed.

Lemma check_time_try_raises (e : exn) (st st' : State) :
  interp w (check_time_try self) st = (Raised e, st') ->
  interrupted w 60 e st'.
Proof.
  destruct (is_time_to_lock_outcome w self st) as (b & st1 & Hrun & _).
  destruct b.
  - unfold check_time_try. rewrite interp_bind, Hrun.
    cbn [bind trigger interp handle].
    destruct (warning_active st1); cbn [negb].
    + cbn [bind]. rewrite interp_bind.
      destruct (interp w (sleep 60) st1) as [[[] | e' | ] st2] eqn:Hs;
        cbn [interp]; intro H; inversion H; subst.
      eapply sleep_raises; exact Hs.
    + rewrite interp_bind, interp_start_warning, interp_bind.
      destruct (interp w (sleep 60) (started 1 PeriodLock TimeLockCountdown st1))
        as [[[] | e' | ] st2] eqn:Hs;
        cbn [interp]; intro H; inversion H; subst.
      eapply sleep_raises; exact Hs.
  - rewrite (check_time_try_outside _ _ _ _ Hrun). discriminate.
Qed.

Lemma check_time_cycle_raises (e : exn) (st st' : State) :
  interp w (check_time_cycle self) st = (Raised e, st') ->
  (interrupted w 60 e st' /\ forall msg, e <> Exception msg) \/
  interrupted w 300 e st'.
Proof.
  unfold check_time_cycle. rewrite interp_bind, interp_try_catch.
  destruct (interp w (check_time_try self) st) as [[[ | ] | e1 | ] st1] eqn:Htry.
  - discriminate.
  - intro H. right. eapply sleep_raises; exact H.
  - destruct e1 as [ | code | msg]; cbn [except_Exception].
    + intro H; inversion H; subst. left.
      split; [eapply check_time_try_raises; exact Htry | discriminate].
    + intro H; inversion H; subst. left.
      split; [eapply check_time_try_raises; exact Htry | discriminate].
    + rewrite interp_bind, interp_logger, interp_bind, interp_logger.
      cbn [interp]. intro H. right. eapply sleep_raises; exact H.
  - discriminate.
Qed.


Lemma check_time_raises (fuel : nat) (e : exn) (st st' : State) :
  interp w (check_time self fuel) st = (Raised e, st') ->
  interrupted w 60 e st' \/ interrupted w 300 e st'.
Proof.
  revert st; induction fuel as [ | fuel IH]; intro st; [discriminate | ].
  cbn [check_time bind trigger interp handle].
  destruct (stop_event w (clock st)); cbn [negb]; [discriminate | ].
  rewrite interp_bind.
  destruct (interp w (check_time_cycle self) st) as [[[] | e1 | ] st1] eqn:Hc.
  - apply IH.
  - intro H; inversion H; subst.
    destruct (check_time_cycle_raises _ _ _ Hc) as [[Hi _] | Hi]; auto.
  - discriminate.
Qed.

(** X11.  [check_time] returns only when it has read the stop signal
    set, and the signal is set at the time it returns. *)
Theorem check_time_returns_stopped (fuel : nat) (st st' : State) :
  interp w (check_time self fuel) st = (Returned tt, st') ->
  stop_event w (clock st') = true.
Proof.
  revert st; induction fuel as [ | fuel IH]; intro st; [discriminate | ].
  cbn [check_time bind trigger interp handle].
  destruct (stop_event w (clock st)) eqn:Hstop; cbn [negb].
  - cbn [interp]. intro H; inversion H; subst. exact Hstop.
  - rewrite interp_bind.
    destruct (interp w (check_time_cycle self) st) as [[[] | e1 | ] st1];
      [apply IH | discriminate ..].
Qed.

Lemma run_loop_never_returns (cycles fuel : nat) (st : State) :
  forall a st', interp w (run_loop self cycles fuel) st <> (Returned a, st').
Proof.
  revert st; induction fuel as [ | fuel IH]; intros st a st'; [discriminate | ].
  cbn [run_loop]. rewrite interp_bind.
  destruct (interp w (try_catch (check_time self cycles) run_handlers) st)
    as [[[] | e | ] st1]; [apply IH | discriminate ..].
Qed.

(** X12.  [run] never returns: whatever the outside does, a run of [run]
    ends in an exception or goes on. *)
Theorem run_never_returns (cycles fuel : nat) (st : State) :
  forall a st', interp w (run self cycles fuel) st <> (Returned a, st').
Proof.
  intros a st'. unfold run. rewrite interp_bind, interp_logger.
  apply run_loop_never_returns.
Qed.

Lemma run_loop_raises (cycles fuel : nat) (e : exn) (st st' : State) :
  interp w (run_loop self cycles fuel) st = (Raised e, st') ->
  interrupted w 10 e st' \/
  (exists code, e = SystemExit code) /\
  (interrupted w 60 e st' \/ interrupted w 300 e st').
Proof.
  revert st; induction fuel as [ | fuel IH]; intro st; [discriminate | ].
  cbn [run_loop]. rewrite interp_bind, interp_try_catch.
  destruct (interp w (check_time self cycles) st) as [[[] | e1 | ] st1] eqn:Hc.
  - apply IH.
  - destruct e1 as [ | code | msg]; cbn [run_handlers].
    + rewrite interp_logger. apply IH.
    + intro H; inversion H; subst. right.
      split; [now exists code | eapply check_time_raises; exact Hc].
    + rewrite interp_bind, interp_logger, interp_bind, interp_logger.
      match goal with |- context [interp w (sleep 10) ?s] =>
        destruct (interp w (sleep 10) s) as [[[] | e2 | ] st2] eqn:Hs end.
      * apply IH.
      * intro H; inversion H; subst. left. eapply sleep_raises; exact Hs.
      * discriminate.
  - discriminate.
Qed.


(** X14.  Once the stop signal is set, [check_time] returns at once and
    the loop of [run] calls it again at once: pass after pass, nothing is
    logged, no time passes and [run] does not end. *)
Theorem run_spins_when_stopped (cycles : nat) (st : State) :
  stop_event w (clock st) = true ->
  interp w (check_time self (S cycles)) st = (Returned tt, st) /\
  forall fuel, interp w (run_loop self (S cycles) fuel) st = (OutOfFuel, st).
Proof.
  intro Hstop.
  assert (Hreturn : interp w (check_time self (S cycles)) st = (Returned tt, st)).
  { cbn [check_time bind trigger interp handle]. rewrite Hstop. reflexivity. }
  split; [exact Hreturn | ].
  induction fuel as [ | fuel IH]; [reflexivity | ].
  cbn [run_loop]. rewrite interp_bind, interp_try_catch, Hreturn. exact IH.
Qed.

End LoopEnds.


Lemma check_time_returns_stopped_witness :
  stop_event stopped_at_25
    (clock (snd (interp stopped_at_25 (check_time init 2) main_idle))) = true.
Proof.
  apply (check_time_returns_stopped stopped_at_25 init 2 main_idle).
  vm_compute. reflexivity.
Defined.


Lemma run_spins_when_stopped_witness :
  interp stopped_at_25 (run_loop init 1 1000) (advance 25 main_idle) =
  (OutOfFuel, advance 25 main_idle).
Proof.
  exact (proj2 (run_spins_when_stopped stopped_at_25 init 0
                  (advance 25 main_idle) eq_refl) 1000%nat).
Defined.

(* ================================================================= *)
(** ** The schedule evaluator on other configurations *)

Section Evaluator.

Variable w : World.

Lemma interp_windows_then (t : Z * Z) (wins : list window)
  (after : prog bool) (st : State) :
  valid_hm t -> Forall valid_window wins ->
  interp w (for_each (map window_strings wins) (check_window (hhmm t)) after)
    st =
  match find (inside t) wins with
  | Some win => (Returned true, emit (match_log t win) st)
  | None => interp w after st
  end.
Proof.
  intros Ht Hall. induction Hall as [ | win wins Hwin _ IH]; [reflexivity | ].
  cbn [map]. rewrite interp_for_each_cons, interp_check_window by assumption.
  cbn [find]. destruct (inside t win); [reflexivity | apply IH].
Qed.

Lemma interp_is_time_to_lock (self : TimeChecker) (st : State) :
  interp w (is_time_to_lock self) st =
  interp w
    (try_catch
       (for_each (lock_times self)
          (check_window (hhmm (hm_of (local_clock w (clock st))))) (Ret false))
       (except_Exception (fun e =>
          logger ERROR (MsgLockCheckError e) ;;
          logger ERROR MsgTraceback ;;
          Ret false))) st.
Proof.
  unfold is_time_to_lock, is_time_to_lock_try. rewrite !interp_try_catch.
  reflexivity.
Qed.

Lemma strptime_shape (s : string) (d : datetime) :
  strptime_HM s = Some d ->
  d = mkDatetime ordinal_1900 (hour d) (minute d) 0 0.
Proof.
  intro H. unfold strptime_HM in H.
  repeat match type of H with
         | context [match ?x with _ => _ end] => destruct x; try discriminate
         end;
    inversion H; reflexivity.
Qed.

Lemma dt_leb_hm (h1 m1 h2 m2 : Z) :
  dt_leb (mkDatetime ordinal_1900 h1 m1 0 0)
         (mkDatetime ordinal_1900 h2 m2 0 0) = true <->
  h1 < h2 \/ (h1 = h2 /\ m1 <= m2).
Proof.
  unfold dt_leb, dt_compare, lex. cbn [ordinal hour minute second microsecond].
  rewrite !Z.compare_refl.
  destruct (Z.compare_spec h1 h2), (Z.compare_spec m1 m2);
    split; intro; try discriminate; try reflexivity; lia.
Qed.

Lemma interp_check_window_malformed (t : Z * Z) (s e : string) (st : State) :
  valid_hm t ->
  strptime_HM s = None \/ strptime_HM e = None ->
  interp w (check_window (hhmm t) (s, e)) st =
  (Raised (Exception "ValueError"), st).
Proof.
  intros Ht Hbad. unfold check_window, strptime.
  rewrite strptime_hhmm by exact Ht. cbn [bind].
  destruct (strptime_HM s) as [ds | ]; [ | reflexivity]. cbn [bind].
  destruct (strptime_HM e) as [de | ]; [ | reflexivity].
  destruct Hbad; discriminate.
Qed.

(** X15.  A window one of whose strings [strptime] rejects ends the
    evaluation: when no window before it matches, [is_time_to_lock] logs
    the error and answers [False], and the windows after it are never
    looked at. *)
Theorem malformed_window_hides_later (self : TimeChecker)
  (wins : list window) (s e : string) (rest : list (string * string))
  (st : State) :
  let t := hm_of (local_clock w (clock st)) in
  lock_times self = map window_strings wins ++ (s, e) :: rest ->
  valid_hm t ->
  Forall valid_window wins ->
  strptime_HM s = None \/ strptime_HM e = None ->
  interp w (is_time_to_lock self) st =
  match find (inside t) wins with
  | Some win => (Returned true, emit (match_log t win) st)
  | None => (Returned false, emits value_error_logs st)
  end.
Proof.
  intros t Hcfg Ht Hall Hbad.
  rewrite interp_is_time_to_lock, interp_try_catch, Hcfg. fold t.
  rewrite interp_for_each_app, interp_windows_then by assumption.
  destruct (find (inside t) wins); [reflexivity | ].
  rewrite interp_for_each_cons, interp_check_window_malformed by assumption.
  cbn [except_Exception]. rewrite interp_bind, interp_logger.
  rewrite interp_bind, interp_logger. cbn [interp].
  unfold value_error_logs, emits, emit; cbn. now rewrite <- app_assoc.
Qed.

(** X16.  The source decides whether a window crosses midnight by
    comparing its two strings, not the times.  A window whose end string
    sorts before its start string while its end time is not before its
    start time (as for ["9:00"] and ["17:00"]) is open at every minute of
    the day. *)
Theorem string_order_window_always (self : TimeChecker) (wins : list window)
  (s e : string) (ds de : datetime) (rest : list (string * string))
  (st : State) :
  let t := hm_of (local_clock w (clock st)) in
  lock_times self = map window_strings wins ++ (s, e) :: rest ->
  valid_hm t ->
  Forall valid_window wins ->
  strptime_HM s = Some ds -> strptime_HM e = Some de ->
  String.ltb e s = true ->
  dt_leb ds de = true ->
  interp w (is_time_to_lock self) st =
  (Returned true,
   emit (match find (inside t) wins with
         | Some win => match_log t win
         | None => OLog INFO (MsgInLockWindow (hhmm t) s e)
         end) st).
Proof.
  intros t Hcfg Ht Hall Hs He Hlt Hle.
  rewrite interp_is_time_to_lock, interp_try_catch, Hcfg. fold t.
  rewrite interp_for_each_app, interp_windows_then by assumption.
  destruct (find (inside t) wins); [reflexivity | ].
  rewrite interp_for_each_cons. unfold check_window, strptime.
  rewrite strptime_hhmm, Hs, He by exact Ht. cbn [bind]. rewrite Hlt.
  rewrite (strptime_shape _ _ Hs), (strptime_shape _ _ He) in Hle |- *.
  apply dt_leb_hm in Hle.
  match goal with |- context [dt_geb ?c ?a || dt_leb ?c ?b] =>
    assert (Hopen : dt_geb c a || dt_leb c b = true) end.
  { apply orb_true_iff. unfold dt_geb.
    destruct (Z_lt_le_dec (hour ds) (fst t)) as [Hlt1 | Hge1].
    - left. apply dt_leb_hm. lia.
    - destruct (Z.eq_dec (hour ds) (fst t)) as [Heq | Hne].
      + destruct (Z_le_gt_dec (minute ds) (snd t)).
        * left. apply dt_leb_hm. lia.
        * right. apply dt_leb_hm. lia.
      + right. apply dt_leb_hm. lia. }
  rewrite Hopen. reflexivity.
Qed.

Lemma interp_for_each_after {X A : Type} (xs : list X)
  (body : X -> prog (flow A)) (after after' : prog A) (st : State) :
  (forall s, interp w after s = interp w after' s) ->
  interp w (for_each xs body after) st = interp w (for_each xs body after') st.
Proof.
  intro Hafter. revert st; induction xs as [ | x xs IH]; intro st;
    [apply Hafter | ].
  rewrite !interp_for_each_cons.
  destruct (interp w (body x) st) as [[[ | a] | e | ] st1];
    [apply IH | reflexivity ..].
Qed.

(** X17.  Conversely, a window whose end string does not sort before its
    start string while its end time is before its start time (as for
    ["23:00"] and ["7:00"]) is never open: the evaluator does what it
    does without that window. *)
Theorem string_order_window_never (self self' : TimeChecker)
  (before after : list (string * string)) (s e : string) (ds de : datetime)
  (st : State) :
  lock_times self = before ++ (s, e) :: after ->
  lock_times self' = before ++ after ->
  valid_hm (hm_of (local_clock w (clock st))) ->
  strptime_HM s = Some ds -> strptime_HM e = Some de ->
  String.ltb e s = false ->
  dt_leb ds de = false ->
  interp w (is_time_to_lock self) st = interp w (is_time_to_lock self') st.
Proof.
  intros Hcfg Hcfg' Ht Hs He Hlt Hle.
  rewrite !interp_is_time_to_lock, !interp_try_catch, Hcfg, Hcfg'.
  rewrite !interp_for_each_app.
  rewrite (interp_for_each_after before _
             (for_each ((s, e) :: after) _ (Ret false))
             (for_each after
                (check_window (hhmm (hm_of (local_clock w (clock st)))))
                (Ret false)));
    [reflexivity | ].
  intro s0. rewrite interp_for_each_cons. unfold check_window at 1, strptime.
  rewrite strptime_hhmm, Hs, He by exact Ht. cbn [bind]. rewrite Hlt.
  rewrite (strptime_shape _ _ Hs), (strptime_shape _ _ He) in Hle |- *.
  match goal with |- context [dt_leb ?a ?c && dt_leb ?c ?b] =>
    assert (Hshut : dt_leb a c && dt_leb c b = false) end.
  { apply andb_false_iff.
    destruct (dt_leb (mkDatetime ordinal_1900 (hour ds) (minute ds) 0 0)
                (mkDatetime ordinal_1900
                   (fst (hm_of (local_clock w (clock st))))
                   (snd (hm_of (local_clock w (clock st)))) 0 0)) eqn:H1;
      [right | now left].
    destruct (dt_leb (mkDatetime ordinal_1900
                   (fst (hm_of (local_clock w (clock st))))
                   (snd (hm_of (local_clock w (clock st)))) 0 0)
                (mkDatetime ordinal_1900 (hour de) (minute de) 0 0)) eqn:H2;
      [ | reflexivity].
    apply dt_leb_hm in H1. apply dt_leb_hm in H2.
    assert (H3 : dt_leb (mkDatetime ordinal_1900 (hour ds) (minute ds) 0 0)
                   (mkDatetime ordinal_1900 (hour de) (minute de) 0 0) = true)
      by (apply dt_leb_hm; lia).
    congruence. }
  rewrite Hshut. reflexivity.
Qed.

(** X18.  With the windows of [__init__], [is_time_to_lock] answers
    [True] exactly from 00:00 to 07:00, from 11:00 to 13:00, from 17:00 to
    19:00 and from 21:00 to 23:59, the bounds included. *)
Theorem init_schedule (st : State) :
  let t := hm_of (local_clock w (clock st)) in
  valid_hm t ->
  exists b st',
    interp w (is_time_to_lock init) st = (Returned b, st') /\
    (b = true <-> in_init_schedule (minutes t)).
Proof.
  intros t Ht. rewrite interp_is_time_to_lock, interp_try_catch. fold t.
  change (lock_times init) with (map window_strings init_windows).
  rewrite interp_windows.
  2: exact Ht.
  2: { repeat constructor; cbn; lia. }
  eexists _, _. split; [reflexivity | ].
  unfold in_init_schedule, init_windows. cbn [existsb].
  rewrite orb_false_r, !orb_true_iff, !inside_iff.
  destruct Ht as [Hh Hm]. unfold minutes. cbn [fst snd]. lia.
Qed.

Lemma log_only_outcome {A : Type} (p : prog A) (w' : World) (st st' : State) :
  uses_only log_only p ->
  fst (interp w p st) = fst (interp w' p st').
Proof.
  revert st st'; induction p as [a | e | X ev k IH | ]; intros st st' Hp;
    try reflexivity.
  destruct Hp as [Hev Hk]. destruct ev; try discriminate.
  cbn. apply IH. apply Hk.
Qed.

Lemma footprint_windows (cur : string) (wins : list (string * string)) :
  uses_only log_only
    (try_catch (for_each wins (check_window cur) (Ret false))
       (except_Exception (fun e =>
          logger ERROR (MsgLockCheckError e) ;;
          logger ERROR MsgTraceback ;;
          Ret false))).
Proof.
  apply uses_only_except.
  - apply uses_only_for_each; [ | exact I].
    intros [start_time end_time]. unfold check_window, strptime.
    destruct (strptime_HM cur); [ | exact I]. cbn [bind].
    destruct (strptime_HM start_time); [ | exact I]. cbn [bind].
    destruct (strptime_HM end_time); [ | exact I]. cbn [bind].
    destruct (String.ltb end_time start_time);
      [ destruct (dt_geb _ _ || dt_leb _ _)
      | destruct (dt_leb _ _ && dt_leb _ _) ];
      try exact I; (split; [reflexivity | intro; exact I]).
  - intro msg. split; [reflexivity | intro].
    split; [reflexivity | intro]. exact I.
Qed.

End Evaluator.

(** X19.  The answer of [is_time_to_lock] depends on the hour and the
    minute of the local clock only: not on its date, seconds or
    microseconds, and on nothing else outside. *)
Theorem is_time_to_lock_minute_precision (w1 w2 : World)
  (self : TimeChecker) (st1 st2 : State) :
  hour (local_clock w1 (clock st1)) = hour (local_clock w2 (clock st2)) ->
  minute (local_clock w1 (clock st1)) = minute (local_clock w2 (clock st2)) ->
  fst (interp w1 (is_time_to_lock self) st1) =
  fst (interp w2 (is_time_to_lock self) st2).
Proof.
  intros Hh Hm. rewrite !interp_is_time_to_lock. unfold hm_of.
  rewrite Hh, Hm. apply log_only_outcome, footprint_windows.
Qed.

(** X20.  The drift test of [check_time] does not depend on the direction
    of the difference: a local clock that is behind the network time
    triggers as one that is as much ahead. *)
Theorem drift_symmetric (a b : datetime) :
  diff_gt_5 (time_diff a b) = diff_gt_5 (time_diff b a).
Proof.
  rewrite !diff_gt_5_spec. f_equal. unfold dt_sub. lia.
Qed.

Lemma malformed_window_hides_later_witness :
  interp (clock_at 3 0)
    (is_time_to_lock
       (scheduled [("11:00", "13:00"); ("21:00", "24:00"); ("00:00", "07:00")]))
    main_idle =
  (Returned false, emits value_error_logs main_idle).
Proof.
  apply (malformed_window_hides_later (clock_at 3 0) _ [((11, 0), (13, 0))]
           "21:00" "24:00" [("00:00", "07:00")] main_idle).
  - reflexivity.
  - unfold valid_hm; simpl; lia.
  - repeat constructor; simpl; lia.
  - right. reflexivity.
Defined.

Lemma string_order_window_always_witness :
  interp (clock_at 20 15) (is_time_to_lock (scheduled [("9:00", "17:00")]))
    main_idle =
  (Returned true, emit (OLog INFO (MsgInLockWindow "20:15" "9:00" "17:00"))
                    main_idle).
Proof.
  apply (string_order_window_always (clock_at 20 15) _ [] "9:00" "17:00"
           (mkDatetime ordinal_1900 9 0 0 0) (mkDatetime ordinal_1900 17 0 0 0)
           [] main_idle).
  - reflexivity.
  - unfold valid_hm; simpl; lia.
  - constructor.
  - reflexivity.
  - reflexivity.
  - reflexivity.
  - reflexivity.
Defined.

Lemma string_order_window_never_witness :
  interp (clock_at 23 30) (is_time_to_lock (scheduled [("23:00", "7:00")]))
    main_idle =
  interp (clock_at 23 30) (is_time_to_lock (scheduled [])) main_idle.
Proof.
  apply (string_order_window_never (clock_at 23 30) _ _ [] [] "23:00" "7:00"
           (mkDatetime ordinal_1900 23 0 0 0) (mkDatetime ordinal_1900 7 0 0 0)
           main_idle).
  - reflexivity.
  - reflexivity.
  - unfold valid_hm; simpl; lia.
  - reflexivity.
  - reflexivity.
  - reflexivity.
  - reflexivity.
Defined.

Lemma init_schedule_witness :
  exists b st',
    interp (clock_at 7 0) (is_time_to_lock init) main_idle = (Returned b, st') /\
    (b = true <-> in_init_schedule 420).
Proof.
  apply (init_schedule (clock_at 7 0) main_idle). unfold valid_hm; simpl; lia.
Defined.

Lemma is_time_to_lock_minute_precision_witness :
  fst (interp (clock_at 7 0) (is_time_to_lock init) main_idle) =
  fst (interp end_of_0700 (is_time_to_lock init) thread_start).
Proof.
  apply (is_time_to_lock_minute_precision (clock_at 7 0) end_of_0700 init
           main_idle thread_start); reflexivity.
Defined.

(* ================================================================= *)
(** ** An error inside a turn *)

Section TurnError.

Variable w : World.
Variable self : TimeChecker.

Lemma interp_sleep_main (secs : Z) (st : State) :
  main_thread st = true ->
  interp w (sleep secs) st =
  match sleep_interrupt w (clock st) secs with
  | Some e => (Raised e, emit (OSleep (clock st) secs) st)
  | None => (Returned tt, advance secs (emit (OSleep (clock st) secs) st))
  end.
Proof.
  intro Hm. unfold sleep. cbn [bind trigger interp handle]. rewrite Hm.
  destruct (sleep_interrupt w (clock st) secs); reflexivity.
Qed.

(** X21.  The [except] clause of a turn of [check_time]: when the
    60-second sleep of a turn in a lock window is interrupted by an
    exception of class [Exception], the error and the traceback are
    logged and the turn goes on to the sleep of 300 seconds, so the next
    check comes 300 seconds later, not 60; the warning entered in the
    turn stays active. *)
Theorem turn_error_backoff (msg : string) (st st1 : State) :
  main_thread st = true ->
  interp w (is_time_to_lock self) st = (Returned true, st1) ->
  sleep_interrupt w (clock st) 60 = Some (Exception msg) ->
  sleep_interrupt w (clock st) 300 = None ->
  exists st' tr,
    interp w (check_time_cycle self) st = (Returned tt, st') /\
    clock st' = clock st + 300 /\
    warning_active st' = true /\
    trace st' =
      tr ++ [OSleep (clock st) 60; OLog ERROR (MsgCheckError msg);
             OLog ERROR MsgTraceback; OSleep (clock st) 300] /\
    sleeps (trace st') = sleeps (trace st) ++ [(clock st, 60); (clock st, 300)].
Proof.
  intros Hmain Hin H60 H300.
  destruct (is_time_to_lock_outcome w self st) as (b & st1' & Hrun & Hq & Hc).
  rewrite Hin in Hrun. injection Hrun as <- <-.
  pose proof (is_time_to_lock_trace w self st) as Htr. rewrite Hin in Htr.
  cbn [snd] in Htr. destruct Htr as [Hsl _].
  destruct Hq as (_ & Hm & _).
  set (s2 := if negb (warning_active st1)
             then started 1 PeriodLock TimeLockCountdown st1 else st1).
  assert (Hs2 : clock s2 = clock st /\ main_thread s2 = true /\
                warning_active s2 = true /\
                sleeps (trace s2) = sleeps (trace st)).
  { subst s2. destruct (warning_active st1) eqn:Hflag; cbn [negb].
    - rewrite Hm. auto.
    - unfold started. cbn. rewrite sleeps_app, Hm. cbn.
      rewrite app_nil_r. auto. }
  destruct Hs2 as (Hc2 & Hm2 & Hf2 & Hsl2).
  assert (Hguard : interp w
            (if negb (warning_active st1)
             then start_warning 1 PeriodLock TimeLockCountdown
             else Ret tt) st1 = (Returned tt, s2)).
  { subst s2. destruct (negb (warning_active st1));
      [apply interp_start_warning | reflexivity]. }
  eexists _, (trace s2).
  split; [ | split; [ | split; [ | split]]].
  - unfold check_time_cycle, check_time_try.
    rewrite interp_bind, interp_try_catch, interp_bind, Hin.
    cbn [bind trigger interp handle]. rewrite interp_bind, Hguard.
    rewrite interp_bind, interp_sleep_main, Hc2, H60 by exact Hm2.
    cbn [except_Exception].
    rewrite interp_bind, interp_logger, interp_bind, interp_logger.
    cbn [interp]. rewrite interp_sleep_main by exact Hm2.
    cbn [emit clock]. rewrite Hc2, H300. reflexivity.
  - cbn. lia.
  - cbn. exact Hf2.
  - cbn. rewrite <- !app_assoc. reflexivity.
  - cbn. rewrite !sleeps_app, Hsl2. cbn. rewrite <- !app_assoc. reflexivity.
Qed.

End TurnError.

Lemma turn_error_backoff_witness :
  exists st' tr,
    interp window_sleep_fails (check_time_cycle init) main_idle =
      (Returned tt, st') /\
    clock st' = 300 /\
    warning_active st' = true /\
    trace st' =
      tr ++ [OSleep 0 60; OLog ERROR (MsgCheckError "interrupted");
             OLog ERROR MsgTraceback; OSleep 0 300].
Proof.
  destruct (turn_error_backoff window_sleep_fails init "interrupted" main_idle
              (snd (interp window_sleep_fails (is_time_to_lock init) main_idle)))
    as (st' & tr & Hrun & Hclock & Hflag & Htrace & _).
  - reflexivity.
  - vm_compute. reflexivity.
  - reflexivity.
  - reflexivity.
  - exists st', tr. auto.
Defined.

(* ================================================================= *)
(** ** Start-up and shutdown *)

Module LifecycleFacts.

Import Lifecycle.

Lemma cleanup_run (o : Outside) (p : Process) :
  cleanup o p =
  (inr tt,
   mkProcess (has_logger p) true (countdown_thread p) (at_exit p)
     (installed p) (joins p ++ cleanup_joins p) (log p ++ cleanup_log o p)).
Proof.
  unfold cleanup, try_except, seq, logger, stop_event_set, thread_is_alive,
    join, ret, cleanup_joins, cleanup_log.
  cbn.
  destruct (countdown_thread p) as [[ | ] | ]; cbn;
    rewrite ?app_nil_r; try reflexivity.
  destruct (join_raises o); cbn; rewrite <- ?app_assoc; reflexivity.
Qed.

End LifecycleFacts.


(** X23.  [signal_handler] always ends in [SystemExit] with code 0, with
    the stop signal set: also when there is no countdown thread, and when
    joining it raises. *)
Theorem signal_handler_exits (o : Lifecycle.Outside) (s : Lifecycle.signum)
  (p : Lifecycle.Process) :
  exists p',
    Lifecycle.signal_handler o s p = (inl (SystemExit 0), p') /\
    Lifecycle.stop_set p' = true /\
    Lifecycle.joins p' = Lifecycle.joins p ++ Lifecycle.cleanup_joins p /\
    exists rest,
      Lifecycle.log p' =
      Lifecycle.log p ++
      (INFO, Lifecycle.MsgSignal s) :: (INFO, Lifecycle.MsgCleanup) :: rest.
Proof.
  unfold Lifecycle.signal_handler, Lifecycle.seq at 1 2.
  unfold Lifecycle.logger at 1. rewrite LifecycleFacts.cleanup_run.
  eexists. split; [reflexivity | ]. cbn. repeat split.
  unfold Lifecycle.cleanup_log. rewrite <- app_assoc. cbn.
  eexists. reflexivity.
Qed.

(** X24.  [setup_signal_handlers] never raises and logs nothing.  It
    installs the handler for SIGINT, then for SIGTERM, and stops at the
    first installation that raises: when the one for SIGINT raises, the
    one for SIGTERM is not attempted. *)
Theorem setup_signal_handlers_silent (o : Lifecycle.Outside)
  (p : Lifecycle.Process) :
  exists p',
    Lifecycle.setup_signal_handlers o p = (inr tt, p') /\
    Lifecycle.installed p' =
      Lifecycle.installed p ++ Lifecycle.handlers_installed o /\
    Lifecycle.log p' = Lifecycle.log p /\
    Lifecycle.stop_set p' = Lifecycle.stop_set p.
Proof.
  unfold Lifecycle.setup_signal_handlers, Lifecycle.suppress,
    Lifecycle.try_except, Lifecycle.seq, Lifecycle.signal_signal,
    Lifecycle.handlers_installed, Lifecycle.ret.
  destruct (Lifecycle.signal_raises o Lifecycle.SIGINT); cbn.
  - eexists. split; [reflexivity | ]. now rewrite app_nil_r.
  - destruct (Lifecycle.signal_raises o Lifecycle.SIGTERM); cbn;
      (eexists; split; [reflexivity | ]); cbn;
      rewrite <- ?app_assoc; repeat split.
Qed.

(** X25.  [__init__] raises only when the log file cannot be opened, and
    then nothing has been set up.  Otherwise it completes whatever
    [signal.signal] does: the stop signal is clear, there is no countdown
    thread, [cleanup] is registered to run at exit, the handlers that
    could be installed are, and one line is logged. *)
Theorem init_completes (o : Lifecycle.Outside) :
  match Lifecycle.file_handler_raises o with
  | Some e =>
      Lifecycle.__init__ o Lifecycle.fresh =
      (inl (Exception e), Lifecycle.fresh)
  | None =>
      Lifecycle.__init__ o Lifecycle.fresh =
      (inr tt,
       Lifecycle.mkProcess true false None true
         (Lifecycle.handlers_installed o) []
         [(INFO, Lifecycle.MsgInitialised)])
  end.
Proof.
  unfold Lifecycle.__init__, Lifecycle.setup_logging, Lifecycle.seq at 1.
  destruct (Lifecycle.file_handler_raises o); [reflexivity | ].
  unfold Lifecycle.setup_signal_handlers, Lifecycle.suppress,
    Lifecycle.try_except, Lifecycle.seq, Lifecycle.signal_signal,
    Lifecycle.handlers_installed, Lifecycle.ret, Lifecycle.new_fields,
    Lifecycle.atexit_register, Lifecycle.logger, Lifecycle.fresh.
  cbn.
  destruct (Lifecycle.signal_raises o Lifecycle.SIGINT); cbn;
    [reflexivity | ].
  destruct (Lifecycle.signal_raises o Lifecycle.SIGTERM); reflexivity.
Qed.

(* ================================================================= *)
(** ** Shutdown of the main loop *)

Lemma signal_handler_raises (o : Lifecycle.Outside) (s : Lifecycle.signum)
  (p : Lifecycle.Process) :
  fst (Lifecycle.signal_handler o s p) = inl (SystemExit 0).
Proof.
  unfold Lifecycle.signal_handler, Lifecycle.seq at 1 2.
  unfold Lifecycle.logger at 1. rewrite LifecycleFacts.cleanup_run.
  reflexivity.
Qed.

(** X26.  When the only exceptions that interrupt the sleeps of the main
    thread are those [signal_handler] raises, [run] can only end in
    [SystemExit] with code 0. *)
Theorem run_exit_code (w : World) (self : TimeChecker) (cycles fuel : nat)
  (e : exn) (st st' : State) :
  (forall t secs e',
     sleep_interrupt w t secs = Some e' ->
     exists o s p, fst (Lifecycle.signal_handler o s p) = inl e') ->
  interp w (run self cycles fuel) st = (Raised e, st') ->
  e = SystemExit 0.
Proof.
  intros Hhandler Hrun. unfold run in Hrun.
  rewrite interp_bind, interp_logger in Hrun.
  assert (Hfrom : exists t secs, sleep_interrupt w t secs = Some e).
  { destruct (run_loop_raises _ _ _ _ _ _ _ Hrun)
      as [(_ & H & _) | [_ [(_ & H & _) | (_ & H & _)]]]; eauto. }
  destruct Hfrom as (t & secs & Hint).
  destruct (Hhandler _ _ _ Hint) as (o & s & p & Hraised).
  rewrite signal_handler_raises in Hraised. congruence.
Qed.

Lemma run_exit_code_witness :
  exists e st',
    interp terminated_at_0 (run init 3 2) main_idle = (Raised e, st') /\
    e = SystemExit 0.
Proof.
  pose (r := interp terminated_at_0 (run init 3 2) main_idle).
  pose (e := match fst r with Raised e => e | _ => KeyboardInterrupt end).
  assert (Hrun : interp terminated_at_0 (run init 3 2) main_idle =
                 (Raised e, snd r)) by (vm_compute; reflexivity).
  exists e, (snd r). split; [exact Hrun | ].
  apply (run_exit_code terminated_at_0 init 3 2 e main_idle (snd r));
    [ | exact Hrun].
  intros t secs e' Hint. exists calm, Lifecycle.SIGTERM, Lifecycle.fresh.
  cbn in Hint. destruct ((t =? 0) && (secs =? 300)); [ | discriminate].
  injection Hint as <-. reflexivity.
Defined.
